(** * Patient forms: list, search and continuation

    A shallow embedding of the forms list and forms dashboard components of
    esm-patient-forms-app, in their two variants:

    - the eager ("client") list, [forms/forms-list.component.tsx], which
      filters the loaded forms with the [fuzzy] package, and its dashboard;
    - the infinite-scroll list, which asks its parent for the next page
      when a sentinel element comes into view, and its dashboard.

    React is modelled by explicit state passing: a render creates closures
    over the props it was given, the browser and React call these closures
    later, and every call leaves a list of observable actions. *)

From Stdlib Require Import List ZArith Bool String Ascii Lia.
From Stdlib Require Import Sorting.Sorted Sorting.Permutation.
Import ListNotations.

Set Implicit Arguments.

(* ===================================================================== *)
(** ** JavaScript values the components rely on *)
(* ===================================================================== *)

Module JS.

(** A reference identity (of a function or of an array). Hook dependency
    lists compare such values with [Object.is]. *)
Definition Ref := nat.

(** Numbers, as far as the comparators need them: the integers, the two
    infinities and NaN. *)
Inductive number : Type :=
| Num (z : Z)
| PosInf
| NegInf
| NaN.

(** [a - b] *)
Definition sub (a b : number) : number :=
  match a, b with
  | NaN, _ | _, NaN => NaN
  | Num x, Num y => Num (x - y)
  | Num _, PosInf => NegInf
  | Num _, NegInf => PosInf
  | PosInf, PosInf => NaN
  | PosInf, _ => PosInf
  | NegInf, NegInf => NaN
  | NegInf, _ => NegInf
  end.

(** [v > 0] *)
Definition positive (v : number) : bool :=
  match v with
  | Num z => (0 <? z)%Z
  | PosInf => true
  | NegInf | NaN => false
  end.

(** Truthiness of a number: [0] and [NaN] are falsy. *)
Definition truthy_number (v : number) : bool :=
  match v with
  | Num z => negb (z =? 0)%Z
  | PosInf | NegInf => true
  | NaN => false
  end.

(** Truthiness of an optional boolean prop: [undefined] is falsy. *)
Definition truthy (b : option bool) : bool :=
  match b with
  | Some true => true
  | _ => false
  end.

(** Truthiness of a string: only the empty string is falsy. *)
Definition truthy_string (s : string) : bool :=
  match s with
  | EmptyString => false
  | String _ _ => true
  end.

(** [Array.prototype.sort(cmp)]: the sort is stable, and [b] moves in
    front of [a] only when [cmp(a, b) > 0]. A comparator result of [0] or
    [NaN] keeps the two elements in their order. *)
Section Sort.
Variable A : Type.
Variable cmp : A -> A -> number.

Fixpoint insert (x : A) (l : list A) : list A :=
  match l with
  | [] => [x]
  | y :: ys => if positive (cmp x y) then y :: insert x ys else x :: y :: ys
  end.

Fixpoint sort (l : list A) : list A :=
  match l with
  | [] => []
  | x :: xs => insert x (sort xs)
  end.
End Sort.

(** [String.prototype.toLowerCase], on the ASCII letters. *)
Definition lower_ascii (c : ascii) : ascii :=
  let n := nat_of_ascii c in
  if andb (65 <=? n)%nat (n <=? 90)%nat then ascii_of_nat (n + 32) else c.

Fixpoint toLowerCase (s : string) : string :=
  match s with
  | EmptyString => EmptyString
  | String c r => String (lower_ascii c) (toLowerCase r)
  end.

(** [String.prototype.includes] *)
Fixpoint includes (s sub : string) : bool :=
  if String.prefix sub s then true
  else match s with
       | EmptyString => false
       | String _ r => includes r sub
       end.

End JS.

(* ===================================================================== *)
(** ** [types.ts] *)
(* ===================================================================== *)

Record Form : Type := mkForm {
  form_uuid : string;
  form_name : string;
  form_display : option string;
  form_published : bool;
  form_retired : bool;
  form_version : string
}.

Record EncounterWithFormRef : Type := mkEncounter {
  enc_uuid : string;
  enc_encounterDatetime : string
}.

Record CompletedFormInfo : Type := mkCompleted {
  form : Form;
  associatedEncounters : list EncounterWithFormRef;
  lastCompletedDate : option Z
}.

(** [formInfo.form.display ?? formInfo.form.name], the label the lists
    search and show. *)
Definition label (formInfo : CompletedFormInfo) : string :=
  match form_display (form formInfo) with
  | Some d => d
  | None => form_name (form formInfo)
  end.

(* ===================================================================== *)
(** ** The [fuzzy] package *)
(* ===================================================================== *)

Module Fuzzy.

(** The score of a match: a finite number of points, or [Infinity] when
    the string is the pattern itself. *)
Inductive score : Type :=
| Points (z : Z)
| Exact.

Definition to_number (s : score) : JS.number :=
  match s with
  | Points z => JS.Num z
  | Exact => JS.PosInf
  end.

(** The order of the scores as numbers. *)
Definition score_leb (a b : score) : bool :=
  match a, b with
  | Points x, Points y => (x <=? y)%Z
  | _, Exact => true
  | Exact, Points _ => false
  end.

(** [fuzzy.match]: consecutive matching characters score more than
    linearly, a character that does not match resets the run; the
    pattern matches when all its characters were found in order. The
    strings are those of ASCII text, lower-cased letter by letter, and
    the points are exact integers, as the doubles of the package are for
    runs of fewer than 53 matching characters. *)
Fixpoint scan (pattern str : string) (curr total : Z) : option Z :=
  match str with
  | EmptyString =>
      match pattern with
      | EmptyString => Some total
      | String _ _ => None
      end
  | String ch rest =>
      match pattern with
      | String p prest =>
          if Ascii.eqb ch p
          then let curr' := (curr + (1 + curr))%Z in
               scan prest rest curr' (total + curr')%Z
          else scan pattern rest 0%Z total
      | EmptyString => scan pattern rest 0%Z total
      end
  end.

Definition fuzzy_match (pattern str : string) : option score :=
  let compareString := JS.toLowerCase str in
  let pattern := JS.toLowerCase pattern in
  match scan pattern compareString 0%Z 0%Z with
  | Some total =>
      Some (if String.eqb compareString pattern then Exact else Points total)
  | None => None
  end.

Section Filter.
Variable A : Type.
(** The matcher; [fuzzy_match] above is the one the package ships. *)
Variable fmatch : string -> string -> option score.

Record result : Type := mkResult {
  r_string : string;
  r_score : score;
  r_index : nat;
  r_original : A
}.

(** The [reduce] of [fuzzy.filter]: the matching elements, in order,
    each with its score and its index in the array. *)
Fixpoint collect (pattern : string) (extract : A -> string)
         (idx : nat) (arr : list A) : list result :=
  match arr with
  | [] => []
  | element :: rest =>
      let str := extract element in
      match fmatch pattern str with
      | Some sc =>
          mkResult str sc idx element :: collect pattern extract (S idx) rest
      | None => collect pattern extract (S idx) rest
      end
  end.

(** The comparator of [fuzzy.filter]: best score first, the index
    breaks ties. *)
Definition by_score_desc (a b : result) : JS.number :=
  let compare := JS.sub (to_number (r_score b)) (to_number (r_score a)) in
  if JS.truthy_number compare then compare
  else JS.Num (Z.of_nat (r_index a) - Z.of_nat (r_index b)).

(** [fuzzy.filter(pattern, arr, {extract})]; an absent or empty array
    gives the empty array. *)
Definition filter (pattern : string) (arr : option (list A))
           (extract : A -> string) : list result :=
  match arr with
  | None => []
  | Some l => JS.sort by_score_desc (collect pattern extract 0 l)
  end.
End Filter.

End Fuzzy.

(** The comparator both lists pass to [sort]: [r1.score - r2.score]. *)
Definition by_score_asc (r1 r2 : Fuzzy.result CompletedFormInfo) : JS.number :=
  JS.sub (Fuzzy.to_number (Fuzzy.r_score r1)) (Fuzzy.to_number (Fuzzy.r_score r2)).

(** [fuzzy.filter(...).sort(...).map(result => result.original)] *)
Definition fuzzy_ranked (fmatch : string -> string -> option Fuzzy.score)
           (searchTerm : string) (completedForms : option (list CompletedFormInfo))
  : list CompletedFormInfo :=
  map (@Fuzzy.r_original _)
      (JS.sort by_score_asc (Fuzzy.filter fmatch searchTerm completedForms label)).

(* ===================================================================== *)
(** ** What a list component does to its surroundings *)
(* ===================================================================== *)

(** A DOM node, by identity. *)
Definition Node := nat.

(** The calls a list makes on what it was handed: the parent's [loadMore]
    and [onSearch], and the setter of the committed search term. A
    [LoadMore] also records the props of the render whose closure made the
    call. *)
Inductive Action (P : Type) : Type :=
| LoadMore (f : JS.Ref) (captured : P)
| OnSearch (f : JS.Ref) (term : string)
| SetSearchTerm (term : string).

Arguments LoadMore {P} f captured.
Arguments OnSearch {P} f term.
Arguments SetSearchTerm {P} term.

(** The function a table calls with the raw text of its search box on
    every input event. *)
Inductive SearchHandler : Type :=
| Debounced (wait : Z)
| Direct (f : JS.Ref).

(** A row of the table. *)
Record Row : Type := mkRow {
  row_id : string;
  row_lastCompleted : option string;
  row_formName : string;
  row_formUuid : string;
  row_encounterUuid : option string;
  row_form : Form
}.

Section Rows.
(** [formatDatetime] of the framework. *)
Variable formatDatetime : Z -> string.

Definition tableRow (formData : CompletedFormInfo) : Row :=
  {| row_id := form_uuid (form formData);
     row_lastCompleted := option_map formatDatetime (lastCompletedDate formData);
     row_formName := label formData;
     row_formUuid := form_uuid (form formData);
     row_encounterUuid := option_map enc_uuid (hd_error (associatedEncounters formData));
     row_form := form formData |}.

(** [filteredForms?.map(...) ?? []] *)
Definition tableRows (filteredForms : option (list CompletedFormInfo)) : list Row :=
  match filteredForms with
  | Some l => map tableRow l
  | None => []
  end.
End Rows.

Record Table : Type := mkTable {
  tb_rows : list Row;
  tb_handleSearch : SearchHandler;
  tb_total : option nat
}.

(** The load-more sentinel: it shows a spinner while validating and a
    hint to scroll otherwise. *)
Inductive Sentinel : Type :=
| SentinelLoading
| SentinelScrollHint.

(** What a list renders. *)
Inductive Body : Type :=
| PlainTable (tb : Table)
| InfiniteScrollContainer (tb : Table) (trigger : option Sentinel)
                          (endOfResults : option nat).

Inductive View : Type :=
| DataTableSkeleton
| EmptyFragment
| ResponsiveWrapper (heading : option string) (body : Body).

Definition view_table (v : View) : option Table :=
  match v with
  | ResponsiveWrapper _ (PlainTable tb) => Some tb
  | ResponsiveWrapper _ (InfiniteScrollContainer tb _ _) => Some tb
  | _ => None
  end.

(** The search input lives in the table. *)
Definition view_search (v : View) : option SearchHandler :=
  option_map tb_handleSearch (view_table v).

Definition view_sentinel (v : View) : option Sentinel :=
  match v with
  | ResponsiveWrapper _ (InfiniteScrollContainer _ trigger _) => trigger
  | _ => None
  end.

Definition view_endOfResults (v : View) : option nat :=
  match v with
  | ResponsiveWrapper _ (InfiniteScrollContainer _ _ e) => e
  | _ => None
  end.

(** An array is empty: [arr?.length === 0]. *)
Definition length_is_zero (A : Type) (arr : option (list A)) : bool :=
  match arr with
  | Some [] => true
  | _ => false
  end.

Definition is_defined (A : Type) (o : option A) : bool :=
  match o with
  | Some _ => true
  | None => false
  end.

(** Timers, shared by the two lists: what is due at [now] and what is
    not, the due ones in the order of their deadlines. *)
Section Timers.
Variable T : Type.
Variable due : T -> Z.

Definition due_now (now : Z) (timers : list T) : list T :=
  JS.sort (fun a b => JS.Num (due a - due b))
          (filter (fun tm => (due tm <=? now)%Z) timers).

Definition due_later (now : Z) (timers : list T) : list T :=
  filter (fun tm => negb (due tm <=? now)%Z) timers.
End Timers.

(* ===================================================================== *)
(** ** The eager list: [forms/forms-list.component.tsx] *)
(* ===================================================================== *)

Module ClientList.

Record Props : Type := mkProps {
  completedForms : option (list CompletedFormInfo);
  error : bool;                    (* truthiness of [error] *)
  sectionName : string;            (* default: 'forms' *)
  totalForms : option nat
}.

(** The quiet interval of [debounce(setSearchTerm, 300)]. *)
Definition wait : Z := 300.

(** [!completedForms && !error] *)
Definition shows_skeleton (p : Props) : bool :=
  negb (is_defined (completedForms p)) && negb (error p).

(** [completedForms?.length === 0] *)
Definition shows_nothing (p : Props) : bool :=
  length_is_zero (completedForms p).

Definition shows_table (p : Props) : bool :=
  negb (shows_skeleton p) && negb (shows_nothing p).

Section Render.
Variable fmatch : string -> string -> option Fuzzy.score.
Variable formatDatetime : Z -> string.

Definition filteredForms (searchTerm : string)
           (completedForms : option (list CompletedFormInfo))
  : option (list CompletedFormInfo) :=
  if negb (JS.truthy_string searchTerm) then completedForms
  else Some (fuzzy_ranked fmatch searchTerm completedForms).

Definition render (searchTerm : string) (p : Props) : View :=
  if shows_skeleton p then DataTableSkeleton
  else if shows_nothing p then EmptyFragment
  else
    ResponsiveWrapper
      (if String.eqb (sectionName p) "forms" then None else Some (sectionName p))
      (PlainTable
         {| tb_rows := tableRows formatDatetime
                         (filteredForms searchTerm (completedForms p));
            tb_handleSearch := Debounced wait;
            tb_total := totalForms p |}).
End Render.

(** The list over time. The committed term lives in the forms context
    ([useFormsContext]). [handleSearch] is [debounce(setSearchTerm, 300)]
    of lodash with its default options: no call on the leading edge, and
    one call on the trailing edge, with the arguments of the last call,
    once [wait] has passed since that call. The state keeps the raw term
    of the last call and the time its trailing call is due. It has room
    for the pending call of one debounced function. A list that is
    mounted while the call of a list torn down before is still pending
    has a debounced function of its own; such a trace is outside this
    model. *)
Record State : Type := mkState {
  mounted : option Props;
  searchTerm : string;
  pending : option (Z * string);
  log : list (Z * Action Props)
}.

Definition init : State :=
  {| mounted := None; searchTerm := EmptyString; pending := None; log := [] |}.

Inductive Event : Type :=
| Render (p : Props)     (* the parent renders the list *)
| Input (raw : string)   (* the table calls [handleSearch] *)
| Unmount.               (* the list is torn down *)

(** Time passes up to [now]: a due trailing call runs [setSearchTerm]. *)
Definition advance (now : Z) (s : State) : State :=
  match pending s with
  | Some (due, raw) =>
      if (due <=? now)%Z
      then {| mounted := mounted s; searchTerm := raw; pending := None;
              log := log s ++ [(due, SetSearchTerm raw)] |}
      else s
  | None => s
  end.

(** The table is there to call [handleSearch] only while the list is
    mounted and shows it. *)
Definition table_on_screen (s : State) : bool :=
  match mounted s with
  | Some p => shows_table p
  | None => false
  end.

Definition handle (t : Z) (e : Event) (s : State) : State :=
  match e with
  | Render p =>
      {| mounted := Some p; searchTerm := searchTerm s; pending := pending s;
         log := log s |}
  | Input raw =>
      if table_on_screen s
      then {| mounted := mounted s; searchTerm := searchTerm s;
              pending := Some ((t + wait)%Z, raw); log := log s |}
      else s
  | Unmount =>
      (* the only cleanup the list registers is that of its language
         listener: the debounced function is left as it is *)
      {| mounted := None; searchTerm := searchTerm s; pending := pending s;
         log := log s |}
  end.

Fixpoint run (evs : list (Z * Event)) (s : State) : State :=
  match evs with
  | [] => s
  | (t, e) :: rest => run rest (handle t e (advance t s))
  end.

Definition run_until (horizon : Z) (evs : list (Z * Event)) (s : State) : State :=
  advance horizon (run evs s).

(** The terms committed so far, in order. *)
Definition committed (s : State) : list string :=
  flat_map (fun entry =>
              match snd entry with
              | SetSearchTerm term => [term]
              | _ => []
              end) (log s).

End ClientList.

(* ===================================================================== *)
(** ** The infinite-scroll list *)
(* ===================================================================== *)

Module InfiniteList.

(** An array of forms: its identity and its elements. *)
Record Arr : Type := mkArr {
  arr_ref : JS.Ref;
  arr_items : list CompletedFormInfo
}.

(** [FormsListProps], after the defaults of the parameter list. *)
Record Props : Type := mkProps {
  completedForms : option Arr;
  error : bool;                      (* truthiness of [error] *)
  sectionName : string;              (* default: 'forms' *)
  onSearch : option JS.Ref;
  isValidating : option bool;
  loadMore : option JS.Ref;
  hasMore : option bool;
  isLoading : option bool;
  totalLoaded : nat;                 (* default: 0 *)
  enableInfiniteScrolling : bool     (* default: false *)
}.

Definition items (p : Props) : option (list CompletedFormInfo) :=
  option_map arr_items (completedForms p).

(** The quiet interval of the debounced [handleSearch]. *)
Definition wait : Z := 1000.

(** [!completedForms && !error && (isLoading || isValidating)] *)
Definition shows_skeleton (p : Props) : bool :=
  negb (is_defined (completedForms p)) && negb (error p)
  && (JS.truthy (isLoading p) || JS.truthy (isValidating p)).

(** [completedForms?.length === 0 && !isLoading] *)
Definition shows_nothing (p : Props) : bool :=
  length_is_zero (items p) && negb (JS.truthy (isLoading p)).

Definition shows_table (p : Props) : bool :=
  negb (shows_skeleton p) && negb (shows_nothing p).

(** The [handleSearch] prop of the table. *)
Definition table_handler (p : Props) : SearchHandler :=
  if enableInfiniteScrolling p
  then match onSearch p with
       | Some f => Direct f
       | None => Debounced wait
       end
  else Debounced wait.

(** [{hasMore && <div ref={setLoadMoreRef} ...>}] *)
Definition trigger (p : Props) : option Sentinel :=
  if JS.truthy (hasMore p)
  then Some (if JS.truthy (isValidating p) then SentinelLoading else SentinelScrollHint)
  else None.

(** [{!hasMore && completedForms && completedForms.length > 0 && ...}] *)
Definition endOfResults (p : Props) : option nat :=
  match items p with
  | Some (_ :: _) => if negb (JS.truthy (hasMore p)) then Some (totalLoaded p) else None
  | _ => None
  end.

Section Render.
Variable fmatch : string -> string -> option Fuzzy.score.
Variable formatDatetime : Z -> string.

Definition filteredForms (searchTerm : string) (p : Props)
  : option (list CompletedFormInfo) :=
  if enableInfiniteScrolling p && is_defined (onSearch p) then items p
  else if negb (JS.truthy_string searchTerm) then items p
  else Some (fuzzy_ranked fmatch searchTerm (items p)).

Definition render (searchTerm : string) (p : Props) : View :=
  if shows_skeleton p then DataTableSkeleton
  else if shows_nothing p then EmptyFragment
  else
    let rows := tableRows formatDatetime (filteredForms searchTerm p) in
    let tableComponent :=
      if enableInfiniteScrolling p
      then InfiniteScrollContainer
             {| tb_rows := rows; tb_handleSearch := table_handler p;
                tb_total := Some (totalLoaded p) |}
             (trigger p) (endOfResults p)
      else PlainTable
             {| tb_rows := rows; tb_handleSearch := Debounced wait;
                tb_total := Some (totalLoaded p) |}
    in
    ResponsiveWrapper
      (if String.eqb (sectionName p) "forms" then None else Some (sectionName p))
      tableComponent.
End Render.

(** The trigger element is in the document. *)
Definition shows_sentinel (p : Props) : bool :=
  shows_table p && enableInfiniteScrolling p && JS.truthy (hasMore p).

(** *** Hook dependencies *)

Definition same_ref (a b : option JS.Ref) : bool :=
  match a, b with
  | Some x, Some y => Nat.eqb x y
  | None, None => true
  | _, _ => false
  end.

Definition same_flag (a b : option bool) : bool :=
  match a, b with
  | Some x, Some y => Bool.eqb x y
  | None, None => true
  | _, _ => false
  end.

(** [[enableInfiniteScrolling, loadMore, hasMore, isValidating]], the
    dependencies of the observer effect and of [setLoadMoreRef]. *)
Definition same_guard_deps (q p : Props) : bool :=
  Bool.eqb (enableInfiniteScrolling q) (enableInfiniteScrolling p)
  && same_ref (loadMore q) (loadMore p)
  && same_flag (hasMore q) (hasMore p)
  && same_flag (isValidating q) (isValidating p).

(** The dependencies of the effect that re-checks visibility. *)
Definition same_recheck_deps (q p : Props) : bool :=
  same_ref (option_map arr_ref (completedForms q)) (option_map arr_ref (completedForms p))
  && same_guard_deps q p
  && String.eqb (sectionName q) (sectionName p)
  && Nat.eqb (totalLoaded q) (totalLoaded p).

(** *** The list over time *)

(** An [IntersectionObserver]: the props its callback closes over and
    the nodes it watches. *)
Record Observer : Type := mkObserver {
  obs_closure : Props;
  obs_targets : list Node
}.

(** What a timer runs, with the props its closure captured. The trailing
    call of the debounced [handleSearch] is kept as a timer as well: due
    one quiet interval after the last call of the debounced function
    [inst], with the raw term of that call. *)
Inductive Job : Type :=
| RefCheck (closure : Props) (node : Node)          (* [setLoadMoreRef], after 100 ms *)
| ForceCheck (closure : Props)                      (* the re-check effect, after 300 ms *)
| Trailing (inst : nat) (closure : Props) (raw : string).  (* the debounced call *)

Record Timer : Type := mkTimer {
  tm_id : nat;
  tm_due : Z;
  tm_job : Job
}.

(** What the callbacks measure, in whole pixels: the height of the
    window, the top of the trigger element while it is in the document,
    and the height of the first element of class [infiniteScrollContainer]
    if there is one. *)
Record Dom : Type := mkDom {
  innerHeight : Z;
  sentinelTop : Z;
  containerHeight : option Z
}.

Record IntersectionObserverEntry : Type := mkEntry {
  isIntersecting : bool;
  target : Node
}.

Record State : Type := mkState {
  mounted : option Props;        (* the props of the last render *)
  searchTerm : string;
  debounced : nat;               (* the debounced function of the last render *)
  observers : list Observer;     (* every observer created, by id *)
  observerRef : option nat;
  loadMoreRef : option Node;
  sentinel : option Node;        (* the trigger element in the document *)
  observerCleanup : bool;        (* the observer effect returned a cleanup *)
  recheckCleanup : option nat;   (* the timeout the re-check cleanup clears *)
  timers : list Timer;
  fresh : nat;                   (* the next node or timer id *)
  dom : Dom;
  log : list (Z * Action Props);
  instance : nat                 (* the first debounced function of the instance mounted *)
}.

Definition init : State :=
  {| mounted := None; searchTerm := EmptyString; debounced := 0;
     observers := []; observerRef := None; loadMoreRef := None;
     sentinel := None; observerCleanup := false; recheckCleanup := None;
     timers := []; fresh := 0;
     dom := {| innerHeight := 0; sentinelTop := 0; containerHeight := None |};
     log := []; instance := 0 |}.

Definition with_mounted (v : option Props) (s : State) : State :=
  mkState v (searchTerm s) (debounced s) (observers s) (observerRef s)
          (loadMoreRef s) (sentinel s) (observerCleanup s) (recheckCleanup s)
          (timers s) (fresh s) (dom s) (log s) (instance s).
Definition with_searchTerm (v : string) (s : State) : State :=
  mkState (mounted s) v (debounced s) (observers s) (observerRef s)
          (loadMoreRef s) (sentinel s) (observerCleanup s) (recheckCleanup s)
          (timers s) (fresh s) (dom s) (log s) (instance s).
Definition with_debounced (v : nat) (s : State) : State :=
  mkState (mounted s) (searchTerm s) v (observers s) (observerRef s)
          (loadMoreRef s) (sentinel s) (observerCleanup s) (recheckCleanup s)
          (timers s) (fresh s) (dom s) (log s) (instance s).
Definition with_observers (v : list Observer) (s : State) : State :=
  mkState (mounted s) (searchTerm s) (debounced s) v (observerRef s)
          (loadMoreRef s) (sentinel s) (observerCleanup s) (recheckCleanup s)
          (timers s) (fresh s) (dom s) (log s) (instance s).
Definition with_observerRef (v : option nat) (s : State) : State :=
  mkState (mounted s) (searchTerm s) (debounced s) (observers s) v
          (loadMoreRef s) (sentinel s) (observerCleanup s) (recheckCleanup s)
          (timers s) (fresh s) (dom s) (log s) (instance s).
Definition with_loadMoreRef (v : option Node) (s : State) : State :=
  mkState (mounted s) (searchTerm s) (debounced s) (observers s) (observerRef s)
          v (sentinel s) (observerCleanup s) (recheckCleanup s)
          (timers s) (fresh s) (dom s) (log s) (instance s).
Definition with_sentinel (v : option Node) (s : State) : State :=
  mkState (mounted s) (searchTerm s) (debounced s) (observers s) (observerRef s)
          (loadMoreRef s) v (observerCleanup s) (recheckCleanup s)
          (timers s) (fresh s) (dom s) (log s) (instance s).
Definition with_observerCleanup (v : bool) (s : State) : State :=
  mkState (mounted s) (searchTerm s) (debounced s) (observers s) (observerRef s)
          (loadMoreRef s) (sentinel s) v (recheckCleanup s)
          (timers s) (fresh s) (dom s) (log s) (instance s).
Definition with_recheckCleanup (v : option nat) (s : State) : State :=
  mkState (mounted s) (searchTerm s) (debounced s) (observers s) (observerRef s)
          (loadMoreRef s) (sentinel s) (observerCleanup s) v
          (timers s) (fresh s) (dom s) (log s) (instance s).
Definition with_timers (v : list Timer) (s : State) : State :=
  mkState (mounted s) (searchTerm s) (debounced s) (observers s) (observerRef s)
          (loadMoreRef s) (sentinel s) (observerCleanup s) (recheckCleanup s)
          v (fresh s) (dom s) (log s) (instance s).
Definition with_fresh (v : nat) (s : State) : State :=
  mkState (mounted s) (searchTerm s) (debounced s) (observers s) (observerRef s)
          (loadMoreRef s) (sentinel s) (observerCleanup s) (recheckCleanup s)
          (timers s) v (dom s) (log s) (instance s).
Definition with_dom (v : Dom) (s : State) : State :=
  mkState (mounted s) (searchTerm s) (debounced s) (observers s) (observerRef s)
          (loadMoreRef s) (sentinel s) (observerCleanup s) (recheckCleanup s)
          (timers s) (fresh s) v (log s) (instance s).
Definition with_log (v : list (Z * Action Props)) (s : State) : State :=
  mkState (mounted s) (searchTerm s) (debounced s) (observers s) (observerRef s)
          (loadMoreRef s) (sentinel s) (observerCleanup s) (recheckCleanup s)
          (timers s) (fresh s) (dom s) v (instance s).
Definition with_instance (v : nat) (s : State) : State :=
  mkState (mounted s) (searchTerm s) (debounced s) (observers s) (observerRef s)
          (loadMoreRef s) (sentinel s) (observerCleanup s) (recheckCleanup s)
          (timers s) (fresh s) (dom s) (log s) v.

Definition emit (t : Z) (a : Action Props) (s : State) : State :=
  with_log (log s ++ [(t, a)]) s.

(** [loadMore()] from a closure over [p]. *)
Definition call_loadMore (t : Z) (p : Props) (s : State) : State :=
  match loadMore p with
  | Some f => emit t (LoadMore f p) s
  | None => s
  end.

(** [setTimeout(job, delay)] at time [t]; the result is the timeout id. *)
Definition setTimeout (t delay : Z) (job : Job) (s : State) : State :=
  with_fresh (S (fresh s))
    (with_timers (timers s ++ [mkTimer (fresh s) (t + delay) job]) s).

Definition clearTimeout (id : nat) (s : State) : State :=
  with_timers (filter (fun tm => negb (Nat.eqb (tm_id tm) id)) (timers s)) s.

(** *** Observers *)

Fixpoint update_at (A : Type) (f : A -> A) (i : nat) (l : list A) : list A :=
  match l, i with
  | [], _ => []
  | x :: r, O => f x :: r
  | x :: r, S j => x :: update_at f j r
  end.

Definition mem (n : Node) (l : list Node) : bool := existsb (Nat.eqb n) l.

Definition observe (o : nat) (n : Node) (s : State) : State :=
  with_observers
    (update_at (fun ob => if mem n (obs_targets ob) then ob
                          else mkObserver (obs_closure ob) (obs_targets ob ++ [n]))
               o (observers s)) s.

Definition unobserve (o : nat) (n : Node) (s : State) : State :=
  with_observers
    (update_at (fun ob => mkObserver (obs_closure ob)
                            (filter (fun m => negb (Nat.eqb m n)) (obs_targets ob)))
               o (observers s)) s.

Definition disconnect (o : nat) (s : State) : State :=
  with_observers
    (update_at (fun ob => mkObserver (obs_closure ob) []) o (observers s)) s.

(** The callback given to [new IntersectionObserver], closed over [p]. *)
Definition observer_callback (t : Z) (p : Props)
           (first : IntersectionObserverEntry) (s : State) : State :=
  if isIntersecting first && JS.truthy (hasMore p) && negb (JS.truthy (isValidating p))
  then call_loadMore t p s
  else s.

(** *** The callback ref *)

(** [setLoadMoreRef(node)] of a render with props [p], called at [t]. *)
Definition setLoadMoreRef (t : Z) (p : Props) (node : option Node) (s : State) : State :=
  let s1 := match loadMoreRef s, observerRef s with
            | Some old, Some o => unobserve o old s
            | _, _ => s
            end in
  let s2 := with_loadMoreRef node s1 in
  match node, observerRef s2 with
  | Some n, Some o =>
      if JS.truthy (hasMore p) && enableInfiniteScrolling p
      then setTimeout t 100 (RefCheck p n) (observe o n s2)
      else s2
  | _, _ => s2
  end.

(** [node.getBoundingClientRect().top]: a node that is not in the
    document has an empty rectangle. *)
Definition top_of (s : State) (n : Node) : Z :=
  match sentinel s with
  | Some m => if Nat.eqb m n then sentinelTop (dom s) else 0%Z
  | None => 0%Z
  end.

(** *** Timers *)

Definition isRFESection (p : Props) : bool :=
  JS.includes (JS.toLowerCase (sectionName p)) "rfe".

Definition shouldLoadMore (p : Props) (s : State) (height : Z) : bool :=
  let viewportHeight := innerHeight (dom s) in
  (10 * height <? 8 * viewportHeight)%Z
  || match loadMoreRef s with
     | Some n => (top_of s n <? viewportHeight)%Z
     | None => false
     end
  || (isRFESection p
      && match completedForms p with
         | Some arr => (List.length (arr_items arr) <? 20)%nat
                       && (List.length (arr_items arr) <? totalLoaded p)%nat
         | None => false
         end).

(** [setSearchTerm] is the setter of the state of one instance of the
    list: the call of a debounced function reaches the state only while
    the instance that made the function is mounted. *)
Definition alive (inst : nat) (s : State) : bool :=
  is_defined (mounted s) && (instance s <=? inst)%nat.

Definition fire (tm : Timer) (s : State) : State :=
  let t := tm_due tm in
  match tm_job tm with
  | RefCheck p n =>
      if (top_of s n <? innerHeight (dom s))%Z
         && JS.truthy (hasMore p) && negb (JS.truthy (isValidating p))
      then call_loadMore t p s
      else s
  | ForceCheck p =>
      match containerHeight (dom s) with
      | Some height => if shouldLoadMore p s height then call_loadMore t p s else s
      | None => s
      end
  | Trailing inst p raw =>
      let s1 := emit t (SetSearchTerm raw)
                     (if alive inst s then with_searchTerm raw s else s) in
      match onSearch p with
      | Some f => emit t (OnSearch f raw) s1
      | None => s1
      end
  end.

(** Time passes up to [now]: the timers that are due run, in the order
    of their deadlines. No callback of a timer sets or clears a timer. *)
Definition advance (now : Z) (s : State) : State :=
  fold_left (fun st tm => fire tm st)
            (due_now tm_due now (timers s))
            (with_timers (due_later tm_due now (timers s)) s).

(** *** A render and its effects *)

(** The refs of the commit. [setLoadMoreRef] is a callback ref made by
    [useCallback]: it is a new function whenever one of its dependencies
    changed. When the trigger element enters the document React calls the
    callback with its node, when it leaves React calls the callback with
    [null], and when the element stays but the callback is a new one React
    calls the old callback with [null] and the new one with the node. The
    element keeps its node while it stays in the document, which it does
    not when [sectionName] changes from or to ['forms']: the list then
    returns its table after a heading instead of alone, or alone instead
    of after a heading (lines 267-278), React builds the container of the
    table anew, the old trigger element leaves the document and a new one
    enters it. All this happens before the effects of the render run. *)
Definition rebuilt (prev : option Props) (p : Props) : bool :=
  match prev with
  | Some q => negb (Bool.eqb (String.eqb (sectionName q) "forms")
                             (String.eqb (sectionName p) "forms"))
  | None => false
  end.

Definition commit_refs (t : Z) (prev : option Props) (p : Props) (s : State) : State :=
  let changed := match prev with
                 | Some q => negb (same_guard_deps q p)
                 | None => true
                 end in
  let old := match prev with Some q => q | None => p end in
  match sentinel s, shows_sentinel p with
  | Some n, true =>
      if rebuilt prev p
      then let s1 := setLoadMoreRef t old None s in
           let n' := fresh s1 in
           setLoadMoreRef t p (Some n') (with_fresh (S n') (with_sentinel (Some n') s1))
      else if changed then setLoadMoreRef t p (Some n) (setLoadMoreRef t old None s)
      else s
  | Some n, false => setLoadMoreRef t old None (with_sentinel None s)
  | None, true =>
      let n := fresh s in
      setLoadMoreRef t p (Some n) (with_fresh (S n) (with_sentinel (Some n) s))
  | None, false => s
  end.

(** The effect that sets up the observer. *)
Definition observer_cleanup (s : State) : State :=
  if observerCleanup s
  then match observerRef s with
       | Some o => disconnect o s
       | None => s
       end
  else s.

Definition observer_effect (p : Props) (s : State) : State :=
  if negb (enableInfiniteScrolling p) || negb (is_defined (loadMore p))
  then with_observerCleanup false s
  else
    let o := List.length (observers s) in
    let s1 := with_observerRef (Some o)
                (with_observers (observers s ++ [mkObserver p []]) s) in
    let s2 := match loadMoreRef s1 with
              | Some n => observe o n s1
              | None => s1
              end in
    with_observerCleanup true s2.

(** The effect that re-checks visibility after a render. *)
Definition recheck_cleanup (s : State) : State :=
  match recheckCleanup s with
  | Some id => clearTimeout id s
  | None => s
  end.

Definition recheck_effect (t : Z) (p : Props) (s : State) : State :=
  if enableInfiniteScrolling p && JS.truthy (hasMore p)
     && negb (JS.truthy (isValidating p)) && is_defined (loadMore p)
  then with_recheckCleanup (Some (fresh s)) (setTimeout t 300 (ForceCheck p) s)
  else with_recheckCleanup None s.

Definition commit_effects (t : Z) (prev : option Props) (p : Props) (s : State) : State :=
  let guard_changed := match prev with
                       | Some q => negb (same_guard_deps q p)
                       | None => true
                       end in
  let recheck_changed := match prev with
                         | Some q => negb (same_recheck_deps q p)
                         | None => true
                         end in
  let s1 := if guard_changed then observer_effect p (observer_cleanup s) else s in
  if recheck_changed then recheck_effect t p (recheck_cleanup s1) else s1.

(** [useMemo(() => debounce(...), [onSearch])]. The function made on
    mount is the first one of the new instance. *)
Definition memo_handleSearch (prev : option Props) (p : Props) (s : State) : State :=
  match prev with
  | Some q => if same_ref (onSearch q) (onSearch p) then s
              else with_debounced (S (debounced s)) s
  | None => with_instance (S (debounced s)) (with_debounced (S (debounced s)) s)
  end.

(** The parent renders the list with props [p] at [t]: the memoized
    values are recomputed where their dependencies changed, the refs are
    detached and attached, and then the effects whose dependencies changed
    are cleaned up and run again. *)
Definition render_commit (t : Z) (p : Props) (s : State) : State :=
  let prev := mounted s in
  with_mounted (Some p)
    (commit_effects t prev p (commit_refs t prev p (memo_handleSearch prev p s))).

(** The list is torn down: the ref is detached and the cleanups of the
    effects run. The timeout of [setLoadMoreRef] and the debounced
    function have no cleanup. The state and the refs of the instance go
    with it: a list mounted later starts with [useState('')] and
    [useRef(null)] of its own. The observers that were created and the
    timers that are pending stay. *)
Definition unmount (t : Z) (s : State) : State :=
  match mounted s with
  | None => s
  | Some q =>
      let s1 := match sentinel s with
                | Some _ => setLoadMoreRef t q None (with_sentinel None s)
                | None => s
                end in
      let s2 := with_recheckCleanup None
                  (recheck_cleanup (with_observerCleanup false (observer_cleanup s1))) in
      with_mounted None
        (with_searchTerm EmptyString (with_observerRef None (with_loadMoreRef None s2)))
  end.

(** *** Events *)

Inductive Event : Type :=
| Render (p : Props)                 (* the parent renders the list *)
| Unmount                            (* the list is torn down *)
| Intersect (o : nat) (first : IntersectionObserverEntry)
            (rest : list IntersectionObserverEntry)
                                     (* the browser calls back observer [o] *)
| Layout (d : Dom)                   (* the page is laid out anew *)
| Input (raw : string).              (* the table calls its [handleSearch] *)

(** The table calls [handleSearch(raw)] at [t]. *)
Definition table_input (t : Z) (raw : string) (s : State) : State :=
  match mounted s with
  | Some p =>
      if shows_table p
      then match table_handler p with
           | Direct f => emit t (OnSearch f raw) s
           | Debounced w =>
               let inst := debounced s in
               let others :=
                 filter (fun tm => match tm_job tm with
                                   | Trailing i _ _ => negb (Nat.eqb i inst)
                                   | _ => true
                                   end) (timers s) in
               setTimeout t w (Trailing inst p raw) (with_timers others s)
           end
      else s
  | None => s
  end.

Definition handle (t : Z) (e : Event) (s : State) : State :=
  match e with
  | Render p => render_commit t p s
  | Unmount => unmount t s
  | Intersect o first rest =>
      match nth_error (observers s) o with
      | Some ob =>
          if mem (target first) (obs_targets ob)
          then observer_callback t (obs_closure ob) first s
          else s
      | None => s
      end
  | Layout d => with_dom d s
  | Input raw => table_input t raw s
  end.

Fixpoint run (evs : list (Z * Event)) (s : State) : State :=
  match evs with
  | [] => s
  | (t, e) :: rest => run rest (handle t e (advance t s))
  end.

Definition run_until (horizon : Z) (evs : list (Z * Event)) (s : State) : State :=
  advance horizon (run evs s).

(** The actions logged, without their times. *)
Definition actions (s : State) : list (Action Props) := map snd (log s).

(** The terms handed to the parent's [onSearch], in order. *)
Definition searched (s : State) : list string :=
  flat_map (fun a => match a with
                     | OnSearch _ term => [term]
                     | _ => []
                     end) (actions s).

(** The calls of [loadMore], with their times. *)
Definition loadMore_calls (s : State) : list (Z * JS.Ref) :=
  flat_map (fun entry => match snd entry with
                         | LoadMore f _ => [(fst entry, f)]
                         | _ => []
                         end) (log s).

End InfiniteList.

(* ===================================================================== *)
(** ** The dashboards: [forms/forms-dashboard.component.tsx] *)
(* ===================================================================== *)

Module Dashboard.

(** [FormSection] of [types.ts], as configured. *)
Record FormSection : Type := mkFormSection {
  fs_name : string;
  fs_forms : list string
}.

(** The configuration, as far as the dashboards read it. *)
Record ConfigObject : Type := mkConfig {
  formSections : option (list FormSection);
  enableInfiniteScrolling : option bool
}.

(** A section with the forms available in it. *)
Record Section_ : Type := mkSection {
  sec_name : string;
  sec_forms : list string;
  sec_availableForms : option (list CompletedFormInfo)
}.

(** What a render evaluates to: a view, or the [TypeError] of reading a
    property of [undefined]. *)
Inductive Outcome (V : Type) : Type :=
| Rendered (v : V)
| TypeError.

Arguments Rendered {V} v.
Arguments TypeError {V}.

(** [formSection.forms.some(formConfig => formInfo.form.uuid === formConfig
    || formInfo.form.name === formConfig)] *)
Definition in_section (formSection : FormSection) (formInfo : CompletedFormInfo) : bool :=
  existsb (fun formConfig =>
             String.eqb (form_uuid (form formInfo)) formConfig
             || String.eqb (form_name (form formInfo)) formConfig)
          (fs_forms formSection).

(** [config.formSections?.map(...)] *)
Definition sections (config : ConfigObject) (forms : option (list CompletedFormInfo))
  : option (list Section_) :=
  option_map
    (map (fun formSection =>
            {| sec_name := fs_name formSection;
               sec_forms := fs_forms formSection;
               sec_availableForms := option_map (filter (in_section formSection)) forms |}))
    (formSections config).

(** The dashboard shows its empty state, or its container with one list
    or one list a section. *)
Inductive DashboardView (Child : Type) : Type :=
| EmptyState
| Container (lists : list Child).

Arguments EmptyState {Child}.
Arguments Container {Child} lists.

(** The body both dashboards share: [forms?.length === 0], then
    [sections.length === 0 ? one list : sections.map(...)]. *)
Definition layout (Child : Type) (config : ConfigObject)
           (forms : option (list CompletedFormInfo))
           (single : Child) (of_section : Section_ -> Child)
  : Outcome (DashboardView Child) :=
  if length_is_zero forms then Rendered EmptyState
  else match sections config forms with
       | None => TypeError
       | Some [] => Rendered (Container [single])
       | Some secs => Rendered (Container (map of_section secs))
       end.

(** *** The paged dashboard *)

(** What [useForms] returned. *)
Record FormsResult : Type := mkFormsResult {
  data : option (list CompletedFormInfo);
  allForms : option (list CompletedFormInfo);
  error : bool;
  isValidating : option bool;
  totalCount : option nat
}.

Definition render_paged (config : ConfigObject) (r : FormsResult)
  : Outcome (DashboardView ClientList.Props) :=
  layout config (data r)
         {| ClientList.completedForms := data r;
            ClientList.error := error r;
            ClientList.sectionName := "forms";
            ClientList.totalForms := totalCount r |}
         (fun section =>
            {| ClientList.completedForms := sec_availableForms section;
               ClientList.error := error r;
               ClientList.sectionName := sec_name section;
               ClientList.totalForms := None |}).

(** *** The dashboard with infinite scrolling *)

(** What [useInfiniteForms] returned. *)
Record InfiniteFormsResult : Type := mkInfiniteResult {
  i_data : option (list CompletedFormInfo);
  i_allForms : option (list CompletedFormInfo);
  i_error : bool;
  i_isValidating : option bool;
  i_loadMore : option JS.Ref;
  i_hasMore : option bool;
  i_isLoading : option bool;
  i_totalLoaded : option nat
}.

(** The attributes the dashboard gives a list. *)
Record ListAttributes : Type := mkAttributes {
  a_sectionName : option string;
  a_completedForms : option (list CompletedFormInfo);
  a_error : bool;
  a_onSearch : JS.Ref;
  a_isValidating : option bool;
  a_loadMore : option JS.Ref;
  a_hasMore : option bool;
  a_isLoading : option bool;
  a_totalLoaded : option nat;
  a_enableInfiniteScrolling : option bool
}.

(** [enableInfiniteScrolling ?? config.enableInfiniteScrolling] *)
Definition useInfiniteScrolling (prop : option bool) (config : ConfigObject) : option bool :=
  match prop with
  | Some b => Some b
  | None => enableInfiniteScrolling config
  end.

(** The result the dashboard goes on with: that of [useInfiniteForms],
    or that of [useForms] with no [loadMore] and nothing more to load. *)
Definition chosen (prop : option bool) (config : ConfigObject)
           (infinite : InfiniteFormsResult) (regular : FormsResult)
  : InfiniteFormsResult :=
  if JS.truthy (useInfiniteScrolling prop config) then infinite
  else {| i_data := data regular;
          i_allForms := allForms regular;
          i_error := error regular;
          i_isValidating := isValidating regular;
          i_loadMore := None;
          i_hasMore := Some false;
          i_isLoading := Some false;
          i_totalLoaded := Some (match allForms regular with
                                 | Some l => List.length l
                                 | None => 0%nat
                                 end) |}.

Definition render_infinite (prop : option bool) (config : ConfigObject)
           (handleSearch : JS.Ref)
           (infinite : InfiniteFormsResult) (regular : FormsResult)
  : Outcome (DashboardView ListAttributes) :=
  let r := chosen prop config infinite regular in
  let attributes name forms :=
    {| a_sectionName := name;
       a_completedForms := forms;
       a_error := i_error r;
       a_onSearch := handleSearch;
       a_isValidating := i_isValidating r;
       a_loadMore := i_loadMore r;
       a_hasMore := i_hasMore r;
       a_isLoading := i_isLoading r;
       a_totalLoaded := i_totalLoaded r;
       a_enableInfiniteScrolling := useInfiniteScrolling prop config |} in
  layout config (i_data r)
         (attributes None (i_data r))
         (fun section => attributes (Some (sec_name section)) (sec_availableForms section)).

End Dashboard.

(* ===================================================================== *)
(** ** The incremental loader *)
(* ===================================================================== *)

(** Modelled from the spec: [useInfiniteForms] of [hooks/use-forms], the
    loader behind the dashboard with infinite scrolling, whose source is
    missing here. Sections 4.4, 4.5 and 5 of the specification
    describe it: a guard of two flags, a result set that grows page by
    page, and requests tagged with the committed term in effect when they
    were issued, whose responses are dropped in server mode once the tag
    is out of date. *)
Module Loader.

Inductive Mode : Type := Client | Server.

Inductive LoadState : Type :=
| Idle
| LoadingInitial
| ValidatingMore
| Exhausted
| Errored.

Record Page : Type := mkPage {
  page_items : list CompletedFormInfo;
  page_hasMore : bool
}.

Inductive Response : Type :=
| Fetched (page : Page)
| FetchError.

(** The committed term in effect: the term and the number of the query
    it started. A term that is committed again later is in effect anew,
    and is another tag. *)
Record Tag : Type := mkTag {
  tag_term : string;
  tag_query : nat
}.

Definition tag_eqb (a b : Tag) : bool :=
  String.eqb (tag_term a) (tag_term b) && Nat.eqb (tag_query a) (tag_query b).

Record Request : Type := mkRequest {
  req_tag : Tag;         (* the committed term in effect at issue time *)
  req_cursor : nat
}.

Record State : Type := mkState {
  mode : Mode;
  term : string;                       (* the committed term *)
  queries : nat;                       (* the queries started so far *)
  resultSet : list CompletedFormInfo;
  cursor : nat;
  busyFlag : bool;
  exhaustedFlag : bool;
  loadState : LoadState;
  issued : list Request;               (* the fetches issued so far; a fetch
                                          is known by its place in the list *)
  settled : list nat                   (* the fetches that have settled *)
}.

Definition init (m : Mode) : State :=
  {| mode := m; term := EmptyString; queries := 0; resultSet := []; cursor := 0;
     busyFlag := false; exhaustedFlag := false; loadState := Idle;
     issued := []; settled := [] |}.

(** The tag of a fetch issued now. *)
Definition in_effect (s : State) : Tag :=
  {| tag_term := term s; tag_query := queries s |}.

(** [initialize]: starts a query: resets Cursor and ResultSet, goes to
    Loading-initial and issues the first fetch. *)
Definition initialize (tm : string) (s : State) : State :=
  {| mode := mode s; term := tm; queries := S (queries s);
     resultSet := []; cursor := 0;
     busyFlag := true; exhaustedFlag := false; loadState := LoadingInitial;
     issued := issued s ++ [mkRequest (mkTag tm (S (queries s))) 0];
     settled := settled s |}.

(** [requestContinue]: admitted only when neither flag is set; the busy
    flag is set on admission. *)
Definition admits (s : State) : bool :=
  negb (busyFlag s) && negb (exhaustedFlag s).

Definition requestContinue (s : State) : State :=
  if admits s
  then {| mode := mode s; term := term s; queries := queries s;
          resultSet := resultSet s;
          cursor := cursor s; busyFlag := true; exhaustedFlag := exhaustedFlag s;
          loadState := ValidatingMore;
          issued := issued s ++ [mkRequest (in_effect s) (cursor s)];
          settled := settled s |}
  else s.

(** [setCommittedTerm]: a new query in server mode, nothing but the
    term in client mode. *)
Definition setCommittedTerm (tm : string) (s : State) : State :=
  match mode s with
  | Server => initialize tm s
  | Client =>
      {| mode := mode s; term := tm; queries := queries s;
         resultSet := resultSet s; cursor := cursor s;
         busyFlag := busyFlag s; exhaustedFlag := exhaustedFlag s;
         loadState := loadState s; issued := issued s; settled := settled s |}
  end.

(** The response is stale: in server mode, the tag of its request is no
    longer the committed term in effect. *)
Definition stale (req : Request) (s : State) : bool :=
  match mode s with
  | Server => negb (tag_eqb (req_tag req) (in_effect s))
  | Client => false
  end.

Definition with_settled (id : nat) (s : State) : State :=
  {| mode := mode s; term := term s; queries := queries s;
     resultSet := resultSet s; cursor := cursor s;
     busyFlag := busyFlag s; exhaustedFlag := exhaustedFlag s;
     loadState := loadState s; issued := issued s; settled := id :: settled s |}.

(** The response to a fetch is merged, or the error is noted. *)
Definition merge (r : Response) (s : State) : State :=
  match r with
  | Fetched page =>
      {| mode := mode s; term := term s; queries := queries s;
         resultSet := resultSet s ++ page_items page;
         cursor := S (cursor s); busyFlag := false;
         exhaustedFlag := negb (page_hasMore page);
         loadState := if page_hasMore page then Idle else Exhausted;
         issued := issued s; settled := settled s |}
  | FetchError =>
      {| mode := mode s; term := term s; queries := queries s;
         resultSet := resultSet s;
         cursor := cursor s; busyFlag := false;
         exhaustedFlag := exhaustedFlag s; loadState := Errored;
         issued := issued s; settled := settled s |}
  end.

(** The fetch [id] settles with [r]. A fetch settles once. A stale
    response is dropped. *)
Definition settle (id : nat) (r : Response) (s : State) : State :=
  match nth_error (issued s) id with
  | Some req =>
      if existsb (Nat.eqb id) (settled s) then s
      else if stale req s then with_settled id s
           else merge r (with_settled id s)
  | None => s
  end.

Inductive Event : Type :=
| Initialize (tm : string)
| RequestContinue
| SetCommittedTerm (tm : string)
| Settles (id : nat) (r : Response).

Definition step (s : State) (e : Event) : State :=
  match e with
  | Initialize tm => initialize tm s
  | RequestContinue => requestContinue s
  | SetCommittedTerm tm => setCommittedTerm tm s
  | Settles id r => settle id r s
  end.

Definition run (evs : list Event) (s : State) : State := fold_left step evs s.

(** What the renderer is given: everything but the record of the
    fetches. *)
Definition exposed (s : State)
  : string * list CompletedFormInfo * nat * bool * bool * LoadState :=
  (term s, resultSet s, cursor s, busyFlag s, exhaustedFlag s, loadState s).

End Loader.

(* ===================================================================== *)
(** ** The dashboard and its search query *)
(* ===================================================================== *)

(** [FormsDashboard] of [forms/forms-dashboard.component.tsx] over time:
    its state, the arguments it calls its two hooks with, and what it
    renders from their results. *)
Module FormsDashboard.

(** What the dashboard reads besides its state: its props, the
    configuration, the connectivity and the visit. *)
Record Surroundings : Type := mkSurroundings {
  patientUuid : string;
  currentVisit : option string;            (* [currentVisit?.uuid] *)
  isOnline : bool;
  orderBy : option string;                 (* [config.orderBy] *)
  enableInfiniteScrolling : option bool;   (* the prop *)
  config : Dashboard.ConfigObject
}.

(** The arguments of [useInfiniteForms], lines 39-47, and of [useForms],
    line 49. The third and the fourth argument are [undefined] in both
    calls. *)
Record InfiniteFormsArgs : Type := mkInfiniteFormsArgs {
  ia_patientUuid : string;
  ia_visitUuid : option string;
  ia_offline : bool;                       (* [!isOnline] *)
  ia_orderBy : option string;
  ia_searchQuery : string
}.

Record FormsArgs : Type := mkFormsArgs {
  fa_patientUuid : string;
  fa_visitUuid : option string;
  fa_offline : bool;
  fa_orderBy : option string
}.

(** [const [searchQuery, setSearchQuery] = useState<string>('')] *)
Record State : Type := mkState {
  searchQuery : string
}.

Definition init : State := {| searchQuery := EmptyString |}.

(** [handleSearch], lines 103-105. *)
Definition handleSearch (query : string) (d : State) : State :=
  {| searchQuery := query |}.

Definition infiniteFormsArgs (w : Surroundings) (d : State) : InfiniteFormsArgs :=
  {| ia_patientUuid := patientUuid w;
     ia_visitUuid := currentVisit w;
     ia_offline := negb (isOnline w);
     ia_orderBy := orderBy w;
     ia_searchQuery := searchQuery d |}.

Definition formsArgs (w : Surroundings) : FormsArgs :=
  {| fa_patientUuid := patientUuid w;
     fa_visitUuid := currentVisit w;
     fa_offline := negb (isOnline w);
     fa_orderBy := orderBy w |}.

Section Hooks.
(** The two hooks of [hooks/use-forms], as what they return at the moment
    of a render for the arguments they are called with, and the identity
    of [handleSearch], which [useCallback] keeps from render to render. *)
Variable useInfiniteForms : InfiniteFormsArgs -> Dashboard.InfiniteFormsResult.
Variable useForms : FormsArgs -> Dashboard.FormsResult.
Variable handleSearchRef : JS.Ref.

(** A render: both hooks are called, whatever [useInfiniteScrolling]
    is, and the result of one of them goes to the lists. *)
Definition render (w : Surroundings) (d : State)
  : Dashboard.Outcome (Dashboard.DashboardView Dashboard.ListAttributes) :=
  Dashboard.render_infinite (enableInfiniteScrolling w) (config w) handleSearchRef
                            (useInfiniteForms (infiniteFormsArgs w d))
                            (useForms (formsArgs w)).


End Hooks.

End FormsDashboard.

(* ===================================================================== *)
(** ** Notions the statements use *)
(* ===================================================================== *)

(** The form has a match for the term. *)
Definition has_match (fmatch : string -> string -> option Fuzzy.score)
           (searchTerm : string) (formInfo : CompletedFormInfo) : bool :=
  is_defined (fmatch searchTerm (label formInfo)).

(** Both forms match the term and the first does not score higher. *)
Definition ascending (fmatch : string -> string -> option Fuzzy.score)
           (searchTerm : string) (a b : CompletedFormInfo) : Prop :=
  match fmatch searchTerm (label a), fmatch searchTerm (label b) with
  | Some sa, Some sb => Fuzzy.score_leb sa sb = true
  | _, _ => False
  end.

(** A result of the filter carries the score of its element. *)
Definition scored (fmatch : string -> string -> option Fuzzy.score)
           (searchTerm : string) (r : Fuzzy.result CompletedFormInfo) : Prop :=
  fmatch searchTerm (label (Fuzzy.r_original r)) = Some (Fuzzy.r_score r).

(** The elements of an optional array. *)
Definition elements (A : Type) (arr : option (list A)) : list A :=
  match arr with
  | Some l => l
  | None => []
  end.

(** A view with nothing in it. *)
Definition nothing_on_screen (v : View) : Prop :=
  v = EmptyFragment /\ view_table v = None /\ view_search v = None
  /\ view_sentinel v = None /\ view_endOfResults v = None.

(** Sample data for the instances below. *)
Definition sample_form (uuid display : string) : CompletedFormInfo :=
  {| form := {| form_uuid := uuid; form_name := uuid; form_display := Some display;
                form_published := true; form_retired := false; form_version := "1" |};
     associatedEncounters := [];
     lastCompletedDate := None |}.

Definition sample_forms : list CompletedFormInfo :=
  [sample_form "f1" "Vitals"; sample_form "f2" "Visit Note"; sample_form "f3" "vi";
   sample_form "f4" "Lab"; sample_form "f5" "Covid"].

Definition sample_date (d : Z) : string := EmptyString.

(** *** Bursts of input *)

(** Raw terms with the times they were typed at: each comes after the one
    before it, less than [w] later. *)
Fixpoint rapid (w : Z) (prev : Z) (burst : list (Z * string)) : Prop :=
  match burst with
  | [] => True
  | (t, _) :: rest => (prev <= t < prev + w)%Z /\ rapid w t rest
  end.

Definition client_inputs (burst : list (Z * string)) : list (Z * ClientList.Event) :=
  map (fun tv => (fst tv, ClientList.Input (snd tv))) burst.

Definition infinite_inputs (burst : list (Z * string)) : list (Z * InfiniteList.Event) :=
  map (fun tv => (fst tv, InfiniteList.Input (snd tv))) burst.

(** The entries of a log that commit a search term. *)
Definition is_search (P : Type) (entry : Z * Action P) : bool :=
  match snd entry with
  | LoadMore _ _ => false
  | OnSearch _ _ | SetSearchTerm _ => true
  end.

Definition search_log (s : InfiniteList.State) : list (Z * Action InfiniteList.Props) :=
  filter (@is_search _) (InfiniteList.log s).

Definition is_trailing (tm : InfiniteList.Timer) : bool :=
  match InfiniteList.tm_job tm with
  | InfiniteList.Trailing _ _ _ => true
  | _ => false
  end.

(** The debounced calls that are pending. *)
Definition trailing (s : InfiniteList.State) : list InfiniteList.Timer :=
  filter is_trailing (InfiniteList.timers s).

(** What a trailing call logs: [setSearchTerm(raw); onSearch?.(raw)]. *)
Definition trailing_entries (tm : InfiniteList.Timer)
  : list (Z * Action InfiniteList.Props) :=
  match InfiniteList.tm_job tm with
  | InfiniteList.Trailing _ p raw =>
      (InfiniteList.tm_due tm, SetSearchTerm raw)
      :: match InfiniteList.onSearch p with
         | Some f => [(InfiniteList.tm_due tm, OnSearch f raw)]
         | None => []
         end
  | _ => []
  end.

(** What a debounced commit of [raw] at [t] logs under props [p]. *)
Definition commit_entries (p : InfiniteList.Props) (t : Z) (raw : string)
  : list (Z * Action InfiniteList.Props) :=
  (t, SetSearchTerm raw)
  :: match InfiniteList.onSearch p with
     | Some f => [(t, OnSearch f raw)]
     | None => []
     end.

(** The timer is due at [now]. *)
Definition due_by (now : Z) (tm : InfiniteList.Timer) : bool :=
  (InfiniteList.tm_due tm <=? now)%Z.

(** The list is mounted with props [p], shows its table, and the table
    has the search handler [h]. *)
Definition table_with (h : SearchHandler) (p : InfiniteList.Props)
           (s : InfiniteList.State) : Prop :=
  InfiniteList.mounted s = Some p
  /\ InfiniteList.shows_table p = true
  /\ InfiniteList.table_handler p = h.

(** No debounced call is pending, and the timeout the cleanup of the
    re-check effect holds, if any, is one that was handed out before. *)
Definition settled (s : InfiniteList.State) : Prop :=
  trailing s = []
  /\ match InfiniteList.recheckCleanup s with
     | Some id => (id < InfiniteList.fresh s)%nat
     | None => True
     end.

(** Two states of the list with the same props, the same debounced
    function and the same ids handed out. *)
Definition same_setup (s s' : InfiniteList.State) : Prop :=
  InfiniteList.mounted s' = InfiniteList.mounted s
  /\ InfiniteList.debounced s' = InfiniteList.debounced s
  /\ InfiniteList.recheckCleanup s' = InfiniteList.recheckCleanup s
  /\ InfiniteList.fresh s' = InfiniteList.fresh s.

(** What the parent is told when every raw term goes straight to it. *)
Definition direct_entries (f : JS.Ref) (burst : list (Z * string))
  : list (Z * Action InfiniteList.Props) :=
  map (fun tv => (fst tv, OnSearch f (snd tv))) burst.


(** Sample props: an eager list, a list that scrolls and searches through
    its parent, and the same list with its own debounced search. *)
Definition sample_client_props : ClientList.Props :=
  {| ClientList.completedForms := Some sample_forms;
     ClientList.error := false;
     ClientList.sectionName := "forms";
     ClientList.totalForms := Some 5%nat |}.

Definition sample_server_props : InfiniteList.Props :=
  {| InfiniteList.completedForms := Some (InfiniteList.mkArr 1 sample_forms);
     InfiniteList.error := false;
     InfiniteList.sectionName := "forms";
     InfiniteList.onSearch := Some 7%nat;
     InfiniteList.isValidating := Some false;
     InfiniteList.loadMore := Some 9%nat;
     InfiniteList.hasMore := Some true;
     InfiniteList.isLoading := Some false;
     InfiniteList.totalLoaded := 5;
     InfiniteList.enableInfiniteScrolling := true |}.

Definition sample_eager_props : InfiniteList.Props :=
  {| InfiniteList.completedForms := Some (InfiniteList.mkArr 1 sample_forms);
     InfiniteList.error := false;
     InfiniteList.sectionName := "forms";
     InfiniteList.onSearch := Some 7%nat;
     InfiniteList.isValidating := Some false;
     InfiniteList.loadMore := None;
     InfiniteList.hasMore := Some false;
     InfiniteList.isLoading := Some false;
     InfiniteList.totalLoaded := 5;
     InfiniteList.enableInfiniteScrolling := false |}.

(** *** The guard of the continuation *)

(** The props pass the guard the three triggers share:
    [hasMore && !isValidating]. *)
Definition admits (p : InfiniteList.Props) : Prop :=
  JS.truthy (InfiniteList.hasMore p) = true
  /\ JS.truthy (InfiniteList.isValidating p) = false.

(** A logged call of [loadMore] was made by a closure whose props pass
    the guard, on the [loadMore] of these props. *)
Definition call_ok (entry : Z * Action InfiniteList.Props) : Prop :=
  match snd entry with
  | LoadMore f p => admits p /\ InfiniteList.loadMore p = Some f
  | _ => True
  end.

(** The re-check effect sets its timeout only under the guard. *)
Definition recheck_ok (tm : InfiniteList.Timer) : Prop :=
  match InfiniteList.tm_job tm with
  | InfiniteList.ForceCheck p => admits p
  | _ => True
  end.

Definition guarded (s : InfiniteList.State) : Prop :=
  Forall call_ok (InfiniteList.log s) /\ Forall recheck_ok (InfiniteList.timers s).

(** The load state the props stand for is Loading-initial. *)
Definition loading_initial (p : InfiniteList.Props) : Prop :=
  JS.truthy (InfiniteList.isLoading p) = true.

(** Sample props and measurements for the traces below: a page is being
    fetched; it has arrived and there is more; the first fetch is still
    on its way; everything is loaded. *)
Definition sample_validating_props : InfiniteList.Props :=
  {| InfiniteList.completedForms := Some (InfiniteList.mkArr 1 sample_forms);
     InfiniteList.error := false;
     InfiniteList.sectionName := "forms";
     InfiniteList.onSearch := Some 7%nat;
     InfiniteList.isValidating := Some true;
     InfiniteList.loadMore := Some 9%nat;
     InfiniteList.hasMore := Some true;
     InfiniteList.isLoading := Some false;
     InfiniteList.totalLoaded := 5;
     InfiniteList.enableInfiniteScrolling := true |}.

Definition sample_loading_props : InfiniteList.Props :=
  {| InfiniteList.completedForms := Some (InfiniteList.mkArr 1 sample_forms);
     InfiniteList.error := false;
     InfiniteList.sectionName := "forms";
     InfiniteList.onSearch := Some 7%nat;
     InfiniteList.isValidating := Some false;
     InfiniteList.loadMore := Some 9%nat;
     InfiniteList.hasMore := Some true;
     InfiniteList.isLoading := Some true;
     InfiniteList.totalLoaded := 5;
     InfiniteList.enableInfiniteScrolling := true |}.

Definition sample_exhausted_props : InfiniteList.Props :=
  {| InfiniteList.completedForms := Some (InfiniteList.mkArr 2 sample_forms);
     InfiniteList.error := false;
     InfiniteList.sectionName := "forms";
     InfiniteList.onSearch := Some 7%nat;
     InfiniteList.isValidating := Some false;
     InfiniteList.loadMore := Some 9%nat;
     InfiniteList.hasMore := Some false;
     InfiniteList.isLoading := Some false;
     InfiniteList.totalLoaded := 5;
     InfiniteList.enableInfiniteScrolling := true |}.

Definition sample_dom : InfiniteList.Dom :=
  {| InfiniteList.innerHeight := 800;
     InfiniteList.sentinelTop := 400;
     InfiniteList.containerHeight := Some 900%Z |}.

Definition sample_entry : InfiniteList.IntersectionObserverEntry :=
  {| InfiniteList.isIntersecting := true; InfiniteList.target := 0%nat |}.

(** The props a job closes over. *)
Definition job_closure (job : InfiniteList.Job) : InfiniteList.Props :=
  match job with
  | InfiniteList.RefCheck p _ => p
  | InfiniteList.ForceCheck p => p
  | InfiniteList.Trailing _ p _ => p
  end.

(** Every closure of the list closes over props that satisfy [R]: the
    props of the last render, those of the observers' callbacks, those of
    the timers, and those recorded with the calls of [loadMore]. *)
Definition closures_in (R : InfiniteList.Props -> Prop) (s : InfiniteList.State) : Prop :=
  (forall q, InfiniteList.mounted s = Some q -> R q)
  /\ Forall (fun ob => R (InfiniteList.obs_closure ob)) (InfiniteList.observers s)
  /\ Forall (fun tm => R (job_closure (InfiniteList.tm_job tm))) (InfiniteList.timers s)
  /\ Forall (fun entry => match snd entry with
                          | LoadMore _ p => R p
                          | _ => True
                          end) (InfiniteList.log s).

(** The list was rendered with props [p] in the course of the events. *)
Definition rendered_in (evs : list (Z * InfiniteList.Event)) (p : InfiniteList.Props) : Prop :=
  exists t, In (t, InfiniteList.Render p) evs.

(** *** The calls of [loadMore], by trigger *)

(** What makes the list call [loadMore]: the callback of the observer,
    the check that [setLoadMoreRef] schedules, or the re-check effect. *)
Inductive Trigger : Type :=
| ByIntersection
| ByCallbackRef
| ByRecheck.

(** A call of [loadMore]: what made it, when, on which function, and the
    props of the last render at that moment. These props are all the list
    knows of the load state when the call is made. *)
Record Admission : Type := mkAdmission {
  adm_trigger : Trigger;
  adm_time : Z;
  adm_fn : JS.Ref;
  adm_current : option InfiniteList.Props
}.

(** The calls of [loadMore] among the entries of a log. *)
Definition calls_in (l : list (Z * Action InfiniteList.Props)) : list (Z * JS.Ref) :=
  flat_map (fun entry => match snd entry with
                         | LoadMore f _ => [(fst entry, f)]
                         | _ => []
                         end) l.

(** The calls a step logged, from the state [before] it to the state
    [after] it. *)
Definition admitted (trigger : Trigger) (before after : InfiniteList.State)
  : list Admission :=
  map (fun call => mkAdmission trigger (fst call) (snd call) (InfiniteList.mounted before))
      (calls_in (skipn (List.length (InfiniteList.log before)) (InfiniteList.log after))).

Definition job_trigger (job : InfiniteList.Job) : option Trigger :=
  match job with
  | InfiniteList.RefCheck _ _ => Some ByCallbackRef
  | InfiniteList.ForceCheck _ => Some ByRecheck
  | InfiniteList.Trailing _ _ _ => None
  end.

(** The calls the timers [ds] make when they fire one after the other. *)
Fixpoint audit_timers (ds : list InfiniteList.Timer) (s : InfiniteList.State)
  : list Admission :=
  match ds with
  | [] => []
  | tm :: rest =>
      match job_trigger (InfiniteList.tm_job tm) with
      | Some trigger => admitted trigger s (InfiniteList.fire tm s)
      | None => []
      end ++ audit_timers rest (InfiniteList.fire tm s)
  end.

(** The calls made while time passes up to [now], as [advance] fires the
    timers. *)
Definition audit_advance (now : Z) (s : InfiniteList.State) : list Admission :=
  audit_timers (due_now InfiniteList.tm_due now (InfiniteList.timers s))
               (InfiniteList.with_timers
                  (due_later InfiniteList.tm_due now (InfiniteList.timers s)) s).

Definition audit_handle (t : Z) (e : InfiniteList.Event) (s : InfiniteList.State)
  : list Admission :=
  match e with
  | InfiniteList.Intersect _ _ _ => admitted ByIntersection s (InfiniteList.handle t e s)
  | _ => []
  end.

(** The calls made in the course of the events, as [run] goes through
    them, and up to [horizon] after them. *)
Fixpoint audit (evs : list (Z * InfiniteList.Event)) (s : InfiniteList.State)
  : list Admission :=
  match evs with
  | [] => []
  | (t, e) :: rest =>
      audit_advance t s
      ++ audit_handle t e (InfiniteList.advance t s)
      ++ audit rest (InfiniteList.handle t e (InfiniteList.advance t s))
  end.

Definition audit_until (horizon : Z) (evs : list (Z * InfiniteList.Event))
           (s : InfiniteList.State) : list Admission :=
  audit evs s ++ audit_advance horizon (InfiniteList.run evs s).

(** The call was made while the props of the last render had [hasMore]
    set and [isValidating] not set, on the [loadMore] of these props. *)
Definition under_current_guard (a : Admission) : Prop :=
  exists q,
    adm_current a = Some q
    /\ JS.truthy (InfiniteList.hasMore q) = true
    /\ JS.truthy (InfiniteList.isValidating q) = false
    /\ InfiniteList.loadMore q = Some (adm_fn a).

(** The call as [loadMore_calls] lists it. *)
Definition call_of (a : Admission) : Z * JS.Ref := (adm_time a, adm_fn a).

(* ===================================================================== *)
(** ** Lists inside a dashboard *)
(* ===================================================================== *)

(** The parameter list of the list with infinite scrolling, applied to
    the attributes a dashboard gives it: [sectionName = 'forms'],
    [totalLoaded = 0] and [enableInfiniteScrolling = false] are the
    defaults. [ref] is the identity of the array of forms. *)
Definition list_props (ref : JS.Ref) (a : Dashboard.ListAttributes) : InfiniteList.Props :=
  {| InfiniteList.completedForms :=
       option_map (InfiniteList.mkArr ref) (Dashboard.a_completedForms a);
     InfiniteList.error := Dashboard.a_error a;
     InfiniteList.sectionName :=
       match Dashboard.a_sectionName a with
       | Some n => n
       | None => "forms"
       end;
     InfiniteList.onSearch := Some (Dashboard.a_onSearch a);
     InfiniteList.isValidating := Dashboard.a_isValidating a;
     InfiniteList.loadMore := Dashboard.a_loadMore a;
     InfiniteList.hasMore := Dashboard.a_hasMore a;
     InfiniteList.isLoading := Dashboard.a_isLoading a;
     InfiniteList.totalLoaded :=
       match Dashboard.a_totalLoaded a with
       | Some n => n
       | None => 0%nat
       end;
     InfiniteList.enableInfiniteScrolling :=
       match Dashboard.a_enableInfiniteScrolling a with
       | Some b => b
       | None => false
       end |}.

(** The form is listed in the section, by its uuid or by its name. *)
Definition listed (c : Dashboard.FormSection) (f : CompletedFormInfo) : Prop :=
  In (form_uuid (form f)) (Dashboard.fs_forms c)
  \/ In (form_name (form f)) (Dashboard.fs_forms c).

(** Sample configuration for the instances of the dashboards. *)
Definition sample_sections : list Dashboard.FormSection :=
  [Dashboard.mkFormSection "Triage" ["f1"; "f4"]%string;
   Dashboard.mkFormSection "RFE Forms" ["f9"]%string].

Definition sample_config : Dashboard.ConfigObject :=
  {| Dashboard.formSections := Some sample_sections;
     Dashboard.enableInfiniteScrolling := Some true |}.

Definition sample_regular : Dashboard.FormsResult :=
  {| Dashboard.data := Some sample_forms;
     Dashboard.allForms := Some sample_forms;
     Dashboard.error := false;
     Dashboard.isValidating := Some false;
     Dashboard.totalCount := Some 5%nat |}.

Definition sample_infinite : Dashboard.InfiniteFormsResult :=
  {| Dashboard.i_data := Some sample_forms;
     Dashboard.i_allForms := Some sample_forms;
     Dashboard.i_error := false;
     Dashboard.i_isValidating := Some false;
     Dashboard.i_loadMore := Some 9%nat;
     Dashboard.i_hasMore := Some true;
     Dashboard.i_isLoading := Some false;
     Dashboard.i_totalLoaded := Some 5%nat |}.

(* ===================================================================== *)
(** ** Raw terms and quiet intervals *)
(* ===================================================================== *)

(** The raw terms of a sequence of inputs that are followed by a quiet
    interval [w]: those whose successor comes no earlier than [w] after
    them, and the last one if time runs on to [w] after it. Each comes
    with the time at which its interval is over. *)
Fixpoint quiet_terms (w horizon : Z) (inputs : list (Z * string)) : list (Z * string) :=
  match inputs with
  | [] => []
  | (t, v) :: rest =>
      let next := match rest with
                  | [] => horizon
                  | (t', _) :: _ => t'
                  end in
      (if (t + w <=? next)%Z then [((t + w)%Z, v)] else []) ++ quiet_terms w horizon rest
  end.

(* ===================================================================== *)
(** ** Where continuation calls come from *)
(* ===================================================================== *)

(** The props a job of the continuation closes over; the debounced call
    has none. *)
Definition continuation_closure (job : InfiniteList.Job) : option InfiniteList.Props :=
  match job with
  | InfiniteList.RefCheck p _ => Some p
  | InfiniteList.ForceCheck p => Some p
  | InfiniteList.Trailing _ _ _ => None
  end.

(** Every observer, every check that is pending and every call of
    [loadMore] so far belongs to a render with infinite scrolling on. *)
Definition scrolling_only (s : InfiniteList.State) : Prop :=
  Forall (fun ob => InfiniteList.enableInfiniteScrolling (InfiniteList.obs_closure ob) = true)
         (InfiniteList.observers s)
  /\ Forall (fun tm => forall p, continuation_closure (InfiniteList.tm_job tm) = Some p ->
                                 InfiniteList.enableInfiniteScrolling p = true)
            (InfiniteList.timers s)
  /\ Forall (fun entry => match snd entry with
                          | LoadMore _ p => InfiniteList.enableInfiniteScrolling p = true
                          | _ => True
                          end) (InfiniteList.log s).

(* ===================================================================== *)
(** ** The timeout of the re-check effect *)
(* ===================================================================== *)

(** The ids of the timers are distinct and were handed out before, and
    every pending timeout of the re-check effect is the one its cleanup
    holds, set under dependencies equal to those of the props [cur]. *)
Definition recheck_current (cur : option InfiniteList.Props) (s : InfiniteList.State) : Prop :=
  Forall (fun tm => (InfiniteList.tm_id tm < InfiniteList.fresh s)%nat) (InfiniteList.timers s)
  /\ NoDup (map InfiniteList.tm_id (InfiniteList.timers s))
  /\ forall tm p,
      In tm (InfiniteList.timers s) ->
      InfiniteList.tm_job tm = InfiniteList.ForceCheck p ->
      InfiniteList.recheckCleanup s = Some (InfiniteList.tm_id tm)
      /\ exists q, cur = Some q /\ InfiniteList.same_recheck_deps p q = true.

(* ===================================================================== *)
(** ** The observer that watches the trigger *)
(* ===================================================================== *)

(** The observer effect of a render with props [p] goes past its early
    return. *)
Definition sets_observer (p : InfiniteList.Props) : Prop :=
  InfiniteList.enableInfiniteScrolling p = true /\ InfiniteList.loadMore p <> None.

(** No observer but that of [observerRef] has a target, and that one has
    its cleanup registered and was made under guard values equal to those
    of the props [cur]. *)
Definition watching (cur : option InfiniteList.Props) (s : InfiniteList.State) : Prop :=
  (forall o ob,
      nth_error (InfiniteList.observers s) o = Some ob ->
      InfiniteList.obs_targets ob <> [] ->
      InfiniteList.observerRef s = Some o)
  /\ (forall o,
         InfiniteList.observerRef s = Some o ->
         InfiniteList.observerCleanup s = true
         /\ exists ob q,
             nth_error (InfiniteList.observers s) o = Some ob
             /\ cur = Some q
             /\ InfiniteList.same_guard_deps (InfiniteList.obs_closure ob) q = true).

(** No observer has a target. *)
Definition idle (s : InfiniteList.State) : Prop :=
  forall o ob,
    nth_error (InfiniteList.observers s) o = Some ob -> InfiniteList.obs_targets ob = [].

(** What the trigger is wired to: the observers, the two refs, the
    trigger element in the document, whether the observer effect left a
    cleanup, and the props of the last render. *)
Definition wiring (s : InfiniteList.State)
  : list InfiniteList.Observer * option nat * option Node * option Node * bool
    * option InfiniteList.Props :=
  (InfiniteList.observers s, InfiniteList.observerRef s, InfiniteList.loadMoreRef s,
   InfiniteList.sentinel s, InfiniteList.observerCleanup s, InfiniteList.mounted s).

(* ===================================================================== *)
(** ** A dashboard in client mode *)
(* ===================================================================== *)





(* ===================================================================== *)
(** ** Sorting *)
(* ===================================================================== *)

Section SortFacts.
Variable A : Type.
Variable cmp : A -> A -> JS.number.

Lemma insert_perm (x : A) (l : list A) : Permutation (JS.insert cmp x l) (x :: l).
Proof.
  induction l as [|y ys IH]; simpl.
  - apply Permutation_refl.
  - destruct (JS.positive (cmp x y)).
    + eapply perm_trans; [apply perm_skip, IH | apply perm_swap].
    + apply Permutation_refl.
Qed.

Lemma sort_perm (l : list A) : Permutation (JS.sort cmp l) l.
Proof.
  induction l as [|x xs IH]; simpl.
  - constructor.
  - eapply perm_trans; [apply insert_perm | apply perm_skip, IH].
Qed.

(** A comparator that is positive exactly when its first argument is
    strictly above the second in a total preorder. *)
Variable leb : A -> A -> bool.
Hypothesis leb_total : forall x y, leb x y = false -> leb y x = true.
Hypothesis leb_trans : forall x y z, leb x y = true -> leb y z = true -> leb x z = true.
Hypothesis cmp_leb : forall x y, JS.positive (cmp x y) = negb (leb x y).

Lemma insert_sorted (x : A) (l : list A) :
  StronglySorted (fun a b => leb a b = true) l ->
  StronglySorted (fun a b => leb a b = true) (JS.insert cmp x l).
Proof.
  induction 1 as [|y ys Hs IH Hy]; simpl.
  - repeat constructor.
  - rewrite cmp_leb. destruct (leb x y) eqn:E; simpl.
    + constructor; [constructor; assumption|].
      constructor; [exact E|].
      eapply Forall_impl; [|exact Hy].
      intros z Hz. eapply leb_trans; eassumption.
    + constructor; [exact IH|].
      apply (Permutation_Forall (Permutation_sym (insert_perm x ys))).
      constructor; [apply leb_total; exact E | exact Hy].
Qed.

Lemma sort_sorted (l : list A) :
  StronglySorted (fun a b => leb a b = true) (JS.sort cmp l).
Proof.
  induction l as [|x xs IH]; simpl.
  - constructor.
  - apply insert_sorted, IH.
Qed.
End SortFacts.

(* ===================================================================== *)
(** ** The fuzzy filter *)
(* ===================================================================== *)

Section FilterFacts.
Variable fmatch : string -> string -> option Fuzzy.score.
Variable searchTerm : string.

Lemma collect_scored (l : list CompletedFormInfo) (idx : nat) :
  Forall (scored fmatch searchTerm) (Fuzzy.collect fmatch searchTerm label idx l).
Proof.
  revert idx. induction l as [|x xs IH]; intros idx; simpl.
  - constructor.
  - destruct (fmatch searchTerm (label x)) eqn:E.
    + constructor; [exact E | apply IH].
    + apply IH.
Qed.

Lemma collect_originals (l : list CompletedFormInfo) (idx : nat) :
  map (@Fuzzy.r_original _) (Fuzzy.collect fmatch searchTerm label idx l)
  = filter (has_match fmatch searchTerm) l.
Proof.
  revert idx. induction l as [|x xs IH]; intros idx; simpl.
  - reflexivity.
  - unfold has_match at 1. destruct (fmatch searchTerm (label x)); simpl.
    + f_equal. apply IH.
    + apply IH.
Qed.

Lemma score_leb_total (a b : Fuzzy.score) :
  Fuzzy.score_leb a b = false -> Fuzzy.score_leb b a = true.
Proof. destruct a, b; simpl; intros H; try reflexivity; try discriminate; lia. Qed.

Lemma score_leb_trans (a b c : Fuzzy.score) :
  Fuzzy.score_leb a b = true -> Fuzzy.score_leb b c = true -> Fuzzy.score_leb a c = true.
Proof. destruct a, b, c; simpl; intros; try reflexivity; try discriminate; lia. Qed.

Lemma by_score_asc_positive (r1 r2 : Fuzzy.result CompletedFormInfo) :
  JS.positive (by_score_asc r1 r2)
  = negb (Fuzzy.score_leb (Fuzzy.r_score r1) (Fuzzy.r_score r2)).
Proof.
  unfold by_score_asc.
  destruct (Fuzzy.r_score r1), (Fuzzy.r_score r2); simpl; try reflexivity.
  destruct (z <=? z0)%Z eqn:E; simpl; lia.
Qed.

Lemma sorted_originals (rs : list (Fuzzy.result CompletedFormInfo)) :
  Forall (scored fmatch searchTerm) rs ->
  StronglySorted (fun r1 r2 => Fuzzy.score_leb (Fuzzy.r_score r1) (Fuzzy.r_score r2) = true) rs ->
  StronglySorted (ascending fmatch searchTerm) (map (@Fuzzy.r_original _) rs).
Proof.
  intros Hsc Hs. induction Hs as [|r rs Hs IH Hr]; simpl.
  - constructor.
  - inversion Hsc as [|? ? Hr0 Hrs]; subst.
    constructor; [apply IH; assumption|].
    rewrite Forall_map. rewrite Forall_forall in *.
    intros r' Hin. unfold ascending.
    rewrite Hr0, (Hrs r' Hin). apply Hr, Hin.
Qed.

Lemma fuzzy_ranked_only_matches (arr : option (list CompletedFormInfo)) :
  Forall (fun item => fmatch searchTerm (label item) <> None)
         (fuzzy_ranked fmatch searchTerm arr).
Proof.
  unfold fuzzy_ranked. rewrite Forall_map.
  apply (Permutation_Forall (Permutation_sym (sort_perm _ _))).
  unfold Fuzzy.filter. destruct arr as [l|]; [|constructor].
  apply (Permutation_Forall (Permutation_sym (sort_perm _ _))).
  eapply Forall_impl; [|apply collect_scored].
  intros r Hr. unfold scored in Hr. rewrite Hr. discriminate.
Qed.

Lemma fuzzy_ranked_sorted (arr : option (list CompletedFormInfo)) :
  StronglySorted (ascending fmatch searchTerm) (fuzzy_ranked fmatch searchTerm arr).
Proof.
  unfold fuzzy_ranked. apply sorted_originals.
  - apply (Permutation_Forall (Permutation_sym (sort_perm _ _))).
    unfold Fuzzy.filter. destruct arr as [l|]; [|constructor].
    apply (Permutation_Forall (Permutation_sym (sort_perm _ _))).
    apply collect_scored.
  - apply sort_sorted with
      (leb := fun r1 r2 => Fuzzy.score_leb (Fuzzy.r_score r1) (Fuzzy.r_score r2)).
    + intros x y. apply score_leb_total.
    + intros x y z. apply score_leb_trans.
    + apply by_score_asc_positive.
Qed.

Lemma fuzzy_ranked_perm (arr : option (list CompletedFormInfo)) :
  Permutation (fuzzy_ranked fmatch searchTerm arr)
              (filter (has_match fmatch searchTerm) (elements arr)).
Proof.
  unfold fuzzy_ranked, Fuzzy.filter. destruct arr as [l|]; simpl; [|constructor].
  rewrite <- (collect_originals l 0).
  apply Permutation_map.
  eapply perm_trans; apply sort_perm.
Qed.
End FilterFacts.

(** C6. Client-mode filtering. With the empty term the list shows the
    forms it was given, unchanged and in their order. With any other term
    it shows exactly the forms whose label has a match, each once for each
    time it was given, in ascending order of their scores. The list with
    infinite scrolling filters in the same way whenever it does not leave
    the search to its parent. *)
Theorem client_filtering :
  forall (fmatch : string -> string -> option Fuzzy.score)
         (completedForms : option (list CompletedFormInfo)),
    ClientList.filteredForms fmatch "" completedForms = completedForms
    /\ (forall searchTerm : string,
           searchTerm <> ""%string ->
           exists out,
             ClientList.filteredForms fmatch searchTerm completedForms = Some out
             /\ Forall (fun item => fmatch searchTerm (label item) <> None) out
             /\ StronglySorted (ascending fmatch searchTerm) out
             /\ Permutation out (filter (has_match fmatch searchTerm)
                                        (elements completedForms)))
    /\ (forall (searchTerm : string) (p : InfiniteList.Props),
           InfiniteList.items p = completedForms ->
           InfiniteList.enableInfiniteScrolling p
           && is_defined (InfiniteList.onSearch p) = false ->
           InfiniteList.filteredForms fmatch searchTerm p
           = ClientList.filteredForms fmatch searchTerm completedForms).
Proof.
  intros fmatch completedForms. split; [reflexivity|]. split.
  - intros searchTerm Hne.
    exists (fuzzy_ranked fmatch searchTerm completedForms).
    split.
    + unfold ClientList.filteredForms.
      destruct searchTerm; [contradiction Hne; reflexivity | reflexivity].
    + split; [apply fuzzy_ranked_only_matches|].
      split; [apply fuzzy_ranked_sorted | apply fuzzy_ranked_perm].
  - intros searchTerm p Hitems Hmode.
    unfold InfiniteList.filteredForms, ClientList.filteredForms.
    rewrite Hmode, Hitems. reflexivity.
Qed.

Lemma client_filtering_witness :
  exists out,
    ClientList.filteredForms Fuzzy.fuzzy_match "vi" (Some sample_forms) = Some out
    /\ map label out = ["Vitals"; "Visit Note"; "Covid"; "vi"]%string
    /\ StronglySorted (ascending Fuzzy.fuzzy_match "vi") out.
Proof.
  destruct (client_filtering Fuzzy.fuzzy_match (Some sample_forms)) as [_ [H _]].
  destruct (H "vi"%string) as [out [Hout [_ [Hs _]]]]; [discriminate|].
  exists out. split; [exact Hout|]. split; [|exact Hs].
  vm_compute in Hout. injection Hout as <-. reflexivity.
Defined.

(* ===================================================================== *)
(** ** What the lists and the dashboards render *)
(* ===================================================================== *)

(** C10. A list that is given an empty array of forms renders an empty
    fragment: no table, no search input, no load-more trigger and no
    end-of-results line. For the list with infinite scrolling this holds
    when [isLoading] is not set, whatever [hasMore] and [totalLoaded]
    are. *)
Theorem empty_array_renders_nothing :
  (forall fmatch formatDatetime searchTerm (p : ClientList.Props),
      ClientList.completedForms p = Some [] ->
      nothing_on_screen (ClientList.render fmatch formatDatetime searchTerm p))
  /\ (forall fmatch formatDatetime searchTerm (p : InfiniteList.Props),
         InfiniteList.items p = Some [] ->
         JS.truthy (InfiniteList.isLoading p) = false ->
         nothing_on_screen (InfiniteList.render fmatch formatDatetime searchTerm p)).
Proof.
  split.
  - intros fmatch fmt term p H.
    unfold ClientList.render, ClientList.shows_skeleton, ClientList.shows_nothing.
    rewrite H. simpl. repeat split.
  - intros fmatch fmt term p H Hl.
    unfold InfiniteList.render, InfiniteList.shows_skeleton, InfiniteList.shows_nothing.
    rewrite H, Hl.
    unfold InfiniteList.items in H.
    destruct (InfiniteList.completedForms p); [|discriminate].
    simpl. repeat split.
Qed.

Lemma empty_array_renders_nothing_witness :
  nothing_on_screen
    (ClientList.render Fuzzy.fuzzy_match sample_date "vi"
       (ClientList.mkProps (Some []) false "forms" (Some 3%nat)))
  /\ nothing_on_screen
       (InfiniteList.render Fuzzy.fuzzy_match sample_date "vi"
          (InfiniteList.mkProps (Some (InfiniteList.mkArr 1 [])) false "forms" (Some 7%nat)
             (Some true) (Some 9%nat) (Some true) (Some false) 47 true)).
Proof.
  split.
  - apply (proj1 empty_array_renders_nothing). reflexivity.
  - apply (proj2 empty_array_renders_nothing); reflexivity.
Defined.

(** C9. With forms loaded and at least one of them, a dashboard renders
    only if [formSections] is configured: the sections are computed with
    an optional chain, their length is read without one, and with no
    [formSections] the render ends in a [TypeError]. Both dashboards go
    through this branch. *)
Theorem loaded_forms_need_formSections :
  forall (config : Dashboard.ConfigObject) (first : CompletedFormInfo)
         (others : list CompletedFormInfo),
    (forall (Child : Type) (single : Child) (of_section : Dashboard.Section_ -> Child),
        (exists v, Dashboard.layout config (Some (first :: others)) single of_section
                   = Dashboard.Rendered v)
        <-> Dashboard.formSections config <> None)
    /\ (forall r : Dashboard.FormsResult,
           Dashboard.data r = Some (first :: others) ->
           Dashboard.formSections config = None ->
           Dashboard.render_paged config r = Dashboard.TypeError)
    /\ (forall prop handleSearch infinite regular,
           Dashboard.i_data (Dashboard.chosen prop config infinite regular)
           = Some (first :: others) ->
           Dashboard.formSections config = None ->
           Dashboard.render_infinite prop config handleSearch infinite regular
           = Dashboard.TypeError).
Proof.
  intros config first others. split; [|split].
  - intros Child single of_section.
    unfold Dashboard.layout, Dashboard.sections. simpl.
    destruct (Dashboard.formSections config) as [secs|]; simpl.
    + split; [discriminate|]. intros _.
      destruct secs; simpl; eexists; reflexivity.
    + split; [intros [v Hv]; discriminate | intros H; contradiction H; reflexivity].
  - intros r Hd Hc. unfold Dashboard.render_paged, Dashboard.layout, Dashboard.sections.
    rewrite Hd, Hc. reflexivity.
  - intros prop handleSearch infinite regular Hd Hc.
    unfold Dashboard.render_infinite, Dashboard.layout, Dashboard.sections.
    rewrite Hd, Hc. reflexivity.
Qed.

Lemma loaded_forms_need_formSections_witness :
  Dashboard.render_paged
    (Dashboard.mkConfig None None)
    (Dashboard.mkFormsResult (Some sample_forms) (Some sample_forms) false (Some false) (Some 5%nat))
  = Dashboard.TypeError
  /\ Dashboard.render_infinite (Some true)
       (Dashboard.mkConfig None None) 7%nat
       (Dashboard.mkInfiniteResult (Some sample_forms) (Some sample_forms) false (Some false)
          (Some 9%nat) (Some true) (Some false) (Some 5%nat))
       (Dashboard.mkFormsResult None None false None None)
     = Dashboard.TypeError.
Proof.
  destruct (loaded_forms_need_formSections (Dashboard.mkConfig None None)
              (sample_form "f1" "Vitals") (tl sample_forms)) as [_ [Hp Hi]].
  split.
  - apply Hp; reflexivity.
  - apply Hi; reflexivity.
Defined.

(* ===================================================================== *)
(** ** The debounced search *)
(* ===================================================================== *)

Unset Implicit Arguments.

Lemma last_default (A : Type) (l : list A) (a d d' : A) :
  last (a :: l) d = last (a :: l) d'.
Proof.
  revert a. induction l as [|b l IH]; intros a; [reflexivity|].
  change (last (b :: l) d = last (b :: l) d'). apply IH.
Qed.

Lemma last_step (A : Type) (l : list A) (a d : A) :
  last (a :: l) d = last l a.
Proof.
  destruct l as [|b l]; [reflexivity|].
  change (last (b :: l) d = last (b :: l) a). apply last_default.
Qed.

(** *** The eager list *)

Lemma client_advance_early (s : ClientList.State) (now due : Z) (raw : string) :
  ClientList.pending s = Some (due, raw) -> (now < due)%Z -> ClientList.advance now s = s.
Proof.
  intros Hp Hlt. unfold ClientList.advance. rewrite Hp.
  destruct (due <=? now)%Z eqn:E; [lia | reflexivity].
Qed.

Lemma client_advance_idle (s : ClientList.State) (now : Z) :
  ClientList.pending s = None -> ClientList.advance now s = s.
Proof. intros Hp. unfold ClientList.advance. rewrite Hp. reflexivity. Qed.

(** While the terms keep coming, nothing is committed and the last one
    is the one that waits. *)
Lemma client_burst (rest : list (Z * string)) :
  forall (s : ClientList.State) (t : Z) (v : string),
    ClientList.table_on_screen s = true ->
    ClientList.pending s = Some ((t + ClientList.wait)%Z, v) ->
    rapid ClientList.wait t rest ->
    let s' := ClientList.run (client_inputs rest) s in
    ClientList.table_on_screen s' = true
    /\ ClientList.mounted s' = ClientList.mounted s
    /\ ClientList.log s' = ClientList.log s
    /\ ClientList.pending s'
       = Some ((fst (last rest (t, v)) + ClientList.wait)%Z, snd (last rest (t, v))).
Proof.
  induction rest as [|[t' v'] rest IH]; intros s t v Hon Hp Hr.
  - simpl. auto.
  - destruct Hr as [Hlt Hr]. cbn [client_inputs map ClientList.run fst snd].
    rewrite (client_advance_early s t' _ _ Hp) by lia.
    unfold ClientList.handle. rewrite Hon.
    match goal with |- context [ClientList.run _ ?st] => set (s1 := st) end.
    destruct (IH s1 t' v') as [H1 [H2 [H3 H4]]]; try assumption; try reflexivity.
    fold (client_inputs rest).
    rewrite (last_step _ rest (t', v') (t, v)).
    repeat split; assumption.
Qed.

Lemma client_first_input (s : ClientList.State) (t : Z) (v : string) :
  ClientList.table_on_screen s = true ->
  ClientList.pending s = None ->
  let s' := ClientList.handle t (ClientList.Input v) (ClientList.advance t s) in
  ClientList.table_on_screen s' = true
  /\ ClientList.mounted s' = ClientList.mounted s
  /\ ClientList.log s' = ClientList.log s
  /\ ClientList.pending s' = Some ((t + ClientList.wait)%Z, v).
Proof.
  intros Hon Hp. rewrite (client_advance_idle _ _ Hp).
  unfold ClientList.handle. rewrite Hon. repeat split; assumption.
Qed.

Lemma client_run_app (a b : list (Z * ClientList.Event)) (s : ClientList.State) :
  ClientList.run (a ++ b) s = ClientList.run b (ClientList.run a s).
Proof.
  revert s. induction a as [|[t e] a IH]; intros s; simpl; [reflexivity | apply IH].
Qed.

(** The state a burst leaves behind: nothing committed yet, the last term
    waiting. *)
Lemma client_after_burst (s : ClientList.State) (t : Z) (v : string)
      (rest : list (Z * string)) :
  ClientList.table_on_screen s = true ->
  ClientList.pending s = None ->
  rapid ClientList.wait t rest ->
  let s' := ClientList.run (client_inputs ((t, v) :: rest)) s in
  ClientList.mounted s' = ClientList.mounted s
  /\ ClientList.log s' = ClientList.log s
  /\ ClientList.pending s'
     = Some ((fst (last rest (t, v)) + ClientList.wait)%Z, snd (last rest (t, v))).
Proof.
  intros Hon Hp Hr.
  cbn [client_inputs map ClientList.run fst snd].
  destruct (client_first_input s t v Hon Hp) as [H1 [H2 [H3 H4]]].
  match goal with |- context [ClientList.run (map _ rest) ?st] => set (s1 := st) in * end.
  destruct (client_burst rest s1 t v H1 H4 Hr) as [G1 [G2 [G3 G4]]].
  fold (client_inputs rest).
  rewrite G2, G3, G4, H2, H3. auto.
Qed.

(** *** The list with infinite scrolling *)

Section OneSpeaks.
Variable T B : Type.
Variable cmp : T -> T -> JS.number.
Variable speaks : T -> bool.
Variable g : T -> list B.
Hypothesis silent : forall x, speaks x = false -> g x = [].

Lemma flat_map_silent (l : list T) :
  filter speaks l = [] -> flat_map g l = [].
Proof.
  induction l as [|x xs IH]; simpl; [reflexivity|].
  destruct (speaks x) eqn:E; [discriminate|].
  intros H. rewrite (silent x E), (IH H). reflexivity.
Qed.

Lemma flat_map_speakers (l : list T) :
  flat_map g l = flat_map g (filter speaks l).
Proof.
  induction l as [|x xs IH]; simpl; [reflexivity|].
  destruct (speaks x) eqn:E; simpl.
  - rewrite IH. reflexivity.
  - rewrite (silent x E). exact IH.
Qed.

Lemma insert_silent (x : T) (l : list T) :
  speaks x = false -> flat_map g (JS.insert cmp x l) = flat_map g l.
Proof.
  intros E. induction l as [|y ys IH]; simpl.
  - rewrite (silent x E). reflexivity.
  - destruct (JS.positive (cmp x y)); simpl.
    + rewrite IH. reflexivity.
    + rewrite (silent x E). reflexivity.
Qed.

Lemma insert_among_silent (x : T) (l : list T) :
  filter speaks l = [] -> flat_map g (JS.insert cmp x l) = g x.
Proof.
  induction l as [|y ys IH]; simpl.
  - intros _. apply app_nil_r.
  - destruct (speaks y) eqn:E; [discriminate|]. intros H.
    destruct (JS.positive (cmp x y)); simpl.
    + rewrite (silent y E), (IH H). reflexivity.
    + rewrite (silent y E), (flat_map_silent ys H). simpl. apply app_nil_r.
Qed.

Lemma filter_insert_silent (x : T) (l : list T) :
  speaks x = false -> filter speaks (JS.insert cmp x l) = filter speaks l.
Proof.
  intros E. induction l as [|y ys IH]; simpl.
  - rewrite E. reflexivity.
  - destruct (JS.positive (cmp x y)); simpl.
    + rewrite IH. reflexivity.
    + rewrite E. reflexivity.
Qed.

Lemma sort_silent (l : list T) :
  filter speaks l = [] -> filter speaks (JS.sort cmp l) = [].
Proof.
  induction l as [|x xs IH]; simpl; [reflexivity|].
  destruct (speaks x) eqn:E; [discriminate|]. intros H.
  rewrite (filter_insert_silent _ _ E). apply IH, H.
Qed.

(** Sorting does not change what is said when at most one element
    speaks. *)
Lemma sort_one_speaker (l : list T) :
  (List.length (filter speaks l) <= 1)%nat ->
  flat_map g (JS.sort cmp l) = flat_map g l.
Proof.
  induction l as [|x xs IH]; simpl; [reflexivity|].
  destruct (speaks x) eqn:E; simpl; intros H.
  - assert (Hs : filter speaks xs = []).
    { destruct (filter speaks xs); [reflexivity | simpl in H; lia]. }
    rewrite (insert_among_silent _ _ (sort_silent _ Hs)).
    rewrite (flat_map_silent _ Hs). symmetry. apply app_nil_r.
  - rewrite (insert_silent _ _ E), (silent x E). apply IH, H.
Qed.
End OneSpeaks.

Lemma filter_swap (A : Type) (f g : A -> bool) (l : list A) :
  filter f (filter g l) = filter g (filter f l).
Proof.
  induction l as [|x xs IH]; simpl; [reflexivity|].
  destruct (f x) eqn:F, (g x) eqn:G; simpl; rewrite ?F, ?G, IH; reflexivity.
Qed.

Lemma trailing_entries_silent (tm : InfiniteList.Timer) :
  is_trailing tm = false -> trailing_entries tm = [].
Proof.
  unfold is_trailing, trailing_entries.
  destruct (InfiniteList.tm_job tm); [reflexivity | reflexivity | discriminate].
Qed.

(** A timer that fires leaves the timers and the props alone; only a
    trailing call adds to the search log. *)
Lemma fire_frame (tm : InfiniteList.Timer) (s : InfiniteList.State) :
  InfiniteList.timers (InfiniteList.fire tm s) = InfiniteList.timers s
  /\ same_setup s (InfiniteList.fire tm s)
  /\ search_log (InfiniteList.fire tm s) = search_log s ++ trailing_entries tm.
Proof.
  unfold InfiniteList.fire, trailing_entries, search_log, same_setup.
  destruct (InfiniteList.tm_job tm) as [p n | p | inst p raw].
  - destruct (_ && _ && _); [|rewrite app_nil_r; auto 6].
    unfold InfiniteList.call_loadMore.
    destruct (InfiniteList.loadMore p); simpl; rewrite ?filter_app, ?app_nil_r; auto 6.
  - destruct (InfiniteList.containerHeight _); [|rewrite app_nil_r; auto 6].
    destruct (InfiniteList.shouldLoadMore _ _ _); [|rewrite app_nil_r; auto 6].
    unfold InfiniteList.call_loadMore.
    destruct (InfiniteList.loadMore p); simpl; rewrite ?filter_app, ?app_nil_r; auto 6.
  - destruct (InfiniteList.onSearch p), (InfiniteList.alive inst s);
      simpl; rewrite ?filter_app; simpl; rewrite <- ?app_assoc; auto 6.
Qed.

Lemma same_setup_refl (s : InfiniteList.State) : same_setup s s.
Proof. unfold same_setup. auto. Qed.

Lemma same_setup_trans (a b c : InfiniteList.State) :
  same_setup a b -> same_setup b c -> same_setup a c.
Proof.
  unfold same_setup. intros [A1 [A2 [A3 A4]]] [B1 [B2 [B3 B4]]].
  rewrite B1, B2, B3, B4. auto.
Qed.

Lemma fold_fire_frame (ds : list InfiniteList.Timer) :
  forall s : InfiniteList.State,
    let s' := fold_left (fun st tm => InfiniteList.fire tm st) ds s in
    InfiniteList.timers s' = InfiniteList.timers s
    /\ same_setup s s'
    /\ search_log s' = search_log s ++ flat_map trailing_entries ds.
Proof.
  induction ds as [|tm ds IH]; intros s; simpl.
  - rewrite app_nil_r. auto using same_setup_refl.
  - destruct (fire_frame tm s) as [F1 [F2 F3]].
    destruct (IH (InfiniteList.fire tm s)) as [G1 [G2 G3]].
    simpl in *. rewrite G1, G3, F1, F3, app_assoc.
    eauto using same_setup_trans.
Qed.

Lemma advance_frame (s : InfiniteList.State) (now : Z) :
  (List.length (trailing s) <= 1)%nat ->
  let s' := InfiniteList.advance now s in
  trailing s' = filter (fun tm => negb (due_by now tm)) (trailing s)
  /\ same_setup s s'
  /\ search_log s' = search_log s ++ flat_map trailing_entries (filter (due_by now) (trailing s)).
Proof.
  intros Hone. unfold InfiniteList.advance.
  match goal with |- context [fold_left _ ?ds ?st] =>
    destruct (fold_fire_frame ds st) as [F1 [F2 F3]] end.
  simpl in *. unfold trailing. rewrite F1, F3. simpl.
  repeat split; try apply F2.
  - unfold due_later. apply filter_swap.
  - f_equal. unfold due_now.
    rewrite (sort_one_speaker _ _ _ is_trailing trailing_entries trailing_entries_silent).
    + rewrite (flat_map_speakers _ _ is_trailing trailing_entries trailing_entries_silent).
      rewrite filter_swap. reflexivity.
    + rewrite filter_swap. fold (trailing s).
      destruct (trailing s) as [|a [|b r]]; simpl in *; try lia.
      destruct (_ <=? _)%Z; simpl; lia.
Qed.

Lemma advance_quiet (s : InfiniteList.State) (now : Z) :
  trailing s = [] ->
  trailing (InfiniteList.advance now s) = []
  /\ same_setup s (InfiniteList.advance now s)
  /\ search_log (InfiniteList.advance now s) = search_log s.
Proof.
  intros Ht. destruct (advance_frame s now) as [A1 [A2 A3]]; [rewrite Ht; simpl; lia|].
  rewrite A1, A3, Ht. simpl. rewrite app_nil_r. auto.
Qed.

Lemma advance_waiting (s : InfiniteList.State) (now : Z) (tm : InfiniteList.Timer) :
  trailing s = [tm] -> (now < InfiniteList.tm_due tm)%Z ->
  trailing (InfiniteList.advance now s) = [tm]
  /\ same_setup s (InfiniteList.advance now s)
  /\ search_log (InfiniteList.advance now s) = search_log s.
Proof.
  intros Ht Hlt. destruct (advance_frame s now) as [A1 [A2 A3]]; [rewrite Ht; simpl; lia|].
  rewrite A1, A3, Ht. simpl. unfold due_by.
  destruct (InfiniteList.tm_due tm <=? now)%Z eqn:E; [lia|].
  simpl. rewrite app_nil_r. auto.
Qed.

Lemma advance_due (s : InfiniteList.State) (now : Z) (tm : InfiniteList.Timer) :
  trailing s = [tm] -> (InfiniteList.tm_due tm <= now)%Z ->
  trailing (InfiniteList.advance now s) = []
  /\ same_setup s (InfiniteList.advance now s)
  /\ search_log (InfiniteList.advance now s) = search_log s ++ trailing_entries tm.
Proof.
  intros Ht Hle. destruct (advance_frame s now) as [A1 [A2 A3]]; [rewrite Ht; simpl; lia|].
  rewrite A1, A3, Ht. simpl. unfold due_by.
  destruct (InfiniteList.tm_due tm <=? now)%Z eqn:E; [|lia].
  simpl. rewrite app_nil_r. auto.
Qed.

(** A raw term handed to the debounced function replaces the pending
    call of that function. *)
Lemma input_debounced (s : InfiniteList.State) (p : InfiniteList.Props) (t : Z) (raw : string) :
  table_with (Debounced InfiniteList.wait) p s ->
  (trailing s = []
   \/ exists id due q old,
       trailing s = [InfiniteList.mkTimer id due
                       (InfiniteList.Trailing (InfiniteList.debounced s) q old)]) ->
  let s' := InfiniteList.table_input t raw s in
  trailing s' = [InfiniteList.mkTimer (InfiniteList.fresh s) (t + InfiniteList.wait)
                   (InfiniteList.Trailing (InfiniteList.debounced s) p raw)]
  /\ InfiniteList.mounted s' = InfiniteList.mounted s
  /\ InfiniteList.debounced s' = InfiniteList.debounced s
  /\ InfiniteList.recheckCleanup s' = InfiniteList.recheckCleanup s
  /\ InfiniteList.fresh s' = S (InfiniteList.fresh s)
  /\ search_log s' = search_log s.
Proof.
  intros [Hm [Hshow Hh]] Ht. unfold InfiniteList.table_input.
  rewrite Hm, Hshow, Hh. unfold InfiniteList.setTimeout, trailing. simpl.
  repeat split; auto.
  rewrite filter_app. simpl.
  match goal with |- ?l ++ _ = _ => assert (Hnil : l = []) end.
  { rewrite filter_swap. fold (trailing s).
    destruct Ht as [-> | [id [due [q [old ->]]]]]; [reflexivity|].
    simpl. rewrite Nat.eqb_refl. reflexivity. }
  rewrite Hnil. reflexivity.
Qed.

Lemma infinite_run_app (a b : list (Z * InfiniteList.Event)) (s : InfiniteList.State) :
  InfiniteList.run (a ++ b) s = InfiniteList.run b (InfiniteList.run a s).
Proof.
  revert s. induction a as [|[t e] a IH]; intros s; simpl; [reflexivity | apply IH].
Qed.

(** While the terms keep coming, nothing is committed and the last one
    is the one that waits. *)
Lemma infinite_burst (p : InfiniteList.Props) (rest : list (Z * string)) :
  forall (s : InfiniteList.State) (t : Z) (v : string) (id : nat),
    table_with (Debounced InfiniteList.wait) p s ->
    trailing s = [InfiniteList.mkTimer id (t + InfiniteList.wait)
                    (InfiniteList.Trailing (InfiniteList.debounced s) p v)] ->
    (id < InfiniteList.fresh s)%nat ->
    rapid InfiniteList.wait t rest ->
    let s' := InfiniteList.run (infinite_inputs rest) s in
    table_with (Debounced InfiniteList.wait) p s'
    /\ InfiniteList.recheckCleanup s' = InfiniteList.recheckCleanup s
    /\ search_log s' = search_log s
    /\ exists id',
        (id <= id' < InfiniteList.fresh s')%nat
        /\ trailing s'
           = [InfiniteList.mkTimer id' (fst (last rest (t, v)) + InfiniteList.wait)
                (InfiniteList.Trailing (InfiniteList.debounced s') p (snd (last rest (t, v))))].
Proof.
  induction rest as [|[t' v'] rest IH]; intros s t v id Htab Ht Hid Hr.
  - simpl. repeat split; try apply Htab. exists id. split; [lia | exact Ht].
  - destruct Hr as [Hlt Hr]. cbn [infinite_inputs map InfiniteList.run fst snd].
    fold (infinite_inputs rest).
    destruct (advance_waiting s t' _ Ht) as [A1 [[A2 [A3 [A4 A5]]] A6]]; [simpl; lia|].
    set (s1 := InfiniteList.advance t' s) in *.
    assert (Htab1 : table_with (Debounced InfiniteList.wait) p s1).
    { destruct Htab as [H1 H2]. split; [rewrite A2; exact H1 | exact H2]. }
    destruct (input_debounced s1 p t' v' Htab1) as [B1 [B2 [B3 [B4 [B5 B6]]]]].
    { right. rewrite A1, A3. eauto. }
    cbn [InfiniteList.handle].
    set (s2 := InfiniteList.table_input t' v' s1) in *.
    assert (Htab2 : table_with (Debounced InfiniteList.wait) p s2).
    { destruct Htab1 as [H1 H2]. split; [rewrite B2; exact H1 | exact H2]. }
    destruct (IH s2 t' v' (InfiniteList.fresh s1)) as [C1 [C2 [C3 [id' [C4 C5]]]]];
      try assumption.
    { rewrite B1, B3. reflexivity. }
    { rewrite B5. lia. }
    rewrite (last_step _ rest (t', v') (t, v)).
    split; [exact C1|]. split; [rewrite C2, B4, A4; reflexivity|].
    split; [rewrite C3, B6, A6; reflexivity|].
    exists id'. split; [rewrite A5 in C4; lia | exact C5].
Qed.

(** The state a burst leaves behind: nothing committed yet, the last term
    waiting in the debounced function of the render. *)
Lemma infinite_after_burst (p : InfiniteList.Props) (s : InfiniteList.State)
      (t : Z) (v : string) (rest : list (Z * string)) :
  table_with (Debounced InfiniteList.wait) p s ->
  trailing s = [] ->
  rapid InfiniteList.wait t rest ->
  let s' := InfiniteList.run (infinite_inputs ((t, v) :: rest)) s in
  table_with (Debounced InfiniteList.wait) p s'
  /\ InfiniteList.recheckCleanup s' = InfiniteList.recheckCleanup s
  /\ search_log s' = search_log s
  /\ exists id',
      (InfiniteList.fresh s <= id')%nat
      /\ trailing s'
         = [InfiniteList.mkTimer id' (fst (last rest (t, v)) + InfiniteList.wait)
              (InfiniteList.Trailing (InfiniteList.debounced s') p (snd (last rest (t, v))))].
Proof.
  intros Htab Hq Hr.
  cbn [infinite_inputs map InfiniteList.run fst snd]. fold (infinite_inputs rest).
  destruct (advance_quiet s t Hq) as [A1 [[A2 [A3 [A4 A5]]] A6]].
  set (s1 := InfiniteList.advance t s) in *.
  assert (Htab1 : table_with (Debounced InfiniteList.wait) p s1).
  { destruct Htab as [H1 H2]. split; [rewrite A2; exact H1 | exact H2]. }
  destruct (input_debounced s1 p t v Htab1) as [B1 [B2 [B3 [B4 [B5 B6]]]]]; [left; exact A1|].
  cbn [InfiniteList.handle].
  set (s2 := InfiniteList.table_input t v s1) in *.
  assert (Htab2 : table_with (Debounced InfiniteList.wait) p s2).
  { destruct Htab1 as [H1 H2]. split; [rewrite B2; exact H1 | exact H2]. }
  destruct (infinite_burst p rest s2 t v (InfiniteList.fresh s1)) as [C1 [C2 [C3 [id' [C4 C5]]]]];
    try assumption.
  { rewrite B1, B3. reflexivity. }
  { rewrite B5. lia. }
  split; [exact C1|]. split; [rewrite C2, B4, A4; reflexivity|].
  split; [rewrite C3, B6, A6; reflexivity|].
  exists id'. split; [rewrite A5 in C4; lia | exact C5].
Qed.

(** A teardown clears the timeout of the re-check effect; no other timer
    goes, and nothing is logged. *)
Lemma unmount_frame (s : InfiniteList.State) (t : Z) :
  (forall id, InfiniteList.recheckCleanup s = Some id ->
              Forall (fun tm => InfiniteList.tm_id tm <> id) (trailing s)) ->
  trailing (InfiniteList.unmount t s) = trailing s
  /\ search_log (InfiniteList.unmount t s) = search_log s
  /\ InfiniteList.mounted (InfiniteList.unmount t s) = None.
Proof.
  intros Hid. unfold InfiniteList.unmount.
  destruct (InfiniteList.mounted s) as [q|] eqn:Hm; [|auto].
  match goal with |- context [InfiniteList.observer_cleanup ?x] => set (s1 := x) end.
  assert (H1 : InfiniteList.timers s1 = InfiniteList.timers s
               /\ InfiniteList.log s1 = InfiniteList.log s
               /\ InfiniteList.recheckCleanup s1 = InfiniteList.recheckCleanup s).
  { unfold s1. destruct (InfiniteList.sentinel s); [|auto].
    unfold InfiniteList.setLoadMoreRef. simpl.
    destruct (InfiniteList.loadMoreRef s), (InfiniteList.observerRef s); simpl; auto. }
  destruct H1 as [T1 [L1 R1]].
  assert (H2 : forall x, InfiniteList.timers (InfiniteList.observer_cleanup x) = InfiniteList.timers x
               /\ InfiniteList.log (InfiniteList.observer_cleanup x) = InfiniteList.log x
               /\ InfiniteList.recheckCleanup (InfiniteList.observer_cleanup x)
                  = InfiniteList.recheckCleanup x).
  { intros x. unfold InfiniteList.observer_cleanup.
    destruct (InfiniteList.observerCleanup x), (InfiniteList.observerRef x); simpl; auto. }
  destruct (H2 s1) as [T2 [L2 R2]].
  unfold InfiniteList.recheck_cleanup, trailing, search_log. simpl.
  rewrite R2, R1.
  destruct (InfiniteList.recheckCleanup s) as [id|] eqn:Hr; simpl;
    rewrite ?T2, ?T1, ?L2, ?L1; auto.
  repeat split. rewrite filter_swap. fold (trailing s).
  specialize (Hid id eq_refl). induction Hid as [|tm l Hne Hl IH]; simpl; [reflexivity|].
  destruct (Nat.eqb_spec (InfiniteList.tm_id tm) id); [contradiction|].
  simpl. rewrite IH. reflexivity.
Qed.

(** Every raw term handed to a table whose handler is the parent's
    [onSearch] reaches the parent at once. *)
Lemma infinite_direct (p : InfiniteList.Props) (f : JS.Ref) (burst : list (Z * string)) :
  forall s : InfiniteList.State,
    table_with (Direct f) p s ->
    trailing s = [] ->
    let s' := InfiniteList.run (infinite_inputs burst) s in
    table_with (Direct f) p s'
    /\ trailing s' = []
    /\ search_log s' = search_log s ++ direct_entries f burst.
Proof.
  induction burst as [|[t v] burst IH]; intros s Htab Hq.
  - simpl. rewrite app_nil_r. auto.
  - cbn [infinite_inputs map InfiniteList.run fst snd]. fold (infinite_inputs burst).
    destruct (advance_quiet s t Hq) as [A1 [[A2 [A3 [A4 A5]]] A6]].
    set (s1 := InfiniteList.advance t s) in *.
    assert (Htab1 : table_with (Direct f) p s1).
    { destruct Htab as [H1 H2]. split; [rewrite A2; exact H1 | exact H2]. }
    cbn [InfiniteList.handle].
    assert (Hin : InfiniteList.table_input t v s1 = InfiniteList.emit t (OnSearch f v) s1).
    { unfold InfiniteList.table_input. destruct Htab1 as [H1 [H2 H3]].
      rewrite H1, H2, H3. reflexivity. }
    rewrite Hin.
    destruct (IH (InfiniteList.emit t (OnSearch f v) s1)) as [C1 [C2 C3]].
    { destruct Htab1 as [H1 H2]. split; [exact H1 | exact H2]. }
    { exact A1. }
    split; [exact C1|]. split; [exact C2|].
    rewrite C3. unfold search_log at 1. simpl. rewrite filter_app. simpl.
    fold (search_log s1). rewrite A6, <- app_assoc. reflexivity.
Qed.

(** C5, as stated, fails for the list that searches through its parent:
    the table is handed [onSearch] itself, so the two terms typed 50 ms
    apart are both committed, each at once. *)
Lemma server_search_commits_every_input :
  let s := InfiniteList.run_until 5000
             [(0%Z, InfiniteList.Render sample_server_props);
              (10%Z, InfiniteList.Input "v"); (60%Z, InfiniteList.Input "vi")]
             InfiniteList.init in
  search_log s = [(10%Z, OnSearch 7%nat "v"); (60%Z, OnSearch 7%nat "vi")]
  /\ InfiniteList.searched s <> ["vi"%string].
Proof. vm_compute. split; [reflexivity | discriminate]. Qed.

(** C5, amended. A burst of raw terms, each less than the quiet interval
    after the one before, is committed once, with its last term, one quiet
    interval after that term was typed: 300 ms in the eager list, 1000 ms
    in the list with infinite scrolling when its table has the debounced
    handler, which is the case unless infinite scrolling is on and the
    parent gave [onSearch]. In that case every raw term goes to the
    parent's [onSearch] at the moment it is typed. *)
Theorem debounced_commit :
  (forall (s : ClientList.State) (t : Z) (v : string) (rest : list (Z * string))
          (horizon : Z),
      ClientList.table_on_screen s = true ->
      ClientList.pending s = None ->
      rapid 300 t rest ->
      (fst (last rest (t, v)) + 300 <= horizon)%Z ->
      ClientList.log (ClientList.run_until horizon (client_inputs ((t, v) :: rest)) s)
      = ClientList.log s
        ++ [((fst (last rest (t, v)) + 300)%Z, SetSearchTerm (snd (last rest (t, v))))])
  /\ (forall (p : InfiniteList.Props) (s : InfiniteList.State) (t : Z) (v : string)
             (rest : list (Z * string)) (horizon : Z),
         table_with (Debounced 1000) p s ->
         trailing s = [] ->
         rapid 1000 t rest ->
         (fst (last rest (t, v)) + 1000 <= horizon)%Z ->
         search_log (InfiniteList.run_until horizon (infinite_inputs ((t, v) :: rest)) s)
         = search_log s
           ++ commit_entries p (fst (last rest (t, v)) + 1000)%Z (snd (last rest (t, v))))
  /\ (forall (p : InfiniteList.Props) (f : JS.Ref) (s : InfiniteList.State)
             (burst : list (Z * string)) (horizon : Z),
         table_with (Direct f) p s ->
         trailing s = [] ->
         search_log (InfiniteList.run_until horizon (infinite_inputs burst) s)
         = search_log s ++ direct_entries f burst)
  /\ (forall p : InfiniteList.Props,
         InfiniteList.table_handler p
         = match InfiniteList.enableInfiniteScrolling p, InfiniteList.onSearch p with
           | true, Some f => Direct f
           | _, _ => Debounced 1000
           end).
Proof.
  split; [|split; [|split]].
  - intros s t v rest horizon Hon Hp Hr Hh.
    destruct (client_after_burst s t v rest Hon Hp Hr) as [H1 [H2 H3]].
    unfold ClientList.run_until, ClientList.advance.
    rewrite H3. change ClientList.wait with 300%Z.
    destruct (_ <=? horizon)%Z eqn:E; [|lia].
    cbn [ClientList.log]. rewrite H2. reflexivity.
  - intros p s t v rest horizon Htab Hs Hr Hh.
    destruct (infinite_after_burst p s t v rest Htab Hs Hr) as [H1 [H2 [H3 [id [H4 H5]]]]].
    unfold InfiniteList.run_until.
    destruct (advance_due _ horizon _ H5) as [A1 [A2 A3]]; [exact Hh|].
    rewrite A3, H3. reflexivity.
  - intros p f s burst horizon Htab Hq.
    destruct (infinite_direct p f burst s Htab Hq) as [H1 [H2 H3]].
    unfold InfiniteList.run_until.
    destruct (advance_quiet _ horizon H2) as [A1 [A2 A3]].
    rewrite A3, H3. reflexivity.
  - intros p. unfold InfiniteList.table_handler.
    destruct (InfiniteList.enableInfiniteScrolling p), (InfiniteList.onSearch p); reflexivity.
Qed.

Lemma debounced_commit_witness :
  ClientList.log
    (ClientList.run_until 1000
       (client_inputs [(10%Z, "v"%string); (60%Z, "vi"%string); (300%Z, "vit"%string)])
       (ClientList.handle 0 (ClientList.Render sample_client_props) ClientList.init))
  = [(600%Z, SetSearchTerm "vit")]
  /\ search_log
       (InfiniteList.run_until 5000
          (infinite_inputs [(10%Z, "v"%string); (60%Z, "vi"%string); (900%Z, "vit"%string)])
          (InfiniteList.handle 0 (InfiniteList.Render sample_eager_props) InfiniteList.init))
     = [(1900%Z, SetSearchTerm "vit"); (1900%Z, OnSearch 7%nat "vit")]
  /\ search_log
       (InfiniteList.run_until 5000
          (infinite_inputs [(10%Z, "v"%string); (60%Z, "vi"%string)])
          (InfiniteList.handle 0 (InfiniteList.Render sample_server_props) InfiniteList.init))
     = [(10%Z, OnSearch 7%nat "v"); (60%Z, OnSearch 7%nat "vi")].
Proof.
  destruct debounced_commit as [Hc [Hd [Hs _]]].
  split; [|split].
  - apply (Hc (ClientList.handle 0 (ClientList.Render sample_client_props) ClientList.init)
              10%Z "v"%string [(60%Z, "vi"%string); (300%Z, "vit"%string)] 1000%Z).
    + reflexivity.
    + reflexivity.
    + simpl. lia.
    + simpl. lia.
  - apply (Hd sample_eager_props
              (InfiniteList.handle 0 (InfiniteList.Render sample_eager_props) InfiniteList.init)
              10%Z "v"%string [(60%Z, "vi"%string); (900%Z, "vit"%string)] 5000%Z).
    + repeat split.
    + reflexivity.
    + simpl. lia.
    + simpl. lia.
  - apply (Hs sample_server_props 7%nat
              (InfiniteList.handle 0 (InfiniteList.Render sample_server_props) InfiniteList.init)
              [(10%Z, "v"%string); (60%Z, "vi"%string)] 5000%Z).
    + repeat split.
    + reflexivity.
Defined.

(** C8, as stated, fails: the eager list is torn down 90 ms after the
    term was typed, and the term is committed all the same when its 300 ms
    are over. *)
Lemma commit_fires_after_teardown :
  let s := ClientList.run_until 1000
             [(0%Z, ClientList.Render sample_client_props);
              (10%Z, ClientList.Input "vi"); (100%Z, ClientList.Unmount)]
             ClientList.init in
  ClientList.mounted s = None
  /\ ClientList.log s = [(310%Z, SetSearchTerm "vi")].
Proof. vm_compute. split; reflexivity. Qed.

(** C8, amended. A teardown does not cancel the debounced function: when
    a list is torn down before the quiet interval of a burst is over, the
    last term of the burst is still committed when the interval is over,
    by [setSearchTerm] and, in the list with infinite scrolling, by the
    parent's [onSearch] as well. *)
Theorem teardown_keeps_pending_commit :
  (forall (s : ClientList.State) (t : Z) (v : string) (rest : list (Z * string))
          (td horizon : Z),
      ClientList.table_on_screen s = true ->
      ClientList.pending s = None ->
      rapid 300 t rest ->
      (fst (last rest (t, v)) <= td < fst (last rest (t, v)) + 300)%Z ->
      (fst (last rest (t, v)) + 300 <= horizon)%Z ->
      let s' := ClientList.run_until horizon
                  (client_inputs ((t, v) :: rest) ++ [(td, ClientList.Unmount)]) s in
      ClientList.mounted s' = None
      /\ ClientList.log s'
         = ClientList.log s
           ++ [((fst (last rest (t, v)) + 300)%Z, SetSearchTerm (snd (last rest (t, v))))])
  /\ (forall (p : InfiniteList.Props) (s : InfiniteList.State) (t : Z) (v : string)
             (rest : list (Z * string)) (td horizon : Z),
         table_with (Debounced 1000) p s ->
         settled s ->
         rapid 1000 t rest ->
         (fst (last rest (t, v)) <= td < fst (last rest (t, v)) + 1000)%Z ->
         (fst (last rest (t, v)) + 1000 <= horizon)%Z ->
         let s' := InfiniteList.run_until horizon
                     (infinite_inputs ((t, v) :: rest) ++ [(td, InfiniteList.Unmount)]) s in
         InfiniteList.mounted s' = None
         /\ search_log s'
            = search_log s
              ++ commit_entries p (fst (last rest (t, v)) + 1000)%Z (snd (last rest (t, v)))).
Proof.
  split.
  - intros s t v rest td horizon Hon Hp Hr Htd Hh.
    destruct (client_after_burst s t v rest Hon Hp Hr) as [H1 [H2 H3]].
    unfold ClientList.run_until. rewrite client_run_app.
    set (s2 := ClientList.run (client_inputs ((t, v) :: rest)) s) in *.
    cbn [ClientList.run].
    rewrite (client_advance_early s2 td _ _ H3) by (change ClientList.wait with 300%Z; lia).
    unfold ClientList.handle, ClientList.advance. cbn [ClientList.pending].
    rewrite H3. change ClientList.wait with 300%Z.
    destruct (_ <=? horizon)%Z eqn:E; [|lia].
    cbn [ClientList.log ClientList.mounted]. rewrite H2. auto.
  - intros p s t v rest td horizon Htab Hs Hr Htd Hh.
    destruct (infinite_after_burst p s t v rest Htab (proj1 Hs) Hr)
      as [H1 [H2 [H3 [id [H4 H5]]]]].
    unfold InfiniteList.run_until. rewrite infinite_run_app.
    set (s2 := InfiniteList.run (infinite_inputs ((t, v) :: rest)) s) in *.
    cbn [InfiniteList.run InfiniteList.handle].
    destruct (advance_waiting s2 td _ H5) as [A1 [[A2 [A3 [A4 A5]]] A6]];
      [simpl; change InfiniteList.wait with 1000%Z; lia|].
    set (s3 := InfiniteList.advance td s2) in *.
    destruct (unmount_frame s3 td) as [U1 [U2 U3]].
    { intros rid Hrid. rewrite A1. constructor; [|constructor]. simpl.
      rewrite A4, H2 in Hrid. destruct Hs as [_ Hs]. rewrite Hrid in Hs. lia. }
    set (s4 := InfiniteList.unmount td s3) in *.
    destruct (advance_due s4 horizon _ (eq_trans U1 A1)) as [B1 [[B2 _] B3]]; [exact Hh|].
    split; [rewrite B2; exact U3|].
    rewrite B3, U2, A6, H3. reflexivity.
Qed.

Lemma teardown_keeps_pending_commit_witness :
  (let s' := ClientList.run_until 1000
               (client_inputs [(10%Z, "v"%string); (60%Z, "vi"%string)]
                ++ [(100%Z, ClientList.Unmount)])
               (ClientList.handle 0 (ClientList.Render sample_client_props) ClientList.init) in
   ClientList.mounted s' = None
   /\ ClientList.log s' = [(360%Z, SetSearchTerm "vi")])
  /\ (let s' := InfiniteList.run_until 5000
                  (infinite_inputs [(10%Z, "v"%string); (60%Z, "vi"%string)]
                   ++ [(100%Z, InfiniteList.Unmount)])
                  (InfiniteList.handle 0 (InfiniteList.Render sample_eager_props)
                                       InfiniteList.init) in
      InfiniteList.mounted s' = None
      /\ search_log s' = [(1060%Z, SetSearchTerm "vi"); (1060%Z, OnSearch 7%nat "vi")]).
Proof.
  destruct teardown_keeps_pending_commit as [Hc Hi].
  split.
  - apply (Hc (ClientList.handle 0 (ClientList.Render sample_client_props) ClientList.init)
              10%Z "v"%string [(60%Z, "vi"%string)] 100%Z 1000%Z).
    + reflexivity.
    + reflexivity.
    + simpl. lia.
    + simpl. lia.
    + simpl. lia.
  - apply (Hi sample_eager_props
              (InfiniteList.handle 0 (InfiniteList.Render sample_eager_props) InfiniteList.init)
              10%Z "v"%string [(60%Z, "vi"%string)] 100%Z 5000%Z).
    + repeat split.
    + split; [reflexivity | exact I].
    + simpl. lia.
    + simpl. lia.
    + simpl. lia.
Defined.

(* ===================================================================== *)
(** ** The continuation *)
(* ===================================================================== *)

Lemma guarded_ext (s s' : InfiniteList.State) :
  InfiniteList.timers s' = InfiniteList.timers s ->
  InfiniteList.log s' = InfiniteList.log s ->
  guarded s -> guarded s'.
Proof. unfold guarded. intros -> ->. auto. Qed.

Lemma call_loadMore_guarded (t : Z) (p : InfiniteList.Props) (s : InfiniteList.State) :
  admits p -> guarded s -> guarded (InfiniteList.call_loadMore t p s).
Proof.
  intros Hp [Hl Ht]. unfold InfiniteList.call_loadMore.
  destruct (InfiniteList.loadMore p) as [f|] eqn:E; [|split; assumption].
  split; [|exact Ht]. simpl. apply Forall_app. split; [exact Hl|].
  constructor; [|constructor]. unfold call_ok. simpl. auto.
Qed.

Lemma emit_guarded (t : Z) (a : Action InfiniteList.Props) (s : InfiniteList.State) :
  call_ok (t, a) -> guarded s -> guarded (InfiniteList.emit t a s).
Proof.
  intros Ha [Hl Ht]. split; [|exact Ht]. simpl. apply Forall_app. auto.
Qed.

Lemma setTimeout_guarded (t delay : Z) (job : InfiniteList.Job) (s : InfiniteList.State) :
  (forall id due, recheck_ok (InfiniteList.mkTimer id due job)) ->
  guarded s -> guarded (InfiniteList.setTimeout t delay job s).
Proof.
  intros Hj [Hl Ht]. split; [exact Hl|]. simpl. apply Forall_app. auto.
Qed.

Lemma keep_guarded (keep : InfiniteList.Timer -> bool) (s : InfiniteList.State) :
  guarded s -> guarded (InfiniteList.with_timers (filter keep (InfiniteList.timers s)) s).
Proof.
  intros [Hl Ht]. split; [exact Hl|]. simpl.
  rewrite Forall_forall in *. intros tm Hin. apply filter_In in Hin. apply Ht, Hin.
Qed.

Lemma setLoadMoreRef_guarded (t : Z) (p : InfiniteList.Props) (node : option Node)
      (s : InfiniteList.State) :
  guarded s -> guarded (InfiniteList.setLoadMoreRef t p node s).
Proof.
  intros H. unfold InfiniteList.setLoadMoreRef.
  set (s1 := match InfiniteList.loadMoreRef s, InfiniteList.observerRef s with
             | Some old, Some o => InfiniteList.unobserve o old s
             | _, _ => s
             end).
  assert (H1 : guarded s1).
  { unfold s1. destruct (InfiniteList.loadMoreRef s), (InfiniteList.observerRef s);
      try exact H; apply (guarded_ext s); auto. }
  destruct node as [n|]; [|apply (guarded_ext s1); auto].
  destruct (InfiniteList.observerRef (InfiniteList.with_loadMoreRef (Some n) s1)) as [o|];
    [|apply (guarded_ext s1); auto].
  destruct (_ && _); [|apply (guarded_ext s1); auto].
  apply setTimeout_guarded; [intros; exact I|].
  apply (guarded_ext s1); auto.
Qed.

Lemma commit_refs_guarded (t : Z) (prev : option InfiniteList.Props) (p : InfiniteList.Props)
      (s : InfiniteList.State) :
  guarded s -> guarded (InfiniteList.commit_refs t prev p s).
Proof.
  intros H. unfold InfiniteList.commit_refs.
  destruct (InfiniteList.sentinel s), (InfiniteList.shows_sentinel p); try exact H.
  - destruct (InfiniteList.rebuilt prev p).
    + apply setLoadMoreRef_guarded.
      match goal with |- guarded (InfiniteList.with_fresh _ (InfiniteList.with_sentinel _ ?x)) =>
        apply (guarded_ext x); [reflexivity | reflexivity |] end.
      apply setLoadMoreRef_guarded, H.
    + destruct (match prev with Some q => _ | None => true end); [|exact H].
      apply setLoadMoreRef_guarded, setLoadMoreRef_guarded, H.
  - apply setLoadMoreRef_guarded. apply (guarded_ext s); auto.
  - apply setLoadMoreRef_guarded. apply (guarded_ext s); auto.
Qed.

Lemma observer_cleanup_guarded (s : InfiniteList.State) :
  guarded s -> guarded (InfiniteList.observer_cleanup s).
Proof.
  intros H. unfold InfiniteList.observer_cleanup.
  destruct (InfiniteList.observerCleanup s), (InfiniteList.observerRef s);
    try exact H; apply (guarded_ext s); auto.
Qed.

Lemma observer_effect_guarded (p : InfiniteList.Props) (s : InfiniteList.State) :
  guarded s -> guarded (InfiniteList.observer_effect p s).
Proof.
  intros H. unfold InfiniteList.observer_effect.
  destruct (_ || _); [apply (guarded_ext s); auto|].
  simpl. destruct (InfiniteList.loadMoreRef s); apply (guarded_ext s); auto.
Qed.

Lemma recheck_cleanup_guarded (s : InfiniteList.State) :
  guarded s -> guarded (InfiniteList.recheck_cleanup s).
Proof.
  intros H. unfold InfiniteList.recheck_cleanup, InfiniteList.clearTimeout.
  destruct (InfiniteList.recheckCleanup s); [apply keep_guarded, H | exact H].
Qed.

Lemma recheck_effect_guarded (t : Z) (p : InfiniteList.Props) (s : InfiniteList.State) :
  guarded s -> guarded (InfiniteList.recheck_effect t p s).
Proof.
  intros H. unfold InfiniteList.recheck_effect.
  destruct (InfiniteList.enableInfiniteScrolling p); simpl; [|apply (guarded_ext s); auto].
  destruct (JS.truthy (InfiniteList.hasMore p)) eqn:Hm; simpl; [|apply (guarded_ext s); auto].
  destruct (JS.truthy (InfiniteList.isValidating p)) eqn:Hv; simpl;
    [apply (guarded_ext s); auto|].
  destruct (is_defined (InfiniteList.loadMore p)); [|apply (guarded_ext s); auto].
  apply (guarded_ext (InfiniteList.setTimeout t 300 (InfiniteList.ForceCheck p) s)); auto.
  apply setTimeout_guarded; [|exact H].
  intros id due. unfold recheck_ok, admits. simpl. auto.
Qed.

Lemma render_commit_guarded (t : Z) (p : InfiniteList.Props) (s : InfiniteList.State) :
  guarded s -> guarded (InfiniteList.render_commit t p s).
Proof.
  intros H. unfold InfiniteList.render_commit.
  match goal with |- guarded (InfiniteList.with_mounted _ ?x) =>
    apply (guarded_ext x); [reflexivity | reflexivity |] end.
  unfold InfiniteList.commit_effects.
  set (s1 := InfiniteList.commit_refs t (InfiniteList.mounted s) p
               (InfiniteList.memo_handleSearch (InfiniteList.mounted s) p s)).
  assert (H1 : guarded s1).
  { apply commit_refs_guarded. unfold InfiniteList.memo_handleSearch.
    destruct (InfiniteList.mounted s) as [q|]; [destruct (InfiniteList.same_ref _ _)|];
      try exact H; apply (guarded_ext s); auto. }
  set (s2 := if match InfiniteList.mounted s with
                | Some q => negb (InfiniteList.same_guard_deps q p)
                | None => true
                end
             then InfiniteList.observer_effect p (InfiniteList.observer_cleanup s1)
             else s1).
  assert (H2 : guarded s2).
  { unfold s2. destruct (match InfiniteList.mounted s with Some q => _ | None => true end);
      [apply observer_effect_guarded, observer_cleanup_guarded, H1 | exact H1]. }
  destruct (match InfiniteList.mounted s with
            | Some q => negb (InfiniteList.same_recheck_deps q p)
            | None => true
            end); [|exact H2].
  apply recheck_effect_guarded, recheck_cleanup_guarded, H2.
Qed.

Lemma unmount_guarded (t : Z) (s : InfiniteList.State) :
  guarded s -> guarded (InfiniteList.unmount t s).
Proof.
  intros H. unfold InfiniteList.unmount.
  destruct (InfiniteList.mounted s) as [q|]; [|exact H]. cbv zeta.
  match goal with
  |- guarded (InfiniteList.with_mounted _
                (InfiniteList.with_searchTerm _
                   (InfiniteList.with_observerRef _
                      (InfiniteList.with_loadMoreRef _
                         (InfiniteList.with_recheckCleanup _ ?x))))) =>
    apply (guarded_ext x); [reflexivity | reflexivity |] end.
  apply recheck_cleanup_guarded.
  match goal with |- guarded (InfiniteList.with_observerCleanup _ ?x) =>
    apply (guarded_ext x); [reflexivity | reflexivity |] end.
  apply observer_cleanup_guarded.
  destruct (InfiniteList.sentinel s); [|exact H].
  apply setLoadMoreRef_guarded. apply (guarded_ext s); auto.
Qed.

Lemma fire_guarded (tm : InfiniteList.Timer) (s : InfiniteList.State) :
  recheck_ok tm -> guarded s -> guarded (InfiniteList.fire tm s).
Proof.
  intros Htm H. unfold InfiniteList.fire. unfold recheck_ok in Htm.
  destruct (InfiniteList.tm_job tm) as [p n | p | inst p raw].
  - destruct (_ <? _)%Z; simpl; [|exact H].
    destruct (JS.truthy (InfiniteList.hasMore p)) eqn:Hm; simpl; [|exact H].
    destruct (JS.truthy (InfiniteList.isValidating p)) eqn:Hv; simpl; [exact H|].
    apply call_loadMore_guarded; [split; assumption | exact H].
  - destruct (InfiniteList.containerHeight _); [|exact H].
    destruct (InfiniteList.shouldLoadMore _ _ _); [|exact H].
    apply call_loadMore_guarded; assumption.
  - assert (H1 : guarded (InfiniteList.emit (InfiniteList.tm_due tm) (SetSearchTerm raw)
                            (if InfiniteList.alive inst s
                             then InfiniteList.with_searchTerm raw s else s))).
    { apply emit_guarded; [exact I|].
      destruct (InfiniteList.alive _ _); [apply (guarded_ext s); auto | exact H]. }
    destruct (InfiniteList.onSearch p); [apply emit_guarded; [exact I | exact H1] | exact H1].
Qed.

Lemma advance_guarded (now : Z) (s : InfiniteList.State) :
  guarded s -> guarded (InfiniteList.advance now s).
Proof.
  intros H. unfold InfiniteList.advance.
  assert (Hd : Forall recheck_ok (due_now InfiniteList.tm_due now (InfiniteList.timers s))).
  { unfold due_now. apply (Permutation_Forall (Permutation_sym (sort_perm _ _))).
    destruct H as [_ Ht]. rewrite Forall_forall in *.
    intros tm Hin. apply filter_In in Hin. apply Ht, Hin. }
  assert (H0 : guarded (InfiniteList.with_timers
                          (due_later InfiniteList.tm_due now (InfiniteList.timers s)) s)).
  { apply keep_guarded, H. }
  revert Hd H0.
  generalize (due_now InfiniteList.tm_due now (InfiniteList.timers s)).
  generalize (InfiniteList.with_timers
                (due_later InfiniteList.tm_due now (InfiniteList.timers s)) s).
  intros st ds. revert st. induction ds as [|tm ds IH]; intros st Hd H0; simpl; [exact H0|].
  inversion Hd; subst. apply IH; [assumption|]. apply fire_guarded; assumption.
Qed.

Lemma handle_guarded (t : Z) (e : InfiniteList.Event) (s : InfiniteList.State) :
  guarded s -> guarded (InfiniteList.handle t e s).
Proof.
  intros H. destruct e as [p | | o first rest | d | raw]; simpl.
  - apply render_commit_guarded, H.
  - apply unmount_guarded, H.
  - destruct (nth_error _ o) as [ob|]; [|exact H].
    destruct (InfiniteList.mem _ _); [|exact H].
    unfold InfiniteList.observer_callback.
    destruct (InfiniteList.isIntersecting first); simpl; [|exact H].
    destruct (JS.truthy (InfiniteList.hasMore _)) eqn:Hm; simpl; [|exact H].
    destruct (JS.truthy (InfiniteList.isValidating _)) eqn:Hv; simpl; [exact H|].
    apply call_loadMore_guarded; [split; assumption | exact H].
  - apply (guarded_ext s); auto.
  - unfold InfiniteList.table_input.
    destruct (InfiniteList.mounted s) as [p|]; [|exact H].
    destruct (InfiniteList.shows_table p); [|exact H].
    destruct (InfiniteList.table_handler p) as [w|f].
    + apply setTimeout_guarded; [intros; exact I|]. apply keep_guarded, H.
    + apply emit_guarded; [exact I | exact H].
Qed.

Lemma run_guarded (evs : list (Z * InfiniteList.Event)) :
  forall s, guarded s -> guarded (InfiniteList.run evs s).
Proof.
  induction evs as [|[t e] evs IH]; intros s H; simpl; [exact H|].
  apply IH, handle_guarded, advance_guarded, H.
Qed.

(** *** Closures come from renders *)

Section Closures.
Variable R : InfiniteList.Props -> Prop.

Lemma closures_ext (s s' : InfiniteList.State) :
  InfiniteList.mounted s' = InfiniteList.mounted s ->
  InfiniteList.observers s' = InfiniteList.observers s ->
  InfiniteList.timers s' = InfiniteList.timers s ->
  InfiniteList.log s' = InfiniteList.log s ->
  closures_in R s -> closures_in R s'.
Proof. unfold closures_in. intros -> -> -> ->. auto. Qed.

Lemma update_at_closures (f : InfiniteList.Observer -> InfiniteList.Observer) (o : nat)
      (l : list InfiniteList.Observer) :
  (forall ob, InfiniteList.obs_closure (f ob) = InfiniteList.obs_closure ob) ->
  Forall (fun ob => R (InfiniteList.obs_closure ob)) l ->
  Forall (fun ob => R (InfiniteList.obs_closure ob)) (InfiniteList.update_at f o l).
Proof.
  intros Hf H. revert o. induction H as [|x l Hx Hl IH]; intros o; destruct o; simpl;
    try constructor; auto.
  rewrite Hf. exact Hx.
Qed.

Lemma with_observers_closures (f : InfiniteList.Observer -> InfiniteList.Observer) (o : nat)
      (s : InfiniteList.State) :
  (forall ob, InfiniteList.obs_closure (f ob) = InfiniteList.obs_closure ob) ->
  closures_in R s ->
  closures_in R (InfiniteList.with_observers
                   (InfiniteList.update_at f o (InfiniteList.observers s)) s).
Proof.
  intros Hf [H1 [H2 [H3 H4]]]. repeat split; try assumption.
  simpl. apply update_at_closures; assumption.
Qed.

Lemma observe_closures (o : nat) (n : Node) (s : InfiniteList.State) :
  closures_in R s -> closures_in R (InfiniteList.observe o n s).
Proof.
  apply with_observers_closures. intros ob. destruct (InfiniteList.mem _ _); reflexivity.
Qed.

Lemma unobserve_closures (o : nat) (n : Node) (s : InfiniteList.State) :
  closures_in R s -> closures_in R (InfiniteList.unobserve o n s).
Proof. apply with_observers_closures. reflexivity. Qed.

Lemma disconnect_closures (o : nat) (s : InfiniteList.State) :
  closures_in R s -> closures_in R (InfiniteList.disconnect o s).
Proof. apply with_observers_closures. reflexivity. Qed.

Lemma setTimeout_closures (t delay : Z) (job : InfiniteList.Job) (s : InfiniteList.State) :
  R (job_closure job) -> closures_in R s -> closures_in R (InfiniteList.setTimeout t delay job s).
Proof.
  intros Hj [H1 [H2 [H3 H4]]]. repeat split; try assumption.
  simpl. apply Forall_app. auto.
Qed.

Lemma keep_closures (keep : InfiniteList.Timer -> bool) (s : InfiniteList.State) :
  closures_in R s ->
  closures_in R (InfiniteList.with_timers (filter keep (InfiniteList.timers s)) s).
Proof.
  intros [H1 [H2 [H3 H4]]]. repeat split; try assumption. simpl.
  rewrite Forall_forall in *. intros tm Hin. apply filter_In in Hin. apply H3, Hin.
Qed.

Lemma emit_closures (t : Z) (a : Action InfiniteList.Props) (s : InfiniteList.State) :
  match a with LoadMore _ p => R p | _ => True end ->
  closures_in R s -> closures_in R (InfiniteList.emit t a s).
Proof.
  intros Ha [H1 [H2 [H3 H4]]]. repeat split; try assumption.
  simpl. apply Forall_app. auto.
Qed.

Lemma call_loadMore_closures (t : Z) (p : InfiniteList.Props) (s : InfiniteList.State) :
  R p -> closures_in R s -> closures_in R (InfiniteList.call_loadMore t p s).
Proof.
  intros Hp H. unfold InfiniteList.call_loadMore.
  destruct (InfiniteList.loadMore p); [apply emit_closures; assumption | exact H].
Qed.

Lemma setLoadMoreRef_closures (t : Z) (p : InfiniteList.Props) (node : option Node)
      (s : InfiniteList.State) :
  R p -> closures_in R s -> closures_in R (InfiniteList.setLoadMoreRef t p node s).
Proof.
  intros Hp H. unfold InfiniteList.setLoadMoreRef.
  set (s1 := match InfiniteList.loadMoreRef s, InfiniteList.observerRef s with
             | Some old, Some o => InfiniteList.unobserve o old s
             | _, _ => s
             end).
  assert (H1 : closures_in R s1).
  { unfold s1. destruct (InfiniteList.loadMoreRef s), (InfiniteList.observerRef s);
      try exact H. apply unobserve_closures, H. }
  assert (H2 : closures_in R (InfiniteList.with_loadMoreRef node s1)).
  { apply (closures_ext s1); auto. }
  destruct node as [n|]; [|exact H2].
  destruct (InfiniteList.observerRef (InfiniteList.with_loadMoreRef (Some n) s1)) as [o|];
    [|exact H2].
  destruct (_ && _); [|exact H2].
  apply setTimeout_closures; [exact Hp|]. apply observe_closures, H2.
Qed.

Lemma commit_refs_closures (t : Z) (p : InfiniteList.Props) (s : InfiniteList.State) :
  R p -> closures_in R s ->
  closures_in R (InfiniteList.commit_refs t (InfiniteList.mounted s) p s).
Proof.
  intros Hp H. unfold InfiniteList.commit_refs.
  assert (Hold : R (match InfiniteList.mounted s with Some q => q | None => p end)).
  { destruct H as [Hm _].
    destruct (InfiniteList.mounted s) as [q|]; [apply Hm; reflexivity | exact Hp]. }
  destruct (InfiniteList.sentinel s), (InfiniteList.shows_sentinel p); try exact H.
  - destruct (InfiniteList.rebuilt (InfiniteList.mounted s) p).
    + apply setLoadMoreRef_closures; [exact Hp|].
      match goal with
      |- closures_in R (InfiniteList.with_fresh _ (InfiniteList.with_sentinel _ ?x)) =>
        apply (closures_ext x); try reflexivity end.
      apply setLoadMoreRef_closures; [exact Hold | exact H].
    + destruct (match InfiniteList.mounted s with Some q => _ | None => true end); [|exact H].
      apply setLoadMoreRef_closures; [exact Hp|].
      apply setLoadMoreRef_closures; [exact Hold | exact H].
  - apply setLoadMoreRef_closures; [exact Hold|]. apply (closures_ext s); auto.
  - apply setLoadMoreRef_closures; [exact Hp|]. apply (closures_ext s); auto.
Qed.

Lemma observer_cleanup_closures (s : InfiniteList.State) :
  closures_in R s -> closures_in R (InfiniteList.observer_cleanup s).
Proof.
  intros H. unfold InfiniteList.observer_cleanup.
  destruct (InfiniteList.observerCleanup s), (InfiniteList.observerRef s);
    try exact H. apply disconnect_closures, H.
Qed.

Lemma observer_effect_closures (p : InfiniteList.Props) (s : InfiniteList.State) :
  R p -> closures_in R s -> closures_in R (InfiniteList.observer_effect p s).
Proof.
  intros Hp H. unfold InfiniteList.observer_effect.
  destruct (_ || _); [apply (closures_ext s); auto|].
  match goal with |- closures_in R (InfiniteList.with_observerCleanup _ ?x) =>
    apply (closures_ext x); try reflexivity end.
  set (s1 := InfiniteList.with_observerRef _ _).
  assert (H1 : closures_in R s1).
  { destruct H as [H1 [H2 [H3 H4]]]. repeat split; try assumption.
    simpl. apply Forall_app. auto. }
  destruct (InfiniteList.loadMoreRef s1); [apply observe_closures, H1 | exact H1].
Qed.

Lemma recheck_cleanup_closures (s : InfiniteList.State) :
  closures_in R s -> closures_in R (InfiniteList.recheck_cleanup s).
Proof.
  intros H. unfold InfiniteList.recheck_cleanup, InfiniteList.clearTimeout.
  destruct (InfiniteList.recheckCleanup s); [apply keep_closures, H | exact H].
Qed.

Lemma recheck_effect_closures (t : Z) (p : InfiniteList.Props) (s : InfiniteList.State) :
  R p -> closures_in R s -> closures_in R (InfiniteList.recheck_effect t p s).
Proof.
  intros Hp H. unfold InfiniteList.recheck_effect.
  destruct (_ && _ && _ && _); [|apply (closures_ext s); auto].
  apply (closures_ext (InfiniteList.setTimeout t 300 (InfiniteList.ForceCheck p) s)); auto.
  apply setTimeout_closures; assumption.
Qed.

Lemma render_commit_closures (t : Z) (p : InfiniteList.Props) (s : InfiniteList.State) :
  R p -> closures_in R s -> closures_in R (InfiniteList.render_commit t p s).
Proof.
  intros Hp H. unfold InfiniteList.render_commit, InfiniteList.commit_effects.
  set (s0 := InfiniteList.memo_handleSearch (InfiniteList.mounted s) p s).
  assert (H0 : closures_in R s0 /\ InfiniteList.mounted s0 = InfiniteList.mounted s).
  { unfold s0, InfiniteList.memo_handleSearch.
    destruct (InfiniteList.mounted s) as [q|] eqn:E; [destruct (InfiniteList.same_ref _ _)|];
      split; auto; apply (closures_ext s); auto. }
  destruct H0 as [H0 Hm].
  set (s1 := InfiniteList.commit_refs t (InfiniteList.mounted s) p s0).
  assert (H1 : closures_in R s1).
  { unfold s1. rewrite <- Hm. apply commit_refs_closures; assumption. }
  set (s2 := if match InfiniteList.mounted s with
                | Some q => negb (InfiniteList.same_guard_deps q p)
                | None => true
                end
             then InfiniteList.observer_effect p (InfiniteList.observer_cleanup s1)
             else s1).
  assert (H2 : closures_in R s2).
  { unfold s2.
    destruct (match InfiniteList.mounted s with
              | Some q => negb (InfiniteList.same_guard_deps q p)
              | None => true
              end);
      [apply observer_effect_closures; [exact Hp|]; apply observer_cleanup_closures, H1
      | exact H1]. }
  set (s3 := if match InfiniteList.mounted s with
                | Some q => negb (InfiniteList.same_recheck_deps q p)
                | None => true
                end
             then InfiniteList.recheck_effect t p (InfiniteList.recheck_cleanup s2)
             else s2).
  assert (H3 : closures_in R s3).
  { unfold s3.
    destruct (match InfiniteList.mounted s with
              | Some q => negb (InfiniteList.same_recheck_deps q p)
              | None => true
              end);
      [apply recheck_effect_closures; [exact Hp|]; apply recheck_cleanup_closures, H2
      | exact H2]. }
  destruct H3 as [_ [G2 [G3 G4]]]. repeat split; try assumption.
  simpl. intros q Hq. injection Hq as <-. exact Hp.
Qed.

Lemma unmount_closures (t : Z) (s : InfiniteList.State) :
  closures_in R s -> closures_in R (InfiniteList.unmount t s).
Proof.
  intros H. unfold InfiniteList.unmount.
  destruct (InfiniteList.mounted s) as [q|] eqn:E; [|exact H].
  assert (Hq : R q) by exact (proj1 H q E).
  set (s1 := match InfiniteList.sentinel s with
             | Some _ => InfiniteList.setLoadMoreRef t q None (InfiniteList.with_sentinel None s)
             | None => s
             end).
  assert (H1 : closures_in R s1).
  { unfold s1. destruct (InfiniteList.sentinel s); [|exact H].
    apply setLoadMoreRef_closures; [exact Hq|]. apply (closures_ext s); auto. }
  set (s2 := InfiniteList.recheck_cleanup
               (InfiniteList.with_observerCleanup false (InfiniteList.observer_cleanup s1))).
  assert (H2 : closures_in R s2).
  { apply recheck_cleanup_closures.
    apply (closures_ext (InfiniteList.observer_cleanup s1)); auto.
    apply observer_cleanup_closures, H1. }
  cbv zeta. fold s1. fold s2.
  destruct H2 as [_ [G2 [G3 G4]]]. repeat split; try assumption.
  simpl. intros q' Hq'. discriminate.
Qed.

Lemma fire_closures (tm : InfiniteList.Timer) (s : InfiniteList.State) :
  R (job_closure (InfiniteList.tm_job tm)) -> closures_in R s ->
  closures_in R (InfiniteList.fire tm s).
Proof.
  intros Htm H. unfold InfiniteList.fire.
  destruct (InfiniteList.tm_job tm) as [p n | p | inst p raw]; simpl in Htm.
  - destruct (_ && _ && _); [apply call_loadMore_closures; assumption | exact H].
  - destruct (InfiniteList.containerHeight _); [|exact H].
    destruct (InfiniteList.shouldLoadMore _ _ _);
      [apply call_loadMore_closures; assumption | exact H].
  - assert (H1 : closures_in R (InfiniteList.emit (InfiniteList.tm_due tm) (SetSearchTerm raw)
                                  (if InfiniteList.alive inst s
                                   then InfiniteList.with_searchTerm raw s else s))).
    { apply emit_closures; [exact I|].
      destruct (InfiniteList.alive _ _); [apply (closures_ext s); auto | exact H]. }
    destruct (InfiniteList.onSearch p); [apply emit_closures; [exact I | exact H1] | exact H1].
Qed.

Lemma advance_closures (now : Z) (s : InfiniteList.State) :
  closures_in R s -> closures_in R (InfiniteList.advance now s).
Proof.
  intros H. unfold InfiniteList.advance.
  assert (Hd : Forall (fun tm => R (job_closure (InfiniteList.tm_job tm)))
                      (due_now InfiniteList.tm_due now (InfiniteList.timers s))).
  { unfold due_now. apply (Permutation_Forall (Permutation_sym (sort_perm _ _))).
    destruct H as [_ [_ [Ht _]]]. rewrite Forall_forall in *.
    intros tm Hin. apply filter_In in Hin. apply Ht, Hin. }
  assert (H0 : closures_in R (InfiniteList.with_timers
                                (due_later InfiniteList.tm_due now (InfiniteList.timers s)) s)).
  { apply keep_closures, H. }
  revert Hd H0.
  generalize (due_now InfiniteList.tm_due now (InfiniteList.timers s)).
  generalize (InfiniteList.with_timers
                (due_later InfiniteList.tm_due now (InfiniteList.timers s)) s).
  intros st ds. revert st. induction ds as [|tm ds IH]; intros st Hd H0; simpl; [exact H0|].
  inversion Hd; subst. apply IH; [assumption|]. apply fire_closures; assumption.
Qed.

Lemma handle_closures (t : Z) (e : InfiniteList.Event) (s : InfiniteList.State) :
  (forall p, e = InfiniteList.Render p -> R p) ->
  closures_in R s -> closures_in R (InfiniteList.handle t e s).
Proof.
  intros He H. destruct e as [p | | o first rest | d | raw]; simpl.
  - apply render_commit_closures; [apply He; reflexivity | exact H].
  - apply unmount_closures, H.
  - destruct (nth_error _ o) as [ob|] eqn:E; [|exact H].
    destruct (InfiniteList.mem _ _); [|exact H].
    unfold InfiniteList.observer_callback.
    destruct (_ && _ && _); [|exact H].
    apply call_loadMore_closures; [|exact H].
    destruct H as [_ [Ho _]]. rewrite Forall_forall in Ho.
    apply Ho. eapply nth_error_In, E.
  - apply (closures_ext s); auto.
  - unfold InfiniteList.table_input.
    destruct (InfiniteList.mounted s) as [p|] eqn:E; [|exact H].
    destruct (InfiniteList.shows_table p); [|exact H].
    destruct (InfiniteList.table_handler p) as [w|f].
    + apply setTimeout_closures; [exact (proj1 H p E)|]. apply keep_closures, H.
    + apply emit_closures; [exact I | exact H].
Qed.

Lemma run_closures (evs : list (Z * InfiniteList.Event)) :
  forall s,
    (forall t p, In (t, InfiniteList.Render p) evs -> R p) ->
    closures_in R s -> closures_in R (InfiniteList.run evs s).
Proof.
  induction evs as [|[t e] evs IH]; intros s Hevs H; simpl; [exact H|].
  apply IH; [intros t' p Hin; apply (Hevs t' p); right; exact Hin|].
  apply handle_closures; [|apply advance_closures, H].
  intros p ->. apply (Hevs t p). left. reflexivity.
Qed.
End Closures.

(** *** The claims about the continuation *)

(** C2, as stated, fails: none of the triggers reads [isLoading]. The
    list is rendered while the first fetch is on its way, its trigger
    element comes into view, and [loadMore] is called. *)
Lemma continuation_admitted_while_loading :
  let s := InfiniteList.run
             [(0%Z, InfiniteList.Layout sample_dom);
              (0%Z, InfiniteList.Render sample_loading_props);
              (10%Z, InfiniteList.Intersect 0 sample_entry [])]
             InfiniteList.init in
  InfiniteList.mounted s = Some sample_loading_props
  /\ loading_initial sample_loading_props
  /\ InfiniteList.loadMore_calls s = [(10%Z, 9%nat)].
Proof. vm_compute. repeat split. Qed.

(** C1, as stated, fails: the guard sets nothing when it admits a
    request. The trigger element is reported in view twice, 1 ms apart and
    before any render, and [loadMore] is called both times. *)
Lemma two_requests_both_admitted :
  let s := InfiniteList.run
             [(0%Z, InfiniteList.Layout sample_dom);
              (0%Z, InfiniteList.Render sample_server_props);
              (10%Z, InfiniteList.Intersect 0 sample_entry []);
              (11%Z, InfiniteList.Intersect 0 sample_entry [])]
             InfiniteList.init in
  InfiniteList.mounted s = Some sample_server_props
  /\ InfiniteList.loadMore_calls s = [(10%Z, 9%nat); (11%Z, 9%nat)].
Proof. vm_compute. split; reflexivity. Qed.

(** C1, amended. The intersection callback has no busy flag of its own.
    It decides on the entry and on the props of the render that created
    it, [first.isIntersecting && hasMore && !isValidating], and a call of
    [loadMore] changes nothing of what it reads: a second request that
    reaches the same observer before the next render gets the decision of
    the first. A callback of a render with [isValidating] set admits
    nothing. *)
Theorem intersection_guard_has_no_flag :
  forall (s : InfiniteList.State) (o : nat) (ob : InfiniteList.Observer)
         (first : InfiniteList.IntersectionObserverEntry)
         (rest rest' : list InfiniteList.IntersectionObserverEntry) (t t' : Z),
    nth_error (InfiniteList.observers s) o = Some ob ->
    InfiniteList.mem (InfiniteList.target first) (InfiniteList.obs_targets ob) = true ->
    let p := InfiniteList.obs_closure ob in
    let admitted :=
      InfiniteList.isIntersecting first && JS.truthy (InfiniteList.hasMore p)
      && negb (JS.truthy (InfiniteList.isValidating p)) in
    let calls at_time :=
      if admitted
      then match InfiniteList.loadMore p with
           | Some f => [(at_time, LoadMore f p)]
           | None => []
           end
      else [] in
    let s1 := InfiniteList.handle t (InfiniteList.Intersect o first rest) s in
    let s2 := InfiniteList.handle t' (InfiniteList.Intersect o first rest') s1 in
    InfiniteList.log s1 = InfiniteList.log s ++ calls t
    /\ InfiniteList.log s2 = InfiniteList.log s1 ++ calls t'
    /\ InfiniteList.observers s2 = InfiniteList.observers s
    /\ InfiniteList.mounted s2 = InfiniteList.mounted s
    /\ (JS.truthy (InfiniteList.isValidating p) = true ->
        InfiniteList.log s2 = InfiniteList.log s).
Proof.
  intros s o ob first rest rest' t t' Hob Hmem p admitted calls s1 s2.
  assert (Hstep : forall (st : InfiniteList.State) (tt : Z) (rr : list _),
             InfiniteList.observers st = InfiniteList.observers s ->
             let st' := InfiniteList.handle tt (InfiniteList.Intersect o first rr) st in
             InfiniteList.log st' = InfiniteList.log st ++ calls tt
             /\ InfiniteList.observers st' = InfiniteList.observers st
             /\ InfiniteList.mounted st' = InfiniteList.mounted st).
  { intros st tt rr Hobs. simpl. rewrite Hobs, Hob, Hmem.
    unfold InfiniteList.observer_callback, calls, admitted. fold p.
    destruct (_ && _ && _); [|rewrite app_nil_r; auto].
    unfold InfiniteList.call_loadMore.
    destruct (InfiniteList.loadMore p); simpl; rewrite ?app_nil_r; auto. }
  destruct (Hstep s t rest eq_refl) as [L1 [O1 M1]].
  destruct (Hstep s1 t' rest' O1) as [L2 [O2 M2]].
  fold s1 in L1, O1, M1. fold s2 in L2, O2, M2.
  repeat split; try assumption; try congruence.
  intros Hv. rewrite L2, L1. unfold calls, admitted. rewrite Hv.
  rewrite andb_false_r. simpl. rewrite !app_nil_r. reflexivity.
Qed.

Lemma intersection_guard_has_no_flag_witness :
  let s := InfiniteList.run
             [(0%Z, InfiniteList.Layout sample_dom);
              (0%Z, InfiniteList.Render sample_server_props)] InfiniteList.init in
  let s1 := InfiniteList.handle 10 (InfiniteList.Intersect 0 sample_entry []) s in
  let s2 := InfiniteList.handle 11 (InfiniteList.Intersect 0 sample_entry []) s1 in
  InfiniteList.log s1 = [(10%Z, LoadMore 9%nat sample_server_props)]
  /\ InfiniteList.log s2
     = [(10%Z, LoadMore 9%nat sample_server_props); (11%Z, LoadMore 9%nat sample_server_props)].
Proof.
  destruct (intersection_guard_has_no_flag
              (InfiniteList.run
                 [(0%Z, InfiniteList.Layout sample_dom);
                  (0%Z, InfiniteList.Render sample_server_props)] InfiniteList.init)
              0%nat (InfiniteList.mkObserver sample_server_props [0%nat])
              sample_entry [] [] 10%Z 11%Z) as [H1 [H2 _]].
  - reflexivity.
  - reflexivity.
  - split; [exact H1 | exact H2].
Defined.

(** C4: the check that [setLoadMoreRef] schedules is never cancelled and
    reads the [hasMore] of the render that scheduled it. A page arrives at
    1000 ms and the callback ref sets its check for 1100 ms; the trigger
    element is in view and the next page is asked for at 1010 ms; that
    page arrives at 1060 ms and is the last one. At 1100 ms the check
    runs and calls [loadMore], though the list was rendered with
    [hasMore] false 40 ms before and no new term was committed. *)
Lemma stale_check_after_exhaustion :
  let evs := [(0%Z, InfiniteList.Layout sample_dom);
              (0%Z, InfiniteList.Render sample_validating_props);
              (1000%Z, InfiniteList.Render sample_server_props);
              (1010%Z, InfiniteList.Intersect 1 sample_entry []);
              (1020%Z, InfiniteList.Render sample_validating_props);
              (1060%Z, InfiniteList.Render sample_exhausted_props)] in
  let before := InfiniteList.run evs InfiniteList.init in
  let after := InfiniteList.run_until 1200 evs InfiniteList.init in
  InfiniteList.mounted before = Some sample_exhausted_props
  /\ InfiniteList.hasMore sample_exhausted_props = Some false
  /\ InfiniteList.loadMore_calls before = [(1010%Z, 9%nat)]
  /\ InfiniteList.mounted after = Some sample_exhausted_props
  /\ InfiniteList.loadMore_calls after = [(1010%Z, 9%nat); (1100%Z, 9%nat)]
  /\ InfiniteList.searched after = [].
Proof. vm_compute. repeat split. Qed.

(* ===================================================================== *)
(** ** The incremental loader *)
(* ===================================================================== *)

Lemma loader_mode (evs : list Loader.Event) :
  forall s, Loader.mode (Loader.run evs s) = Loader.mode s.
Proof.
  induction evs as [|e evs IH]; intros s; simpl; [reflexivity|].
  unfold Loader.run in IH. rewrite IH.
  destruct e as [tm | | tm | id r]; simpl; try reflexivity.
  - unfold Loader.requestContinue. destruct (Loader.admits s); reflexivity.
  - unfold Loader.setCommittedTerm. destruct (Loader.mode s) eqn:E; simpl; auto.
  - unfold Loader.settle. destruct (nth_error _ id); [|reflexivity].
    destruct (existsb _ _); [reflexivity|].
    destruct (Loader.stale _ _); [reflexivity|]. destruct r; reflexivity.
Qed.

Lemma loader_run_snoc (evs : list Loader.Event) (e : Loader.Event) (s : Loader.State) :
  Loader.run (evs ++ [e]) s = Loader.step (Loader.run evs s) e.
Proof. unfold Loader.run. rewrite fold_left_app. reflexivity. Qed.

Lemma loader_run_app (a b : list Loader.Event) (s : Loader.State) :
  Loader.run (a ++ b) s = Loader.run b (Loader.run a s).
Proof. unfold Loader.run. apply fold_left_app. Qed.

(** A step starts no query but the next one, and only adds to the
    fetches issued. *)
Lemma loader_step_grows (s : Loader.State) (e : Loader.Event) :
  (Loader.queries s <= Loader.queries (Loader.step s e))%nat
  /\ exists new, Loader.issued (Loader.step s e) = Loader.issued s ++ new
                 /\ Forall (fun req => Loader.tag_query (Loader.req_tag req)
                                       = Loader.queries (Loader.step s e)) new.
Proof.
  destruct e as [tm | | tm | id r]; simpl.
  - split; [lia|]. eexists. split; [reflexivity|]. constructor; [reflexivity | constructor].
  - unfold Loader.requestContinue. destruct (Loader.admits s); simpl.
    + split; [lia|]. eexists. split; [reflexivity|].
      constructor; [reflexivity | constructor].
    + split; [lia|]. exists []. rewrite app_nil_r. split; [reflexivity | constructor].
  - unfold Loader.setCommittedTerm. destruct (Loader.mode s); simpl.
    + split; [lia|]. exists []. rewrite app_nil_r. split; [reflexivity | constructor].
    + split; [lia|]. eexists. split; [reflexivity|].
      constructor; [reflexivity | constructor].
  - unfold Loader.settle. destruct (nth_error _ id); [|].
    + destruct (existsb _ _); [|destruct (Loader.stale _ _); [|destruct r]]; simpl;
        (split; [lia|]); exists []; rewrite app_nil_r; (split; [reflexivity | constructor]).
    + split; [lia|]. exists []. rewrite app_nil_r. split; [reflexivity | constructor].
Qed.

(** No fetch is tagged with a query that has not been started. *)
Lemma loader_tags_bounded (evs : list Loader.Event) :
  forall s,
    Forall (fun req => Loader.tag_query (Loader.req_tag req) <= Loader.queries s)%nat
           (Loader.issued s) ->
    Forall (fun req => Loader.tag_query (Loader.req_tag req)
                       <= Loader.queries (Loader.run evs s))%nat
           (Loader.issued (Loader.run evs s)).
Proof.
  induction evs as [|e evs IH]; intros s H; simpl; [exact H|].
  apply IH. destruct (loader_step_grows s e) as [Hq [new [Hi Hnew]]].
  rewrite Hi. apply Forall_app. split.
  - eapply Forall_impl; [|exact H]. simpl. intros. lia.
  - eapply Forall_impl; [|exact Hnew]. simpl. intros. lia.
Qed.

(** The fetches issued stay where they are in the list, and the number
    of queries does not go down. *)
Lemma loader_run_grows (evs : list Loader.Event) :
  forall s,
    (Loader.queries s <= Loader.queries (Loader.run evs s))%nat
    /\ exists new, Loader.issued (Loader.run evs s) = Loader.issued s ++ new.
Proof.
  induction evs as [|e evs IH]; intros s; simpl.
  - split; [lia|]. exists []. rewrite app_nil_r. reflexivity.
  - destruct (loader_step_grows s e) as [Hq [new [Hi _]]].
    destruct (IH (Loader.step s e)) as [Hq' [new' Hi']].
    split; [lia|]. exists (new ++ new'). rewrite Hi', Hi, app_assoc. reflexivity.
Qed.

(** C3. In server mode the response to a fetch that was issued before
    the committed term changed is dropped, whenever it arrives later and
    whatever happened in between, also when the term has changed back
    since: nothing the renderer is given changes, the result set least of
    all. And so every item of the result set came with the response to a
    fetch tagged with the committed term now in effect. The page of a
    fetch that is tagged with the term in effect and has not settled
    before is appended. *)
Theorem stale_response_is_discarded :
  (forall (before after : list Loader.Event) (tm : string) (id : nat)
          (r : Loader.Response),
      let issuing := Loader.run before (Loader.init Loader.Server) in
      let arrival := Loader.run (before ++ Loader.SetCommittedTerm tm :: after)
                                (Loader.init Loader.Server) in
      (id < List.length (Loader.issued issuing))%nat ->
      Loader.exposed (Loader.step arrival (Loader.Settles id r)) = Loader.exposed arrival)
  /\ (forall (evs : list Loader.Event) (item : CompletedFormInfo),
         let s := Loader.run evs (Loader.init Loader.Server) in
         In item (Loader.resultSet s) ->
         exists id req page,
           nth_error (Loader.issued s) id = Some req
           /\ Loader.req_tag req = Loader.in_effect s
           /\ In (Loader.Settles id (Loader.Fetched page)) evs
           /\ In item (Loader.page_items page))
  /\ (forall (s : Loader.State) (id : nat) (req : Loader.Request) (page : Loader.Page),
         nth_error (Loader.issued s) id = Some req ->
         Loader.req_tag req = Loader.in_effect s ->
         ~ In id (Loader.settled s) ->
         Loader.resultSet (Loader.step s (Loader.Settles id (Loader.Fetched page)))
         = Loader.resultSet s ++ Loader.page_items page).
Proof.
  split; [|split].
  - intros before after tm id r issuing arrival Hid.
    assert (Hmode : Loader.mode arrival = Loader.Server) by apply loader_mode.
    assert (Hb : Forall (fun req => Loader.tag_query (Loader.req_tag req)
                                    <= Loader.queries issuing)%nat
                        (Loader.issued issuing)).
    { apply loader_tags_bounded. constructor. }
    unfold arrival in *. rewrite loader_run_app in *. fold issuing in Hmode |- *.
    change (Loader.run (Loader.SetCommittedTerm tm :: after) issuing)
      with (Loader.run after (Loader.step issuing (Loader.SetCommittedTerm tm))) in *.
    set (committed := Loader.step issuing (Loader.SetCommittedTerm tm)) in *.
    assert (Hc : Loader.queries committed = S (Loader.queries issuing)
                 /\ exists new, Loader.issued committed = Loader.issued issuing ++ new).
    { unfold committed. simpl. unfold Loader.setCommittedTerm.
      replace (Loader.mode issuing) with Loader.Server
        by (symmetry; apply loader_mode).
      simpl. split; [reflexivity|]. eexists. reflexivity. }
    destruct Hc as [Hq [new Hi]].
    destruct (loader_run_grows after committed) as [Hq' [new' Hi']].
    set (s := Loader.run after committed) in *.
    simpl. unfold Loader.settle.
    assert (Hnth : nth_error (Loader.issued s) id = nth_error (Loader.issued issuing) id).
    { rewrite Hi', Hi, <- app_assoc. apply nth_error_app1. exact Hid. }
    rewrite Hnth.
    destruct (nth_error (Loader.issued issuing) id) as [req|] eqn:Hreq; [|reflexivity].
    destruct (existsb _ _); [reflexivity|].
    assert (Hstale : Loader.stale req s = true).
    { unfold Loader.stale. rewrite Hmode. unfold Loader.tag_eqb, Loader.in_effect. simpl.
      rewrite Forall_forall in Hb. specialize (Hb req (nth_error_In _ _ Hreq)).
      destruct (Nat.eqb_spec (Loader.tag_query (Loader.req_tag req)) (Loader.queries s));
        [lia|]. rewrite andb_false_r. reflexivity. }
    rewrite Hstale. reflexivity.
  - intros evs. induction evs as [|e evs IH] using rev_ind; intros item s Hin.
    + simpl in Hin. contradiction.
    + subst s. rewrite loader_run_snoc in *.
      set (s0 := Loader.run evs (Loader.init Loader.Server)) in *.
      assert (Hmode : Loader.mode s0 = Loader.Server) by apply loader_mode.
      destruct (loader_step_grows s0 e) as [_ [new [Hi _]]].
      assert (Hkeep : Loader.resultSet (Loader.step s0 e) = Loader.resultSet s0 ->
                      Loader.in_effect (Loader.step s0 e) = Loader.in_effect s0 ->
                      exists id req page,
                        nth_error (Loader.issued (Loader.step s0 e)) id = Some req
                        /\ Loader.req_tag req = Loader.in_effect (Loader.step s0 e)
                        /\ In (Loader.Settles id (Loader.Fetched page)) (evs ++ [e])
                        /\ In item (Loader.page_items page)).
      { intros Hr Ht. rewrite Hr in Hin. rewrite Ht.
        destruct (IH item Hin) as [id [req [page [H1 [H2 [H3 H4]]]]]].
        exists id, req, page. split; [|split; [exact H2|split; [|exact H4]]].
        - rewrite Hi. rewrite nth_error_app1; [exact H1|].
          apply nth_error_Some. rewrite H1. discriminate.
        - apply in_or_app. left. exact H3. }
      destruct e as [tm | | tm | id r].
      * simpl in Hin. contradiction.
      * apply Hkeep; simpl; unfold Loader.requestContinue;
          destruct (Loader.admits s0); reflexivity.
      * simpl in Hin. unfold Loader.setCommittedTerm in Hin. rewrite Hmode in Hin.
        simpl in Hin. contradiction.
      * simpl in Hin, Hkeep |- *. unfold Loader.settle in *.
        destruct (nth_error (Loader.issued s0) id) as [req|] eqn:Hreq;
          [|apply Hkeep; reflexivity].
        destruct (existsb _ _); [apply Hkeep; reflexivity|].
        destruct (Loader.stale req s0) eqn:Hstale; [apply Hkeep; reflexivity|].
        destruct r as [page|]; [|apply Hkeep; reflexivity].
        simpl in Hin. apply in_app_or in Hin. destruct Hin as [Hold|Hnew].
        -- destruct (IH item Hold) as [id' [req' [page' [H1 [H2 [H3 H4]]]]]].
           exists id', req', page'. simpl.
           split; [exact H1|]. split; [exact H2|].
           split; [apply in_or_app; left; exact H3 | exact H4].
        -- exists id, req, page. simpl. split; [exact Hreq|]. split.
           ++ unfold Loader.stale in Hstale. rewrite Hmode in Hstale.
              apply negb_false_iff in Hstale. unfold Loader.tag_eqb in Hstale.
              apply andb_true_iff in Hstale. destruct Hstale as [Ht Hq].
              apply String.eqb_eq in Ht. apply Nat.eqb_eq in Hq.
              destruct (Loader.req_tag req) as [tt tq]. simpl in Ht, Hq.
              unfold Loader.in_effect. simpl. rewrite Ht, Hq. reflexivity.
           ++ split; [apply in_or_app; right; left; reflexivity | exact Hnew].
  - intros s id req page Hreq Htag Hnew. simpl. unfold Loader.settle. rewrite Hreq.
    destruct (existsb (Nat.eqb id) (Loader.settled s)) eqn:Hex.
    + exfalso. apply Hnew. apply existsb_exists in Hex. destruct Hex as [x [Hx Heq]].
      apply Nat.eqb_eq in Heq. subst x. exact Hx.
    + assert (Hfresh : Loader.stale req s = false).
      { unfold Loader.stale. destruct (Loader.mode s); [reflexivity|].
        rewrite Htag. unfold Loader.tag_eqb. rewrite String.eqb_refl, Nat.eqb_refl.
        reflexivity. }
      rewrite Hfresh. reflexivity.
Qed.

Lemma stale_response_is_discarded_witness :
  let page1 := Loader.mkPage [sample_form "f1" "Vitals"] true in
  let page2 := Loader.mkPage [sample_form "f2" "Visit Note"] true in
  let first := Loader.mkPage [sample_form "f3" "vi"] true in
  let before := [Loader.Initialize ""; Loader.Settles 0 (Loader.Fetched page1);
                 Loader.RequestContinue] in
  let arrival := Loader.run (before ++ [Loader.SetCommittedTerm "xyz";
                                        Loader.SetCommittedTerm ""])
                            (Loader.init Loader.Server) in
  let dropped := Loader.step arrival (Loader.Settles 1 (Loader.Fetched page2)) in
  Loader.term arrival = ""%string
  /\ Loader.exposed dropped = Loader.exposed arrival
  /\ Loader.resultSet dropped = []
  /\ Loader.resultSet (Loader.step dropped (Loader.Settles 3 (Loader.Fetched first)))
     = [sample_form "f3" "vi"].
Proof.
  intros page1 page2 first before arrival dropped.
  assert (H : Loader.exposed dropped = Loader.exposed arrival).
  { apply (proj1 stale_response_is_discarded before [Loader.SetCommittedTerm ""]
                 "xyz"%string 1%nat (Loader.Fetched page2)).
    vm_compute. lia. }
  split; [reflexivity|]. split; [exact H|]. split; [reflexivity|].
  apply (proj2 (proj2 stale_response_is_discarded) dropped 3%nat
               (Loader.mkRequest (Loader.mkTag "" 3) 0) first).
  - reflexivity.
  - reflexivity.
  - vm_compute. intros [H1|[H2|[]]]; discriminate.
Defined.

(* ===================================================================== *)
(** ** More on what the lists render *)
(* ===================================================================== *)

(** X1. In the list with infinite scrolling the load-more trigger is on
    screen exactly when the table is, infinite scrolling is on and
    [hasMore] is set; the end-of-results line is on screen exactly when
    the table is, infinite scrolling is on, [hasMore] is not set and there
    is at least one form, and it then shows [totalLoaded]. The two are
    never on screen together, and neither is without infinite
    scrolling. *)
Theorem trigger_and_end_of_results :
  forall fmatch formatDatetime searchTerm (p : InfiniteList.Props),
    let v := InfiniteList.render fmatch formatDatetime searchTerm p in
    is_defined (view_sentinel v) = InfiniteList.shows_sentinel p
    /\ (view_endOfResults v <> None <->
        InfiniteList.shows_table p = true
        /\ InfiniteList.enableInfiniteScrolling p = true
        /\ JS.truthy (InfiniteList.hasMore p) = false
        /\ exists x l, InfiniteList.items p = Some (x :: l))
    /\ (forall n, view_endOfResults v = Some n -> n = InfiniteList.totalLoaded p)
    /\ (view_sentinel v <> None -> view_endOfResults v = None)
    /\ (InfiniteList.enableInfiniteScrolling p = false ->
        view_sentinel v = None /\ view_endOfResults v = None).
Proof.
  intros fmatch fmt term p v. subst v.
  unfold InfiniteList.render, InfiniteList.shows_sentinel, InfiniteList.shows_table,
    InfiniteList.trigger, InfiniteList.endOfResults.
  destruct (InfiniteList.shows_skeleton p), (InfiniteList.shows_nothing p),
    (InfiniteList.enableInfiniteScrolling p), (JS.truthy (InfiniteList.hasMore p)),
    (InfiniteList.items p) as [[|x l]|]; simpl;
    repeat split; intros;
    repeat match goal with
           | H : _ /\ _ |- _ => destruct H
           | H : exists _, _ |- _ => destruct H
           end;
    try discriminate; try congruence; eauto.
Qed.

(** X2. A list that is given no array of forms does not fail. The eager
    list shows the skeleton unless [error] is set; the list with infinite
    scrolling shows it when, besides, [isLoading] or [isValidating] is
    set. In every other case the table is rendered with no rows, whatever
    the search term, and the error itself is not shown. *)
Theorem missing_forms_give_no_rows :
  (forall fmatch formatDatetime searchTerm (p : ClientList.Props),
      ClientList.completedForms p = None ->
      let v := ClientList.render fmatch formatDatetime searchTerm p in
      (ClientList.error p = false -> v = DataTableSkeleton)
      /\ (ClientList.error p = true -> option_map tb_rows (view_table v) = Some []))
  /\ (forall fmatch formatDatetime searchTerm (p : InfiniteList.Props),
         InfiniteList.completedForms p = None ->
         let v := InfiniteList.render fmatch formatDatetime searchTerm p in
         let waiting := JS.truthy (InfiniteList.isLoading p)
                        || JS.truthy (InfiniteList.isValidating p) in
         (InfiniteList.error p = false -> waiting = true -> v = DataTableSkeleton)
         /\ (InfiniteList.error p = true \/ waiting = false ->
             option_map tb_rows (view_table v) = Some []
             /\ view_endOfResults v = None)).
Proof.
  split.
  - intros fmatch fmt term p Hnone v. subst v.
    unfold ClientList.render, ClientList.shows_skeleton, ClientList.shows_nothing,
      ClientList.filteredForms.
    rewrite Hnone. simpl. split; intros He; rewrite He; simpl; [reflexivity|].
    destruct (JS.truthy_string term); reflexivity.
  - intros fmatch fmt term p Hnone v waiting. subst v waiting.
    unfold InfiniteList.render, InfiniteList.shows_skeleton, InfiniteList.shows_nothing,
      InfiniteList.filteredForms, InfiniteList.endOfResults, InfiniteList.items.
    rewrite Hnone. simpl. split.
    + intros He Hw. rewrite He, Hw. reflexivity.
    + intros H.
      assert (Hs : negb (InfiniteList.error p)
                   && (JS.truthy (InfiniteList.isLoading p)
                       || JS.truthy (InfiniteList.isValidating p)) = false).
      { destruct H as [-> | ->]; [reflexivity | apply andb_false_r]. }
      rewrite Hs.
      destruct (InfiniteList.enableInfiniteScrolling p), (InfiniteList.onSearch p),
        (JS.truthy_string term); simpl; split; reflexivity.
Qed.

Lemma missing_forms_give_no_rows_witness :
  option_map tb_rows
    (view_table (ClientList.render Fuzzy.fuzzy_match sample_date "vi"
                   (ClientList.mkProps None true "forms" None)))
  = Some []
  /\ InfiniteList.render Fuzzy.fuzzy_match sample_date "vi"
       (InfiniteList.mkProps None false "forms" (Some 7%nat) (Some true) (Some 9%nat)
          (Some true) (Some false) 0 true)
     = DataTableSkeleton.
Proof.
  split.
  - apply (proj1 missing_forms_give_no_rows Fuzzy.fuzzy_match sample_date "vi"%string
             (ClientList.mkProps None true "forms" None)); reflexivity.
  - apply (proj2 missing_forms_give_no_rows Fuzzy.fuzzy_match sample_date "vi"%string
             (InfiniteList.mkProps None false "forms" (Some 7%nat) (Some true) (Some 9%nat)
                (Some true) (Some false) 0 true)); reflexivity.
Defined.

(** X3. The table of the eager list has one row for each filtered form,
    in the order of the filter, with the form's uuid as id, its label as
    name and the uuid of its first encounter, if it has one. So with the
    empty term there are as many rows as forms, and with any other term
    as many as there are forms with a match, each under a name that
    matches. *)
Theorem rows_of_the_eager_list :
  forall fmatch formatDatetime searchTerm (p : ClientList.Props) (tb : Table),
    view_table (ClientList.render fmatch formatDatetime searchTerm p) = Some tb ->
    let shown := elements (ClientList.filteredForms fmatch searchTerm
                             (ClientList.completedForms p)) in
    map row_id (tb_rows tb) = map (fun f => form_uuid (form f)) shown
    /\ map row_formName (tb_rows tb) = map label shown
    /\ map row_encounterUuid (tb_rows tb)
       = map (fun f => option_map enc_uuid (hd_error (associatedEncounters f))) shown
    /\ (searchTerm = ""%string ->
        List.length (tb_rows tb) = List.length (elements (ClientList.completedForms p)))
    /\ (searchTerm <> ""%string ->
        List.length (tb_rows tb)
        = List.length (filter (has_match fmatch searchTerm)
                              (elements (ClientList.completedForms p)))
        /\ Forall (fun r => fmatch searchTerm (row_formName r) <> None) (tb_rows tb)).
Proof.
  intros fmatch fmt term p tb Hv shown.
  assert (Hrows : tb_rows tb = map (tableRow fmt) shown).
  { unfold ClientList.render in Hv.
    destruct (ClientList.shows_skeleton p); [discriminate|].
    destruct (ClientList.shows_nothing p); [discriminate|].
    simpl in Hv. injection Hv as <-. simpl. unfold tableRows, shown.
    destruct (ClientList.filteredForms fmatch term (ClientList.completedForms p)); reflexivity. }
  rewrite Hrows, !map_map. simpl.
  split; [reflexivity|]. split; [reflexivity|]. split; [reflexivity|]. split.
  - intros ->. rewrite length_map. reflexivity.
  - intros Hne. rewrite length_map. unfold shown, ClientList.filteredForms.
    destruct term; [contradiction Hne; reflexivity|]. simpl.
    split.
    + apply Permutation_length, fuzzy_ranked_perm.
    + rewrite Forall_map. simpl. apply fuzzy_ranked_only_matches.
Qed.

Lemma rows_of_the_eager_list_witness :
  exists tb,
    view_table (ClientList.render Fuzzy.fuzzy_match sample_date "vi" sample_client_props)
    = Some tb
    /\ map row_id (tb_rows tb) = ["f1"; "f2"; "f5"; "f3"]%string
    /\ List.length (tb_rows tb) = 4%nat.
Proof.
  eexists. split; [reflexivity|].
  destruct (rows_of_the_eager_list Fuzzy.fuzzy_match sample_date "vi"%string
              sample_client_props _ eq_refl) as [H1 [_ [_ [_ H5]]]].
  split.
  - rewrite H1. reflexivity.
  - rewrite (proj1 (H5 ltac:(discriminate))). reflexivity.
Defined.

Lemma trigger_and_end_of_results_witness :
  view_sentinel (InfiniteList.render Fuzzy.fuzzy_match sample_date "" sample_server_props)
  = Some SentinelScrollHint
  /\ view_endOfResults
       (InfiniteList.render Fuzzy.fuzzy_match sample_date "" sample_server_props) = None
  /\ view_endOfResults
       (InfiniteList.render Fuzzy.fuzzy_match sample_date "" sample_exhausted_props)
     = Some 5%nat.
Proof.
  destruct (trigger_and_end_of_results Fuzzy.fuzzy_match sample_date ""%string
              sample_server_props) as [_ [_ [_ [H _]]]].
  split; [reflexivity|]. split; [apply H; discriminate | reflexivity].
Defined.

(* ===================================================================== *)
(** ** More on the dashboards *)
(* ===================================================================== *)

Lemma in_section_listed (c : Dashboard.FormSection) (f : CompletedFormInfo) :
  Dashboard.in_section c f = true <-> listed c f.
Proof.
  unfold Dashboard.in_section, listed. rewrite existsb_exists. split.
  - intros [formConfig [Hin H]]. apply orb_true_iff in H.
    destruct H as [H|H]; apply String.eqb_eq in H; subst; auto.
  - intros [H|H]; eexists; (split; [exact H|]); rewrite String.eqb_refl;
      [reflexivity | apply orb_true_r].
Qed.

Lemma layout_sectioned (Child : Type) (config : Dashboard.ConfigObject)
      (forms : option (list CompletedFormInfo)) (single : Child)
      (of_section : Dashboard.Section_ -> Child)
      (c : Dashboard.FormSection) (cs : list Dashboard.FormSection) :
  length_is_zero forms = false ->
  Dashboard.formSections config = Some (c :: cs) ->
  Dashboard.layout config forms single of_section
  = Dashboard.Rendered
      (Dashboard.Container
         (map (fun formSection =>
                 of_section
                   {| Dashboard.sec_name := Dashboard.fs_name formSection;
                      Dashboard.sec_forms := Dashboard.fs_forms formSection;
                      Dashboard.sec_availableForms :=
                        option_map (filter (Dashboard.in_section formSection)) forms |})
              (c :: cs))).
Proof.
  intros Hz Hc. unfold Dashboard.layout, Dashboard.sections. rewrite Hz, Hc.
  simpl. rewrite map_map. reflexivity.
Qed.

(** X4. With sections configured, the dashboard with infinite scrolling
    renders one list for each section, in the order of the configuration
    and under the section's name, and a loaded form is in the list of a
    section exactly when the section lists its uuid or its name. A form
    that no section lists is in no list, and a form that two sections list
    is in both. *)
Theorem sectioned_dashboard_shows_listed_forms :
  forall prop config handleSearch infinite regular
         (c : Dashboard.FormSection) (cs : list Dashboard.FormSection)
         (first : CompletedFormInfo) (others : list CompletedFormInfo),
    Dashboard.formSections config = Some (c :: cs) ->
    Dashboard.i_data (Dashboard.chosen prop config infinite regular)
    = Some (first :: others) ->
    exists lists,
      Dashboard.render_infinite prop config handleSearch infinite regular
      = Dashboard.Rendered (Dashboard.Container lists)
      /\ map Dashboard.a_sectionName lists
         = map (fun s => Some (Dashboard.fs_name s)) (c :: cs)
      /\ forall (i : nat) (a : Dashboard.ListAttributes) (s : Dashboard.FormSection),
          nth_error lists i = Some a ->
          nth_error (c :: cs) i = Some s ->
          exists shown,
            Dashboard.a_completedForms a = Some shown
            /\ forall f, In f shown <-> In f (first :: others) /\ listed s f.
Proof.
  intros prop config h infinite regular c cs first others Hc Hd.
  eexists. split.
  - unfold Dashboard.render_infinite. rewrite Hd.
    apply layout_sectioned; [reflexivity | exact Hc].
  - split; [rewrite map_map; reflexivity|].
    intros i a s Ha Hs. rewrite nth_error_map, Hs in Ha. simpl in Ha.
    injection Ha as <-. cbn [Dashboard.a_completedForms option_map].
    eexists. split; [reflexivity|].
    intros f.
    change (In f (filter (Dashboard.in_section s) (first :: others))
            <-> In f (first :: others) /\ listed s f).
    rewrite filter_In, in_section_listed. reflexivity.
Qed.

Lemma sectioned_dashboard_shows_listed_forms_witness :
  exists lists,
    Dashboard.render_infinite None sample_config 7%nat sample_infinite sample_regular
    = Dashboard.Rendered (Dashboard.Container lists)
    /\ map Dashboard.a_sectionName lists = [Some "Triage"; Some "RFE Forms"]%string
    /\ map (fun a => map label (elements (Dashboard.a_completedForms a))) lists
       = [["Vitals"; "Lab"]; []]%string.
Proof.
  destruct (sectioned_dashboard_shows_listed_forms None sample_config 7%nat
              sample_infinite sample_regular
              (Dashboard.mkFormSection "Triage" ["f1"; "f4"]%string)
              [Dashboard.mkFormSection "RFE Forms" ["f9"]%string]
              (sample_form "f1" "Vitals") (tl sample_forms) eq_refl eq_refl)
    as [lists [Hr [Hn _]]].
  exists lists. split; [exact Hr|]. split; [exact Hn|].
  vm_compute in Hr. injection Hr as <-. reflexivity.
Defined.

(** X5. What a dashboard comes to. It shows its empty state exactly when
    the forms are an empty array, configured or not. It ends in a
    [TypeError] exactly when the forms are anything else, also still
    missing, and [formSections] is not configured. With [formSections]
    configured as an empty array it renders a single list that holds all
    the forms. *)
Theorem dashboard_outcomes :
  forall (Child : Type) (config : Dashboard.ConfigObject)
         (forms : option (list CompletedFormInfo))
         (single : Child) (of_section : Dashboard.Section_ -> Child),
    let out := Dashboard.layout config forms single of_section in
    (out = Dashboard.Rendered Dashboard.EmptyState <-> forms = Some [])
    /\ (out = Dashboard.TypeError <->
        forms <> Some [] /\ Dashboard.formSections config = None)
    /\ (forms <> Some [] -> Dashboard.formSections config = Some [] ->
        out = Dashboard.Rendered (Dashboard.Container [single])).
Proof.
  intros Child config forms single of_section out. subst out.
  unfold Dashboard.layout, Dashboard.sections.
  destruct forms as [[|x l]|], (Dashboard.formSections config) as [[|c cs]|]; simpl;
    repeat split; intros;
    repeat match goal with
           | H : _ /\ _ |- _ => destruct H
           end;
    try discriminate; try congruence.
Qed.

Lemma dashboard_outcomes_witness :
  Dashboard.render_paged (Dashboard.mkConfig None None)
    (Dashboard.mkFormsResult None None false (Some true) None)
  = Dashboard.TypeError
  /\ Dashboard.render_paged (Dashboard.mkConfig None None)
       (Dashboard.mkFormsResult (Some []) (Some []) false (Some false) (Some 0%nat))
     = Dashboard.Rendered Dashboard.EmptyState.
Proof.
  split.
  - apply (proj1 (proj2 (dashboard_outcomes _ (Dashboard.mkConfig None None) None _ _))).
    split; [discriminate | reflexivity].
  - apply (proj1 (dashboard_outcomes _ (Dashboard.mkConfig None None) (Some []) _ _)).
    reflexivity.
Defined.

(** X6. A section none of whose forms is loaded leaves no trace on the
    paged dashboard: its list renders the empty fragment, without the
    heading of the section. While the forms are still missing and no
    error is set, every section shows the skeleton. *)
Theorem sections_without_forms_are_hidden :
  forall fmatch formatDatetime searchTerm (config : Dashboard.ConfigObject)
         (r : Dashboard.FormsResult) (c : Dashboard.FormSection)
         (cs : list Dashboard.FormSection),
    Dashboard.formSections config = Some (c :: cs) ->
    length_is_zero (Dashboard.data r) = false ->
    exists lists,
      Dashboard.render_paged config r = Dashboard.Rendered (Dashboard.Container lists)
      /\ List.length lists = List.length (c :: cs)
      /\ forall (i : nat) (child : ClientList.Props) (s : Dashboard.FormSection),
          nth_error lists i = Some child ->
          nth_error (c :: cs) i = Some s ->
          (forall loaded, Dashboard.data r = Some loaded ->
                          (forall f, In f loaded -> ~ listed s f) ->
                          ClientList.render fmatch formatDatetime searchTerm child
                          = EmptyFragment)
          /\ (Dashboard.data r = None -> Dashboard.error r = false ->
              ClientList.render fmatch formatDatetime searchTerm child
              = DataTableSkeleton).
Proof.
  intros fmatch fmt term config r c cs Hc Hz.
  eexists. split.
  - unfold Dashboard.render_paged. apply layout_sectioned; [exact Hz | exact Hc].
  - split; [rewrite length_map; reflexivity|].
    intros i child s Hchild Hs. rewrite nth_error_map, Hs in Hchild. simpl in Hchild.
    injection Hchild as <-.
    split.
    + intros loaded Hd Hnone.
      assert (Hf : filter (Dashboard.in_section s) loaded = []).
      { clear Hd. induction loaded as [|f fs IH]; [reflexivity|]. simpl.
        destruct (Dashboard.in_section s f) eqn:E.
        - apply in_section_listed in E. exfalso. apply (Hnone f); [left; reflexivity | exact E].
        - apply IH. intros g Hg. apply Hnone. right. exact Hg. }
      unfold ClientList.render, ClientList.shows_skeleton, ClientList.shows_nothing.
      cbn [ClientList.completedForms ClientList.error Dashboard.sec_availableForms].
      rewrite Hd. cbn [option_map]. rewrite Hf. reflexivity.
    + intros Hd He.
      unfold ClientList.render, ClientList.shows_skeleton.
      cbn [ClientList.completedForms ClientList.error Dashboard.sec_availableForms].
      rewrite Hd, He. reflexivity.
Qed.

Lemma sections_without_forms_are_hidden_witness :
  exists lists,
    Dashboard.render_paged sample_config sample_regular
    = Dashboard.Rendered (Dashboard.Container lists)
    /\ map (ClientList.render Fuzzy.fuzzy_match sample_date "") lists
       = [ResponsiveWrapper (Some "Triage"%string)
            (PlainTable
               (mkTable
                  [mkRow "f1" None "Vitals" "f1" None (form (sample_form "f1" "Vitals"));
                   mkRow "f4" None "Lab" "f4" None (form (sample_form "f4" "Lab"))]
                  (Debounced 300) None));
          EmptyFragment].
Proof.
  destruct (sections_without_forms_are_hidden Fuzzy.fuzzy_match sample_date ""%string
              sample_config sample_regular
              (Dashboard.mkFormSection "Triage" ["f1"; "f4"]%string)
              [Dashboard.mkFormSection "RFE Forms" ["f9"]%string] eq_refl eq_refl)
    as [lists [Hr _]].
  exists lists. split; [exact Hr|].
  vm_compute in Hr. injection Hr as <-. reflexivity.
Defined.

(* ===================================================================== *)
(** ** More on the debounced search *)
(* ===================================================================== *)

Lemma client_pending_run (inputs : list (Z * string)) :
  forall (s : ClientList.State) (t : Z) (v : string) (horizon : Z),
    ClientList.table_on_screen s = true ->
    ClientList.pending s = Some ((t + ClientList.wait)%Z, v) ->
    ClientList.log (ClientList.run_until horizon (client_inputs inputs) s)
    = ClientList.log s ++ map (fun tv => (fst tv, SetSearchTerm (snd tv)))
                              (quiet_terms ClientList.wait horizon ((t, v) :: inputs)).
Proof.
  induction inputs as [|[t' v'] rest IH]; intros s t v horizon Hon Hp.
  - unfold ClientList.run_until, ClientList.advance. simpl. rewrite Hp.
    destruct (t + ClientList.wait <=? horizon)%Z; simpl; [reflexivity|].
    rewrite app_nil_r. reflexivity.
  - unfold ClientList.run_until in *.
    cbn [client_inputs map ClientList.run fst snd quiet_terms].
    fold (client_inputs rest).
    unfold ClientList.advance at 2. rewrite Hp.
    destruct (t + ClientList.wait <=? t')%Z eqn:E.
    + unfold ClientList.handle, ClientList.table_on_screen.
      cbn [ClientList.mounted ClientList.searchTerm ClientList.pending ClientList.log].
      unfold ClientList.table_on_screen in Hon. rewrite Hon.
      rewrite (IH _ t' v' horizon); [|exact Hon|reflexivity].
      cbn [ClientList.log]. rewrite <- app_assoc. reflexivity.
    + unfold ClientList.handle. rewrite Hon.
      rewrite (IH _ t' v' horizon); [|exact Hon|reflexivity].
      reflexivity.
Qed.

Lemma infinite_pending_run (p : InfiniteList.Props) (inputs : list (Z * string)) :
  forall (s : InfiniteList.State) (t : Z) (v : string) (id : nat) (horizon : Z),
    table_with (Debounced InfiniteList.wait) p s ->
    trailing s = [InfiniteList.mkTimer id (t + InfiniteList.wait)
                    (InfiniteList.Trailing (InfiniteList.debounced s) p v)] ->
    search_log (InfiniteList.run_until horizon (infinite_inputs inputs) s)
    = search_log s
      ++ flat_map (fun tv => commit_entries p (fst tv) (snd tv))
                  (quiet_terms InfiniteList.wait horizon ((t, v) :: inputs)).
Proof.
  induction inputs as [|[t' v'] rest IH]; intros s t v id horizon Htab Ht.
  - unfold InfiniteList.run_until. simpl.
    destruct (t + InfiniteList.wait <=? horizon)%Z eqn:E.
    + destruct (advance_due s horizon _ Ht) as [_ [_ A3]]; [simpl; lia|].
      rewrite A3. simpl. rewrite app_nil_r. reflexivity.
    + destruct (advance_waiting s horizon _ Ht) as [_ [_ A3]]; [simpl; lia|].
      rewrite A3. simpl. rewrite app_nil_r. reflexivity.
  - unfold InfiniteList.run_until in *.
    cbn [infinite_inputs map InfiniteList.run fst snd quiet_terms InfiniteList.handle].
    fold (infinite_inputs rest).
    set (s1 := InfiniteList.advance t' s).
    assert (Hadv : table_with (Debounced InfiniteList.wait) p s1
                   /\ InfiniteList.debounced s1 = InfiniteList.debounced s
                   /\ ((t + InfiniteList.wait <=? t')%Z = true ->
                       trailing s1 = []
                       /\ search_log s1
                          = search_log s ++ commit_entries p (t + InfiniteList.wait) v)
                   /\ ((t + InfiniteList.wait <=? t')%Z = false ->
                       trailing s1 = [InfiniteList.mkTimer id (t + InfiniteList.wait)
                                        (InfiniteList.Trailing (InfiniteList.debounced s) p v)]
                       /\ search_log s1 = search_log s)).
    { destruct (t + InfiniteList.wait <=? t')%Z eqn:E.
      - destruct (advance_due s t' _ Ht) as [A1 [[A2 [A3 _]] A6]]; [simpl; lia|].
        fold s1 in A1, A2, A3, A6.
        split; [destruct Htab as [H1 H2]; split; [rewrite A2; exact H1 | exact H2]|].
        split; [exact A3|]. split; [intros _; split; [exact A1 | exact A6] | discriminate].
      - destruct (advance_waiting s t' _ Ht) as [A1 [[A2 [A3 _]] A6]]; [simpl; lia|].
        fold s1 in A1, A2, A3, A6.
        split; [destruct Htab as [H1 H2]; split; [rewrite A2; exact H1 | exact H2]|].
        split; [exact A3|]. split; [discriminate | intros _; split; [exact A1 | exact A6]]. }
    destruct Hadv as [Htab1 [Hdeb [Hdue Hwait]]].
    destruct (input_debounced s1 p t' v' Htab1) as [B1 [B2 [B3 [_ [_ B6]]]]].
    { destruct (t + InfiniteList.wait <=? t')%Z.
      - left. apply Hdue. reflexivity.
      - right. rewrite (proj1 (Hwait eq_refl)), Hdeb. eauto. }
    set (s2 := InfiniteList.table_input t' v' s1) in *.
    assert (Htab2 : table_with (Debounced InfiniteList.wait) p s2).
    { destruct Htab1 as [H1 H2]. split; [rewrite B2; exact H1 | exact H2]. }
    rewrite (IH s2 t' v' (InfiniteList.fresh s1) horizon Htab2).
    2:{ rewrite B1, B3. reflexivity. }
    rewrite B6.
    destruct (t + InfiniteList.wait <=? t')%Z.
    + rewrite (proj2 (Hdue eq_refl)). simpl. rewrite <- !app_assoc. reflexivity.
    + rewrite (proj2 (Hwait eq_refl)). reflexivity.
Qed.

(** X7. What the debounced search commits, for any sequence of raw terms:
    exactly the terms that were followed by a quiet interval, each at the
    end of its interval and in the order they were typed; a term that is
    followed by another one before its interval is over is never
    committed. The interval is 300 ms in the eager list and 1000 ms in
    the list with infinite scrolling when its table has the debounced
    handler, where each commit is [setSearchTerm] followed by the
    parent's [onSearch] if there is one. *)
Theorem commits_are_the_quiet_terms :
  (forall (s : ClientList.State) (inputs : list (Z * string)) (horizon : Z),
      ClientList.table_on_screen s = true ->
      ClientList.pending s = None ->
      ClientList.log (ClientList.run_until horizon (client_inputs inputs) s)
      = ClientList.log s ++ map (fun tv => (fst tv, SetSearchTerm (snd tv)))
                                (quiet_terms 300 horizon inputs))
  /\ (forall (p : InfiniteList.Props) (s : InfiniteList.State)
             (inputs : list (Z * string)) (horizon : Z),
         table_with (Debounced 1000) p s ->
         trailing s = [] ->
         search_log (InfiniteList.run_until horizon (infinite_inputs inputs) s)
         = search_log s
           ++ flat_map (fun tv => commit_entries p (fst tv) (snd tv))
                       (quiet_terms 1000 horizon inputs)).
Proof.
  split.
  - intros s [|[t v] rest] horizon Hon Hp.
    + unfold ClientList.run_until. simpl. rewrite (client_advance_idle _ _ Hp).
      rewrite app_nil_r. reflexivity.
    + destruct (client_first_input s t v Hon Hp) as [H1 [H2 [H3 H4]]].
      unfold ClientList.run_until. cbn [client_inputs map ClientList.run fst snd].
      fold (client_inputs rest).
      pose proof (client_pending_run rest _ t v horizon H1 H4) as H.
      unfold ClientList.run_until in H. rewrite H, H3. reflexivity.
  - intros p s [|[t v] rest] horizon Htab Hq.
    + unfold InfiniteList.run_until. simpl.
      destruct (advance_quiet s horizon Hq) as [_ [_ A3]].
      rewrite A3, app_nil_r. reflexivity.
    + unfold InfiniteList.run_until.
      cbn [infinite_inputs map InfiniteList.run fst snd InfiniteList.handle].
      fold (infinite_inputs rest).
      destruct (advance_quiet s t Hq) as [A1 [[A2 [A3 _]] A6]].
      set (s1 := InfiniteList.advance t s) in *.
      assert (Htab1 : table_with (Debounced InfiniteList.wait) p s1).
      { destruct Htab as [H1 H2]. split; [rewrite A2; exact H1 | exact H2]. }
      destruct (input_debounced s1 p t v Htab1) as [B1 [B2 [B3 [_ [_ B6]]]]];
        [left; exact A1|].
      set (s2 := InfiniteList.table_input t v s1) in *.
      assert (Htab2 : table_with (Debounced InfiniteList.wait) p s2).
      { destruct Htab1 as [H1 H2]. split; [rewrite B2; exact H1 | exact H2]. }
      pose proof (infinite_pending_run p rest s2 t v (InfiniteList.fresh s1) horizon Htab2) as H.
      unfold InfiniteList.run_until in H. rewrite H.
      * rewrite B6, A6. reflexivity.
      * rewrite B1, B3. reflexivity.
Qed.

Lemma commits_are_the_quiet_terms_witness :
  ClientList.log
    (ClientList.run_until 5000
       (client_inputs [(10%Z, "v"%string); (60%Z, "vi"%string); (700%Z, "vit"%string);
                       (800%Z, "vita"%string)])
       (ClientList.handle 0 (ClientList.Render sample_client_props) ClientList.init))
  = [(360%Z, SetSearchTerm "vi"); (1100%Z, SetSearchTerm "vita")]
  /\ search_log
       (InfiniteList.run_until 5000
          (infinite_inputs [(10%Z, "v"%string); (60%Z, "vi"%string); (1500%Z, "vit"%string)])
          (InfiniteList.handle 0 (InfiniteList.Render sample_eager_props) InfiniteList.init))
     = [(1060%Z, SetSearchTerm "vi"); (1060%Z, OnSearch 7%nat "vi");
        (2500%Z, SetSearchTerm "vit"); (2500%Z, OnSearch 7%nat "vit")].
Proof.
  split.
  - apply (proj1 commits_are_the_quiet_terms
             (ClientList.handle 0 (ClientList.Render sample_client_props) ClientList.init)
             [(10%Z, "v"%string); (60%Z, "vi"%string); (700%Z, "vit"%string);
              (800%Z, "vita"%string)] 5000%Z); reflexivity.
  - apply (proj2 commits_are_the_quiet_terms sample_eager_props
             (InfiniteList.handle 0 (InfiniteList.Render sample_eager_props) InfiniteList.init)
             [(10%Z, "v"%string); (60%Z, "vi"%string); (1500%Z, "vit"%string)] 5000%Z).
    + repeat split.
    + reflexivity.
Defined.

(* ===================================================================== *)
(** ** More on the continuation *)
(* ===================================================================== *)

Lemma scrolling_ext (s s' : InfiniteList.State) :
  InfiniteList.observers s' = InfiniteList.observers s ->
  InfiniteList.timers s' = InfiniteList.timers s ->
  InfiniteList.log s' = InfiniteList.log s ->
  scrolling_only s -> scrolling_only s'.
Proof. unfold scrolling_only. intros -> -> ->. auto. Qed.

Lemma scrolling_observers (f : InfiniteList.Observer -> InfiniteList.Observer) (o : nat)
      (s : InfiniteList.State) :
  (forall ob, InfiniteList.obs_closure (f ob) = InfiniteList.obs_closure ob) ->
  scrolling_only s ->
  scrolling_only (InfiniteList.with_observers
                    (InfiniteList.update_at f o (InfiniteList.observers s)) s).
Proof.
  intros Hf [H1 [H2 H3]]. repeat split; try assumption. simpl.
  apply (update_at_closures
           (fun p => InfiniteList.enableInfiniteScrolling p = true)); assumption.
Qed.

Lemma scrolling_observe (o : nat) (n : Node) (s : InfiniteList.State) :
  scrolling_only s -> scrolling_only (InfiniteList.observe o n s).
Proof.
  apply scrolling_observers. intros ob. destruct (InfiniteList.mem _ _); reflexivity.
Qed.

Lemma scrolling_setTimeout (t delay : Z) (job : InfiniteList.Job) (s : InfiniteList.State) :
  (forall p, continuation_closure job = Some p ->
             InfiniteList.enableInfiniteScrolling p = true) ->
  scrolling_only s -> scrolling_only (InfiniteList.setTimeout t delay job s).
Proof.
  intros Hj [H1 [H2 H3]]. repeat split; try assumption.
  simpl. apply Forall_app. auto.
Qed.

Lemma scrolling_keep (keep : InfiniteList.Timer -> bool) (s : InfiniteList.State) :
  scrolling_only s ->
  scrolling_only (InfiniteList.with_timers (filter keep (InfiniteList.timers s)) s).
Proof.
  intros [H1 [H2 H3]]. repeat split; try assumption. simpl.
  rewrite Forall_forall in *. intros tm Hin. apply filter_In in Hin. apply H2, Hin.
Qed.

Lemma scrolling_emit (t : Z) (a : Action InfiniteList.Props) (s : InfiniteList.State) :
  match a with
  | LoadMore _ p => InfiniteList.enableInfiniteScrolling p = true
  | _ => True
  end ->
  scrolling_only s -> scrolling_only (InfiniteList.emit t a s).
Proof.
  intros Ha [H1 [H2 H3]]. repeat split; try assumption.
  simpl. apply Forall_app. auto.
Qed.

Lemma scrolling_call (t : Z) (p : InfiniteList.Props) (s : InfiniteList.State) :
  InfiniteList.enableInfiniteScrolling p = true ->
  scrolling_only s -> scrolling_only (InfiniteList.call_loadMore t p s).
Proof.
  intros Hp H. unfold InfiniteList.call_loadMore.
  destruct (InfiniteList.loadMore p); [apply scrolling_emit; assumption | exact H].
Qed.

Lemma scrolling_setLoadMoreRef (t : Z) (p : InfiniteList.Props) (node : option Node)
      (s : InfiniteList.State) :
  scrolling_only s -> scrolling_only (InfiniteList.setLoadMoreRef t p node s).
Proof.
  intros H. unfold InfiniteList.setLoadMoreRef.
  set (s1 := match InfiniteList.loadMoreRef s, InfiniteList.observerRef s with
             | Some old, Some o => InfiniteList.unobserve o old s
             | _, _ => s
             end).
  assert (H1 : scrolling_only s1).
  { unfold s1. destruct (InfiniteList.loadMoreRef s), (InfiniteList.observerRef s);
      try exact H. apply scrolling_observers; [reflexivity | exact H]. }
  assert (H2 : scrolling_only (InfiniteList.with_loadMoreRef node s1)).
  { apply (scrolling_ext s1); auto. }
  destruct node as [n|]; [|exact H2].
  destruct (InfiniteList.observerRef (InfiniteList.with_loadMoreRef (Some n) s1)) as [o|];
    [|exact H2].
  destruct (JS.truthy (InfiniteList.hasMore p)); simpl; [|exact H2].
  destruct (InfiniteList.enableInfiniteScrolling p) eqn:E; [|exact H2].
  apply scrolling_setTimeout; [|apply scrolling_observe, H2].
  intros q Hq. simpl in Hq. injection Hq as <-. exact E.
Qed.

Lemma scrolling_render (t : Z) (p : InfiniteList.Props) (s : InfiniteList.State) :
  scrolling_only s -> scrolling_only (InfiniteList.render_commit t p s).
Proof.
  intros H. unfold InfiniteList.render_commit.
  match goal with |- scrolling_only (InfiniteList.with_mounted _ ?x) =>
    apply (scrolling_ext x); try reflexivity end.
  unfold InfiniteList.commit_effects.
  set (s0 := InfiniteList.memo_handleSearch (InfiniteList.mounted s) p s).
  assert (H0 : scrolling_only s0).
  { unfold s0, InfiniteList.memo_handleSearch.
    destruct (InfiniteList.mounted s) as [q|]; [destruct (InfiniteList.same_ref _ _)|];
      try exact H; apply (scrolling_ext s); auto. }
  set (s1 := InfiniteList.commit_refs t (InfiniteList.mounted s) p s0).
  assert (H1 : scrolling_only s1).
  { unfold s1, InfiniteList.commit_refs.
    destruct (InfiniteList.sentinel s0), (InfiniteList.shows_sentinel p); try exact H0.
    - destruct (InfiniteList.rebuilt (InfiniteList.mounted s) p).
      + apply scrolling_setLoadMoreRef.
        match goal with
        |- scrolling_only (InfiniteList.with_fresh _ (InfiniteList.with_sentinel _ ?x)) =>
          apply (scrolling_ext x); try reflexivity end.
        apply scrolling_setLoadMoreRef, H0.
      + destruct (match InfiniteList.mounted s with
                  | Some q => negb (InfiniteList.same_guard_deps q p)
                  | None => true
                  end); [|exact H0].
        apply scrolling_setLoadMoreRef, scrolling_setLoadMoreRef, H0.
    - apply scrolling_setLoadMoreRef. apply (scrolling_ext s0); auto.
    - apply scrolling_setLoadMoreRef. apply (scrolling_ext s0); auto. }
  set (s2 := if match InfiniteList.mounted s with
                | Some q => negb (InfiniteList.same_guard_deps q p)
                | None => true
                end
             then InfiniteList.observer_effect p (InfiniteList.observer_cleanup s1)
             else s1).
  assert (H2 : scrolling_only s2).
  { unfold s2.
    destruct (match InfiniteList.mounted s with
              | Some q => negb (InfiniteList.same_guard_deps q p)
              | None => true
              end); [|exact H1].
    assert (Hc : scrolling_only (InfiniteList.observer_cleanup s1)).
    { unfold InfiniteList.observer_cleanup.
      destruct (InfiniteList.observerCleanup s1), (InfiniteList.observerRef s1);
        try exact H1. apply scrolling_observers; [reflexivity | exact H1]. }
    unfold InfiniteList.observer_effect.
    destruct (negb (InfiniteList.enableInfiniteScrolling p)
              || negb (is_defined (InfiniteList.loadMore p))) eqn:Hcond;
      [apply (scrolling_ext (InfiniteList.observer_cleanup s1)); auto|].
    assert (E : InfiniteList.enableInfiniteScrolling p = true).
    { destruct (InfiniteList.enableInfiniteScrolling p); [reflexivity | discriminate]. }
    match goal with |- scrolling_only (InfiniteList.with_observerCleanup _ ?x) =>
      apply (scrolling_ext x); try reflexivity end.
    set (s' := InfiniteList.with_observerRef _ _).
    assert (H' : scrolling_only s').
    { destruct Hc as [C1 [C2 C3]]. repeat split; try assumption.
      simpl. apply Forall_app. auto. }
    destruct (InfiniteList.loadMoreRef s'); [apply scrolling_observe, H' | exact H']. }
  destruct (match InfiniteList.mounted s with
            | Some q => negb (InfiniteList.same_recheck_deps q p)
            | None => true
            end); [|exact H2].
  assert (Hc : scrolling_only (InfiniteList.recheck_cleanup s2)).
  { unfold InfiniteList.recheck_cleanup, InfiniteList.clearTimeout.
    destruct (InfiniteList.recheckCleanup s2); [apply scrolling_keep, H2 | exact H2]. }
  unfold InfiniteList.recheck_effect.
  destruct (InfiniteList.enableInfiniteScrolling p && JS.truthy (InfiniteList.hasMore p)
            && negb (JS.truthy (InfiniteList.isValidating p))
            && is_defined (InfiniteList.loadMore p)) eqn:Hcond;
    [|apply (scrolling_ext (InfiniteList.recheck_cleanup s2)); auto].
  assert (E : InfiniteList.enableInfiniteScrolling p = true).
  { destruct (InfiniteList.enableInfiniteScrolling p); [reflexivity | discriminate]. }
  match goal with |- scrolling_only (InfiniteList.with_recheckCleanup _ ?x) =>
    apply (scrolling_ext x); try reflexivity end.
  apply scrolling_setTimeout; [|exact Hc].
  intros q Hq. simpl in Hq. injection Hq as <-. exact E.
Qed.

Lemma scrolling_unmount (t : Z) (s : InfiniteList.State) :
  scrolling_only s -> scrolling_only (InfiniteList.unmount t s).
Proof.
  intros H. unfold InfiniteList.unmount.
  destruct (InfiniteList.mounted s) as [q|]; [|exact H]. cbv zeta.
  match goal with
  |- scrolling_only (InfiniteList.with_mounted _
                       (InfiniteList.with_searchTerm _
                          (InfiniteList.with_observerRef _
                             (InfiniteList.with_loadMoreRef _
                                (InfiniteList.with_recheckCleanup _ ?x))))) =>
    apply (scrolling_ext x); try reflexivity end.
  set (s1 := match InfiniteList.sentinel s with
             | Some _ => InfiniteList.setLoadMoreRef t q None (InfiniteList.with_sentinel None s)
             | None => s
             end).
  assert (H1 : scrolling_only s1).
  { unfold s1. destruct (InfiniteList.sentinel s); [|exact H].
    apply scrolling_setLoadMoreRef. apply (scrolling_ext s); auto. }
  assert (H2 : scrolling_only (InfiniteList.observer_cleanup s1)).
  { unfold InfiniteList.observer_cleanup.
    destruct (InfiniteList.observerCleanup s1), (InfiniteList.observerRef s1);
      try exact H1. apply scrolling_observers; [reflexivity | exact H1]. }
  unfold InfiniteList.recheck_cleanup, InfiniteList.clearTimeout.
  cbn [InfiniteList.recheckCleanup InfiniteList.with_observerCleanup].
  destruct (InfiniteList.recheckCleanup (InfiniteList.observer_cleanup s1)).
  - apply (scrolling_ext
             (InfiniteList.with_timers
                (filter (fun tm => negb (Nat.eqb (InfiniteList.tm_id tm) n))
                        (InfiniteList.timers (InfiniteList.observer_cleanup s1)))
                (InfiniteList.observer_cleanup s1))); try reflexivity.
    apply scrolling_keep, H2.
  - apply (scrolling_ext (InfiniteList.observer_cleanup s1)); auto.
Qed.

Lemma scrolling_fire (tm : InfiniteList.Timer) (s : InfiniteList.State) :
  (forall p, continuation_closure (InfiniteList.tm_job tm) = Some p ->
             InfiniteList.enableInfiniteScrolling p = true) ->
  scrolling_only s -> scrolling_only (InfiniteList.fire tm s).
Proof.
  intros Htm H. unfold InfiniteList.fire.
  destruct (InfiniteList.tm_job tm) as [p n | p | inst p raw]; simpl in Htm.
  - destruct (_ && _ && _); [apply scrolling_call; auto | exact H].
  - destruct (InfiniteList.containerHeight _); [|exact H].
    destruct (InfiniteList.shouldLoadMore _ _ _); [apply scrolling_call; auto | exact H].
  - assert (H1 : scrolling_only
                   (InfiniteList.emit (InfiniteList.tm_due tm) (SetSearchTerm raw)
                      (if InfiniteList.alive inst s
                       then InfiniteList.with_searchTerm raw s else s))).
    { apply scrolling_emit; [exact I|].
      destruct (InfiniteList.alive _ _); [apply (scrolling_ext s); auto | exact H]. }
    destruct (InfiniteList.onSearch p); [apply scrolling_emit; [exact I | exact H1] | exact H1].
Qed.

Lemma scrolling_advance (now : Z) (s : InfiniteList.State) :
  scrolling_only s -> scrolling_only (InfiniteList.advance now s).
Proof.
  intros H. unfold InfiniteList.advance.
  assert (Hd : Forall (fun tm => forall p,
                           continuation_closure (InfiniteList.tm_job tm) = Some p ->
                           InfiniteList.enableInfiniteScrolling p = true)
                      (due_now InfiniteList.tm_due now (InfiniteList.timers s))).
  { unfold due_now. apply (Permutation_Forall (Permutation_sym (sort_perm _ _))).
    destruct H as [_ [Ht _]]. rewrite Forall_forall in *.
    intros tm Hin. apply filter_In in Hin. apply Ht, Hin. }
  assert (H0 : scrolling_only (InfiniteList.with_timers
                                 (due_later InfiniteList.tm_due now (InfiniteList.timers s)) s)).
  { apply scrolling_keep, H. }
  revert Hd H0.
  generalize (due_now InfiniteList.tm_due now (InfiniteList.timers s)).
  generalize (InfiniteList.with_timers
                (due_later InfiniteList.tm_due now (InfiniteList.timers s)) s).
  intros st ds. revert st. induction ds as [|tm ds IH]; intros st Hd H0; simpl; [exact H0|].
  inversion Hd; subst. apply IH; [assumption|]. apply scrolling_fire; assumption.
Qed.

Lemma scrolling_handle (t : Z) (e : InfiniteList.Event) (s : InfiniteList.State) :
  scrolling_only s -> scrolling_only (InfiniteList.handle t e s).
Proof.
  intros H. destruct e as [p | | o first rest | d | raw]; simpl.
  - apply scrolling_render, H.
  - apply scrolling_unmount, H.
  - destruct (nth_error _ o) as [ob|] eqn:E; [|exact H].
    destruct (InfiniteList.mem _ _); [|exact H].
    unfold InfiniteList.observer_callback.
    destruct (_ && _ && _); [|exact H].
    apply scrolling_call; [|exact H].
    destruct H as [Ho _]. rewrite Forall_forall in Ho.
    apply Ho. eapply nth_error_In, E.
  - apply (scrolling_ext s); auto.
  - unfold InfiniteList.table_input.
    destruct (InfiniteList.mounted s) as [p|]; [|exact H].
    destruct (InfiniteList.shows_table p); [|exact H].
    destruct (InfiniteList.table_handler p) as [w|f].
    + apply scrolling_setTimeout; [intros q Hq; discriminate|]. apply scrolling_keep, H.
    + apply scrolling_emit; [exact I | exact H].
Qed.

Lemma scrolling_run (evs : list (Z * InfiniteList.Event)) :
  forall s, scrolling_only s -> scrolling_only (InfiniteList.run evs s).
Proof.
  induction evs as [|[t e] evs IH]; intros s H; simpl; [exact H|].
  apply IH, scrolling_handle, scrolling_advance, H.
Qed.

(** A call of [loadMore] needs a render with infinite scrolling on and a
    [loadMore]. *)
Lemma calls_need_a_scrolling_render (evs : list (Z * InfiniteList.Event)) (horizon : Z) :
  (forall t p, In (t, InfiniteList.Render p) evs ->
               InfiniteList.enableInfiniteScrolling p = false
               \/ InfiniteList.loadMore p = None) ->
  InfiniteList.loadMore_calls (InfiniteList.run_until horizon evs InfiniteList.init) = [].
Proof.
  intros Hevs. unfold InfiniteList.run_until.
  set (s := InfiniteList.advance horizon (InfiniteList.run evs InfiniteList.init)).
  assert (Hs : scrolling_only s).
  { apply scrolling_advance, scrolling_run. repeat split; constructor. }
  assert (Hg : guarded s).
  { apply advance_guarded, run_guarded. split; constructor. }
  assert (Hc : closures_in (rendered_in evs) s).
  { apply advance_closures, run_closures.
    - intros t' q Hq. exists t'. exact Hq.
    - repeat split; try constructor. intros q Hq. discriminate. }
  destruct Hs as [_ [_ Hs]]. destruct Hg as [Hg _]. destruct Hc as [_ [_ [_ Hc]]].
  unfold InfiniteList.loadMore_calls.
  induction (InfiniteList.log s) as [|[t a] l IH]; [reflexivity|].
  inversion Hs; inversion Hg; inversion Hc; subst. simpl.
  rewrite IH by assumption.
  destruct a as [f p | |]; try reflexivity. exfalso.
  simpl in *. unfold call_ok in *. simpl in *.
  match goal with H : rendered_in evs p |- _ => destruct H as [t' Hin] end.
  destruct (Hevs t' p Hin) as [He|Hl]; [congruence|].
  match goal with H : admits p /\ _ |- _ => destruct H as [_ Hf] end. congruence.
Qed.

(** X8. Whatever happens to the list, every call of [loadMore] it makes
    is made by a closure of a render with infinite scrolling on. A list
    that is never rendered with both infinite scrolling on and a
    [loadMore] never calls [loadMore]. *)
Theorem no_continuation_without_infinite_scrolling :
  forall (evs : list (Z * InfiniteList.Event)) (horizon : Z),
    (forall t f p,
        In (t, LoadMore f p)
           (InfiniteList.log (InfiniteList.run_until horizon evs InfiniteList.init)) ->
        InfiniteList.enableInfiniteScrolling p = true)
    /\ ((forall t p, In (t, InfiniteList.Render p) evs ->
                     InfiniteList.enableInfiniteScrolling p = false
                     \/ InfiniteList.loadMore p = None) ->
        InfiniteList.loadMore_calls (InfiniteList.run_until horizon evs InfiniteList.init) = []).
Proof.
  intros evs horizon. split; [|apply calls_need_a_scrolling_render].
  intros t f p Hin. unfold InfiniteList.run_until in Hin.
  assert (Hs : scrolling_only
                 (InfiniteList.advance horizon (InfiniteList.run evs InfiniteList.init))).
  { apply scrolling_advance, scrolling_run. repeat split; constructor. }
  destruct Hs as [_ [_ Hs]]. rewrite Forall_forall in Hs. apply (Hs _ Hin).
Qed.

Lemma no_continuation_without_infinite_scrolling_witness :
  InfiniteList.loadMore_calls
    (InfiniteList.run_until 5000
       [(0%Z, InfiniteList.Layout sample_dom);
        (0%Z, InfiniteList.Render sample_eager_props);
        (10%Z, InfiniteList.Intersect 0 sample_entry [])] InfiniteList.init)
  = [].
Proof.
  apply (proj2 (no_continuation_without_infinite_scrolling _ 5000%Z)).
  intros t p [H|[H|[H|[]]]]; inversion H. left. reflexivity.
Defined.

(** The lists of a dashboard share what the chosen hook returned. *)
Lemma dashboard_attributes prop config handleSearch infinite regular
      (lists : list Dashboard.ListAttributes) :
  Dashboard.render_infinite prop config handleSearch infinite regular
  = Dashboard.Rendered (Dashboard.Container lists) ->
  forall a, In a lists ->
    let r := Dashboard.chosen prop config infinite regular in
    Dashboard.a_onSearch a = handleSearch
    /\ Dashboard.a_loadMore a = Dashboard.i_loadMore r
    /\ Dashboard.a_hasMore a = Dashboard.i_hasMore r
    /\ Dashboard.a_isLoading a = Dashboard.i_isLoading r
    /\ Dashboard.a_isValidating a = Dashboard.i_isValidating r
    /\ Dashboard.a_totalLoaded a = Dashboard.i_totalLoaded r
    /\ Dashboard.a_enableInfiniteScrolling a = Dashboard.useInfiniteScrolling prop config.
Proof.
  unfold Dashboard.render_infinite, Dashboard.layout.
  destruct (length_is_zero _); [discriminate|].
  destruct (Dashboard.sections _ _) as [[|sec secs]|]; [| |discriminate];
    intros H; injection H as <-; intros a Hin.
  - destruct Hin as [<-|[]]. simpl. repeat split.
  - destruct Hin as [<-|Hin]; [simpl; repeat split|].
    apply in_map_iff in Hin. destruct Hin as [x [<- _]]. simpl. repeat split.
Qed.

(** X9. With infinite scrolling off, by the prop or, without the prop,
    by the configuration, the dashboard gives each of its lists the
    result of [useForms]: no [loadMore], [hasMore] false and as
    [totalLoaded] the number of all forms. Such a list renders neither
    the trigger nor the end-of-results line, its table has the debounced
    handler, whose commits go on to the dashboard's [handleSearch], and
    whatever happens to it, it never calls [loadMore]. *)
Theorem dashboard_without_infinite_scrolling :
  forall prop config handleSearch infinite regular
         (lists : list Dashboard.ListAttributes),
    JS.truthy (Dashboard.useInfiniteScrolling prop config) = false ->
    Dashboard.render_infinite prop config handleSearch infinite regular
    = Dashboard.Rendered (Dashboard.Container lists) ->
    (forall a ref, In a lists ->
        let p := list_props ref a in
        InfiniteList.loadMore p = None
        /\ InfiniteList.hasMore p = Some false
        /\ InfiniteList.totalLoaded p = List.length (elements (Dashboard.allForms regular))
        /\ InfiniteList.table_handler p = Debounced 1000
        /\ InfiniteList.onSearch p = Some handleSearch
        /\ forall fmatch formatDatetime searchTerm,
            view_sentinel (InfiniteList.render fmatch formatDatetime searchTerm p) = None
            /\ view_endOfResults (InfiniteList.render fmatch formatDatetime searchTerm p)
               = None)
    /\ (forall (evs : list (Z * InfiniteList.Event)) (horizon : Z),
           (forall t q, In (t, InfiniteList.Render q) evs ->
                        exists a ref, In a lists /\ q = list_props ref a) ->
           InfiniteList.loadMore_calls (InfiniteList.run_until horizon evs InfiniteList.init)
           = []).
Proof.
  intros prop config h infinite regular lists Hoff Hr.
  assert (Hall : forall a ref, In a lists ->
             InfiniteList.loadMore (list_props ref a) = None
             /\ InfiniteList.hasMore (list_props ref a) = Some false
             /\ InfiniteList.totalLoaded (list_props ref a)
                = List.length (elements (Dashboard.allForms regular))
             /\ InfiniteList.enableInfiniteScrolling (list_props ref a) = false
             /\ InfiniteList.onSearch (list_props ref a) = Some h).
  { intros a ref Hin.
    destruct (dashboard_attributes _ _ _ _ _ _ Hr a Hin) as [A1 [A2 [A3 [_ [_ [A6 A7]]]]]].
    unfold Dashboard.chosen in A2, A3, A6. rewrite Hoff in A2, A3, A6. simpl in A2, A3, A6.
    unfold list_props. simpl. rewrite A1, A2, A3, A6, A7.
    repeat split.
    - destruct (Dashboard.allForms regular); reflexivity.
    - destruct (Dashboard.useInfiniteScrolling prop config) as [[|]|];
        [discriminate | reflexivity | reflexivity]. }
  split.
  - intros a ref Hin p. subst p.
    destruct (Hall a ref Hin) as [H1 [H2 [H3 [H4 H5]]]].
    split; [exact H1|]. split; [exact H2|]. split; [exact H3|].
    split; [unfold InfiniteList.table_handler; rewrite H4; reflexivity|].
    split; [exact H5|].
    intros fmatch fmt term. unfold InfiniteList.render. rewrite H4.
    destruct (InfiniteList.shows_skeleton _); [split; reflexivity|].
    destruct (InfiniteList.shows_nothing _); split; reflexivity.
  - intros evs horizon Hevs. apply calls_need_a_scrolling_render.
    intros t q Hq. destruct (Hevs t q Hq) as [a [ref [Hin ->]]].
    right. apply (Hall a ref Hin).
Qed.

Lemma dashboard_without_infinite_scrolling_witness :
  exists lists,
    Dashboard.render_infinite (Some false) sample_config 7%nat sample_infinite sample_regular
    = Dashboard.Rendered (Dashboard.Container lists)
    /\ forall a, In a lists ->
         InfiniteList.loadMore (list_props 1 a) = None
         /\ InfiniteList.table_handler (list_props 1 a) = Debounced 1000.
Proof.
  eexists. split; [reflexivity|].
  intros a Hin.
  destruct (proj1 (dashboard_without_infinite_scrolling (Some false) sample_config 7%nat
                     sample_infinite sample_regular _ eq_refl eq_refl) a 1%nat Hin)
    as [H1 [_ [_ [H4 _]]]].
  split; [exact H1 | exact H4].
Defined.

(* ===================================================================== *)
(** ** The re-check after a render *)
(* ===================================================================== *)

Lemma same_ref_eq (a b : option JS.Ref) : InfiniteList.same_ref a b = true <-> a = b.
Proof.
  destruct a as [x|], b as [y|]; simpl; split; intros H; try congruence.
  - apply Nat.eqb_eq in H. congruence.
  - injection H as ->. apply Nat.eqb_refl.
Qed.

Lemma same_flag_eq (a b : option bool) : InfiniteList.same_flag a b = true <-> a = b.
Proof.
  destruct a as [[|]|], b as [[|]|]; simpl; split; intros H; congruence.
Qed.

Lemma same_guard_deps_eq (q p : InfiniteList.Props) :
  InfiniteList.same_guard_deps q p = true <->
  InfiniteList.enableInfiniteScrolling q = InfiniteList.enableInfiniteScrolling p
  /\ InfiniteList.loadMore q = InfiniteList.loadMore p
  /\ InfiniteList.hasMore q = InfiniteList.hasMore p
  /\ InfiniteList.isValidating q = InfiniteList.isValidating p.
Proof.
  unfold InfiniteList.same_guard_deps.
  rewrite !andb_true_iff, Bool.eqb_true_iff, same_ref_eq, !same_flag_eq. tauto.
Qed.

Lemma same_recheck_deps_eq (q p : InfiniteList.Props) :
  InfiniteList.same_recheck_deps q p = true <->
  option_map InfiniteList.arr_ref (InfiniteList.completedForms q)
  = option_map InfiniteList.arr_ref (InfiniteList.completedForms p)
  /\ (InfiniteList.enableInfiniteScrolling q = InfiniteList.enableInfiniteScrolling p
      /\ InfiniteList.loadMore q = InfiniteList.loadMore p
      /\ InfiniteList.hasMore q = InfiniteList.hasMore p
      /\ InfiniteList.isValidating q = InfiniteList.isValidating p)
  /\ InfiniteList.sectionName q = InfiniteList.sectionName p
  /\ InfiniteList.totalLoaded q = InfiniteList.totalLoaded p.
Proof.
  unfold InfiniteList.same_recheck_deps.
  rewrite !andb_true_iff, same_ref_eq, same_guard_deps_eq, String.eqb_eq, Nat.eqb_eq. tauto.
Qed.

Lemma same_recheck_deps_refl (p : InfiniteList.Props) :
  InfiniteList.same_recheck_deps p p = true.
Proof. apply same_recheck_deps_eq. repeat split. Qed.

Lemma same_recheck_deps_trans (a b c : InfiniteList.Props) :
  InfiniteList.same_recheck_deps a b = true ->
  InfiniteList.same_recheck_deps b c = true ->
  InfiniteList.same_recheck_deps a c = true.
Proof.
  rewrite !same_recheck_deps_eq.
  intros [A1 [[A2 [A3 [A4 A5]]] [A6 A7]]] [B1 [[B2 [B3 [B4 B5]]] [B6 B7]]].
  repeat split; congruence.
Qed.

Lemma NoDup_map_filter (A B : Type) (f : A -> B) (keep : A -> bool) (l : list A) :
  NoDup (map f l) -> NoDup (map f (filter keep l)).
Proof.
  induction l as [|x xs IH]; simpl; intros H; [constructor|].
  inversion H as [|? ? Hx Hxs]; subst.
  destruct (keep x); simpl; [|apply IH, Hxs].
  constructor; [|apply IH, Hxs].
  intros Hin. apply Hx. apply in_map_iff in Hin. destruct Hin as [y [Hy Hin]].
  apply filter_In in Hin. apply in_map_iff. exists y. tauto.
Qed.

Lemma NoDup_map_inj (A B : Type) (f : A -> B) (l : list A) (a b : A) :
  NoDup (map f l) -> In a l -> In b l -> f a = f b -> a = b.
Proof.
  induction l as [|x xs IH]; simpl; intros H Ha Hb Hf; [contradiction|].
  inversion H as [|? ? Hx Hxs]; subst.
  destruct Ha as [<-|Ha], Hb as [<-|Hb]; auto.
  - exfalso. apply Hx. rewrite Hf. apply in_map, Hb.
  - exfalso. apply Hx. rewrite <- Hf. apply in_map, Ha.
Qed.

Section Recheck.
Variable cur : option InfiniteList.Props.

Lemma recheck_ext (s s' : InfiniteList.State) :
  InfiniteList.timers s' = InfiniteList.timers s ->
  InfiniteList.fresh s' = InfiniteList.fresh s ->
  InfiniteList.recheckCleanup s' = InfiniteList.recheckCleanup s ->
  recheck_current cur s -> recheck_current cur s'.
Proof. unfold recheck_current. intros -> -> ->. auto. Qed.

Lemma recheck_keep (keep : InfiniteList.Timer -> bool) (s : InfiniteList.State) :
  recheck_current cur s ->
  recheck_current cur (InfiniteList.with_timers (filter keep (InfiniteList.timers s)) s).
Proof.
  intros [H1 [H2 H3]]. unfold recheck_current. simpl. split; [|split].
  - rewrite Forall_forall in *. intros tm Hin. apply filter_In in Hin. apply H1, Hin.
  - apply NoDup_map_filter, H2.
  - intros tm p Hin. apply filter_In in Hin. apply H3, Hin.
Qed.

Lemma recheck_setTimeout (t delay : Z) (job : InfiniteList.Job) (s : InfiniteList.State) :
  (forall p, job <> InfiniteList.ForceCheck p) ->
  recheck_current cur s -> recheck_current cur (InfiniteList.setTimeout t delay job s).
Proof.
  intros Hj [H1 [H2 H3]]. unfold recheck_current. simpl. split; [|split].
  - apply Forall_app. split.
    + eapply Forall_impl; [|exact H1]. simpl. intros. lia.
    + constructor; [simpl; lia | constructor].
  - rewrite map_app. simpl.
    apply NoDup_app; [exact H2 | constructor; [intros []|constructor] |].
    intros x Hx [<-|[]]. apply in_map_iff in Hx. destruct Hx as [tm [Hid Hin]].
    rewrite Forall_forall in H1. specialize (H1 tm Hin). lia.
  - intros tm p Hin Hjob. apply in_app_or in Hin. destruct Hin as [Hin|[<-|[]]].
    + apply H3; assumption.
    + simpl in Hjob. exfalso. apply (Hj p Hjob).
Qed.

Lemma recheck_more_ids (n : nat) (s : InfiniteList.State) :
  (InfiniteList.fresh s <= n)%nat ->
  recheck_current cur s -> recheck_current cur (InfiniteList.with_fresh n s).
Proof.
  intros Hn [H1 [H2 H3]]. unfold recheck_current. simpl. split; [|split]; try assumption.
  eapply Forall_impl; [|exact H1]. simpl. intros. lia.
Qed.

Lemma recheck_setLoadMoreRef (t : Z) (p : InfiniteList.Props) (node : option Node)
      (s : InfiniteList.State) :
  recheck_current cur s -> recheck_current cur (InfiniteList.setLoadMoreRef t p node s).
Proof.
  intros H. unfold InfiniteList.setLoadMoreRef.
  set (s1 := match InfiniteList.loadMoreRef s, InfiniteList.observerRef s with
             | Some old, Some o => InfiniteList.unobserve o old s
             | _, _ => s
             end).
  assert (H1 : recheck_current cur s1).
  { unfold s1. destruct (InfiniteList.loadMoreRef s), (InfiniteList.observerRef s);
      try exact H; apply (recheck_ext s); auto. }
  assert (H2 : recheck_current cur (InfiniteList.with_loadMoreRef node s1)).
  { apply (recheck_ext s1); auto. }
  destruct node as [n|]; [|exact H2].
  destruct (InfiniteList.observerRef (InfiniteList.with_loadMoreRef (Some n) s1)) as [o|];
    [|exact H2].
  destruct (_ && _); [|exact H2].
  apply recheck_setTimeout; [discriminate|].
  apply (recheck_ext (InfiniteList.with_loadMoreRef (Some n) s1)); auto.
Qed.

Lemma recheck_commit_refs (t : Z) (prev : option InfiniteList.Props)
      (p : InfiniteList.Props) (s : InfiniteList.State) :
  recheck_current cur s -> recheck_current cur (InfiniteList.commit_refs t prev p s).
Proof.
  intros H. unfold InfiniteList.commit_refs.
  destruct (InfiniteList.sentinel s), (InfiniteList.shows_sentinel p); try exact H.
  - destruct (InfiniteList.rebuilt prev p).
    + apply recheck_setLoadMoreRef. apply recheck_more_ids; [simpl; lia|].
      match goal with |- recheck_current _ (InfiniteList.with_sentinel _ ?x) =>
        apply (recheck_ext x); try reflexivity end.
      apply recheck_setLoadMoreRef, H.
    + destruct (match prev with Some q => _ | None => true end); [|exact H].
      apply recheck_setLoadMoreRef, recheck_setLoadMoreRef, H.
  - apply recheck_setLoadMoreRef. apply (recheck_ext s); auto.
  - apply recheck_setLoadMoreRef. apply recheck_more_ids; [simpl; lia|].
    apply (recheck_ext s); auto.
Qed.

Lemma recheck_observer_cleanup (s : InfiniteList.State) :
  recheck_current cur s -> recheck_current cur (InfiniteList.observer_cleanup s).
Proof.
  intros H. unfold InfiniteList.observer_cleanup.
  destruct (InfiniteList.observerCleanup s), (InfiniteList.observerRef s);
    try exact H; apply (recheck_ext s); auto.
Qed.

Lemma recheck_observer_effect (p : InfiniteList.Props) (s : InfiniteList.State) :
  recheck_current cur s -> recheck_current cur (InfiniteList.observer_effect p s).
Proof.
  intros H. unfold InfiniteList.observer_effect.
  destruct (_ || _); [apply (recheck_ext s); auto|].
  simpl. destruct (InfiniteList.loadMoreRef s); apply (recheck_ext s); auto.
Qed.

Lemma recheck_fire (tm : InfiniteList.Timer) (s : InfiniteList.State) :
  recheck_current cur s -> recheck_current cur (InfiniteList.fire tm s).
Proof.
  intros H. destruct (fire_frame tm s) as [F1 [[_ [_ [F4 F5]]] _]].
  apply (recheck_ext s); assumption.
Qed.

Lemma recheck_fold_fire (ds : list InfiniteList.Timer) :
  forall s, recheck_current cur s ->
            recheck_current cur (fold_left (fun st tm => InfiniteList.fire tm st) ds s).
Proof.
  induction ds as [|tm ds IH]; intros s H; simpl; [exact H|].
  apply IH, recheck_fire, H.
Qed.
End Recheck.

(** After its cleanup no timeout of the re-check effect is left. *)
Lemma recheck_cleanup_clears (cur cur' : option InfiniteList.Props) (s : InfiniteList.State) :
  recheck_current cur s ->
  recheck_current cur' (InfiniteList.recheck_cleanup s)
  /\ forall tm p, In tm (InfiniteList.timers (InfiniteList.recheck_cleanup s)) ->
                  InfiniteList.tm_job tm <> InfiniteList.ForceCheck p.
Proof.
  intros H.
  assert (Hnone : forall tm p, In tm (InfiniteList.timers (InfiniteList.recheck_cleanup s)) ->
                               InfiniteList.tm_job tm <> InfiniteList.ForceCheck p).
  { intros tm p Hin Hjob. destruct H as [_ [_ H3]].
    unfold InfiniteList.recheck_cleanup, InfiniteList.clearTimeout in Hin.
    destruct (InfiniteList.recheckCleanup s) as [id|] eqn:E.
    - simpl in Hin. apply filter_In in Hin. destruct Hin as [Hin Hne].
      destruct (H3 tm p Hin Hjob) as [Hid _]. injection Hid as ->.
      rewrite Nat.eqb_refl in Hne. discriminate.
    - destruct (H3 tm p Hin Hjob) as [Hid _]. discriminate. }
  split; [|exact Hnone].
  assert (Hc : recheck_current cur (InfiniteList.recheck_cleanup s)).
  { unfold InfiniteList.recheck_cleanup, InfiniteList.clearTimeout.
    destruct (InfiniteList.recheckCleanup s); [apply recheck_keep, H | exact H]. }
  destruct Hc as [C1 [C2 _]]. split; [exact C1|]. split; [exact C2|].
  intros tm p Hin Hjob. exfalso. apply (Hnone tm p Hin Hjob).
Qed.

Lemma recheck_effect_current (t : Z) (p : InfiniteList.Props) (s : InfiniteList.State) :
  recheck_current (Some p) s ->
  (forall tm q, In tm (InfiniteList.timers s) ->
                InfiniteList.tm_job tm <> InfiniteList.ForceCheck q) ->
  recheck_current (Some p) (InfiniteList.recheck_effect t p s).
Proof.
  intros [H1 [H2 H3]] Hnone. unfold InfiniteList.recheck_effect.
  destruct (_ && _ && _ && _).
  - unfold recheck_current. simpl. split; [|split].
    + apply Forall_app. split.
      * eapply Forall_impl; [|exact H1]. simpl. intros. lia.
      * constructor; [simpl; lia | constructor].
    + rewrite map_app. simpl.
      apply NoDup_app; [exact H2 | constructor; [intros []|constructor] |].
      intros x Hx [<-|[]]. apply in_map_iff in Hx. destruct Hx as [tm [Hid Hin]].
      rewrite Forall_forall in H1. specialize (H1 tm Hin). lia.
    + intros tm q Hin Hjob. apply in_app_or in Hin. destruct Hin as [Hin|[<-|[]]].
      * exfalso. apply (Hnone tm q Hin Hjob).
      * simpl in Hjob. injection Hjob as <-. simpl. split; [reflexivity|].
        exists p. split; [reflexivity | apply same_recheck_deps_refl].
  - unfold recheck_current. simpl. split; [exact H1|]. split; [exact H2|].
    intros tm q Hin Hjob. exfalso. apply (Hnone tm q Hin Hjob).
Qed.

Lemma recheck_render (t : Z) (p : InfiniteList.Props) (s : InfiniteList.State) :
  recheck_current (InfiniteList.mounted s) s ->
  recheck_current (Some p) (InfiniteList.render_commit t p s).
Proof.
  intros H. unfold InfiniteList.render_commit.
  match goal with |- recheck_current _ (InfiniteList.with_mounted _ ?x) =>
    apply (recheck_ext (Some p) x); try reflexivity end.
  unfold InfiniteList.commit_effects.
  set (prev := InfiniteList.mounted s) in *.
  set (s0 := InfiniteList.memo_handleSearch prev p s).
  assert (H0 : recheck_current prev s0).
  { unfold s0, InfiniteList.memo_handleSearch.
    destruct prev as [q|]; [destruct (InfiniteList.same_ref _ _)|];
      try exact H; apply (recheck_ext _ s); auto. }
  set (s1 := InfiniteList.commit_refs t prev p s0).
  assert (H1 : recheck_current prev s1) by apply recheck_commit_refs, H0.
  set (s2 := if match prev with
                | Some q => negb (InfiniteList.same_guard_deps q p)
                | None => true
                end
             then InfiniteList.observer_effect p (InfiniteList.observer_cleanup s1)
             else s1).
  assert (H2 : recheck_current prev s2).
  { unfold s2.
    destruct (match prev with
              | Some q => negb (InfiniteList.same_guard_deps q p)
              | None => true
              end);
      [apply recheck_observer_effect, recheck_observer_cleanup, H1 | exact H1]. }
  destruct (match prev with
            | Some q => negb (InfiniteList.same_recheck_deps q p)
            | None => true
            end) eqn:Hch.
  - destruct (recheck_cleanup_clears prev (Some p) s2 H2) as [C1 C2].
    apply recheck_effect_current; assumption.
  - destruct prev as [q|]; [|discriminate].
    apply negb_false_iff in Hch.
    destruct H2 as [G1 [G2 G3]]. split; [exact G1|]. split; [exact G2|].
    intros tm p0 Hin Hjob. destruct (G3 tm p0 Hin Hjob) as [Hid [q' [Hq Hs]]].
    injection Hq as <-. split; [exact Hid|].
    exists p. split; [reflexivity|]. eapply same_recheck_deps_trans; eassumption.
Qed.

Lemma recheck_unmount (t : Z) (s : InfiniteList.State) :
  recheck_current (InfiniteList.mounted s) s ->
  recheck_current (InfiniteList.mounted (InfiniteList.unmount t s)) (InfiniteList.unmount t s).
Proof.
  intros H. unfold InfiniteList.unmount.
  destruct (InfiniteList.mounted s) as [q|] eqn:Hm; [|rewrite Hm; exact H].
  cbn [InfiniteList.mounted InfiniteList.with_mounted].
  set (s1 := match InfiniteList.sentinel s with
             | Some _ => InfiniteList.setLoadMoreRef t q None (InfiniteList.with_sentinel None s)
             | None => s
             end).
  assert (H1 : recheck_current (Some q) s1).
  { unfold s1. destruct (InfiniteList.sentinel s); [|exact H].
    apply recheck_setLoadMoreRef. apply (recheck_ext _ s); auto. }
  set (s2 := InfiniteList.with_observerCleanup false (InfiniteList.observer_cleanup s1)).
  assert (H2 : recheck_current (Some q) s2).
  { apply (recheck_ext _ (InfiniteList.observer_cleanup s1)); auto.
    apply recheck_observer_cleanup, H1. }
  destruct (recheck_cleanup_clears (Some q) None s2 H2) as [[C1 [C2 _]] Cnone].
  unfold recheck_current. simpl. split; [exact C1|]. split; [exact C2|].
  intros tm p Hin Hjob. exfalso. apply (Cnone tm p Hin Hjob).
Qed.

Lemma recheck_advance (now : Z) (s : InfiniteList.State) :
  recheck_current (InfiniteList.mounted s) s ->
  recheck_current (InfiniteList.mounted (InfiniteList.advance now s))
                  (InfiniteList.advance now s).
Proof.
  intros H. unfold InfiniteList.advance.
  match goal with |- context [fold_left _ ?ds ?st] =>
    destruct (fold_fire_frame ds st) as [_ [[F2 _] _]] end.
  simpl in F2. rewrite F2.
  apply recheck_fold_fire. apply recheck_keep, H.
Qed.

Lemma recheck_handle (t : Z) (e : InfiniteList.Event) (s : InfiniteList.State) :
  recheck_current (InfiniteList.mounted s) s ->
  recheck_current (InfiniteList.mounted (InfiniteList.handle t e s))
                  (InfiniteList.handle t e s).
Proof.
  intros H. destruct e as [p | | o first rest | d | raw]; simpl.
  - apply recheck_render, H.
  - apply recheck_unmount, H.
  - destruct (nth_error _ o) as [ob|]; [|exact H].
    destruct (InfiniteList.mem _ _); [|exact H].
    unfold InfiniteList.observer_callback.
    destruct (_ && _ && _); [|exact H].
    unfold InfiniteList.call_loadMore.
    destruct (InfiniteList.loadMore _); [|exact H].
    apply (recheck_ext _ s); auto.
  - apply (recheck_ext _ s); auto.
  - unfold InfiniteList.table_input.
    destruct (InfiniteList.mounted s) as [p|] eqn:Hm; [|rewrite Hm; exact H].
    destruct (InfiniteList.shows_table p); [|rewrite Hm; exact H].
    destruct (InfiniteList.table_handler p) as [w|f].
    + simpl. rewrite Hm. apply recheck_setTimeout; [discriminate|]. apply recheck_keep, H.
    + simpl. rewrite Hm. apply (recheck_ext _ s); auto.
Qed.

Lemma recheck_run (evs : list (Z * InfiniteList.Event)) :
  forall s, recheck_current (InfiniteList.mounted s) s ->
            recheck_current (InfiniteList.mounted (InfiniteList.run evs s))
                            (InfiniteList.run evs s).
Proof.
  induction evs as [|[t e] evs IH]; intros s H; simpl; [exact H|].
  apply IH, recheck_handle, recheck_advance, H.
Qed.

(** X10. The timeout of the re-check effect is never out of date. At any
    moment at most one is pending, and when one is, the list is mounted
    and the dependencies of the effect have, in the props of its last
    render, the values they had when the timeout was set: the same
    [loadMore], [hasMore] set, [isValidating] not set. Unlike the check of
    the callback ref, the re-check therefore only ever calls [loadMore]
    under the guard of the current props. *)
Theorem recheck_is_never_stale :
  forall (evs : list (Z * InfiniteList.Event)),
    let s := InfiniteList.run evs InfiniteList.init in
    (forall tm p,
        In tm (InfiniteList.timers s) ->
        InfiniteList.tm_job tm = InfiniteList.ForceCheck p ->
        exists q,
          InfiniteList.mounted s = Some q
          /\ InfiniteList.loadMore q = InfiniteList.loadMore p
          /\ JS.truthy (InfiniteList.hasMore q) = true
          /\ JS.truthy (InfiniteList.isValidating q) = false
          /\ InfiniteList.enableInfiniteScrolling q = true)
    /\ (forall tm tm' p p',
           In tm (InfiniteList.timers s) -> In tm' (InfiniteList.timers s) ->
           InfiniteList.tm_job tm = InfiniteList.ForceCheck p ->
           InfiniteList.tm_job tm' = InfiniteList.ForceCheck p' ->
           tm = tm').
Proof.
  intros evs s.
  assert (Hr : recheck_current (InfiniteList.mounted s) s).
  { apply recheck_run. split; [constructor|]. split; [constructor|]. intros tm p []. }
  assert (Hg : guarded s) by (apply run_guarded; split; constructor).
  assert (Hs : scrolling_only s) by (apply scrolling_run; repeat split; constructor).
  destruct Hr as [R1 [R2 R3]]. split.
  - intros tm p Hin Hjob. destruct (R3 tm p Hin Hjob) as [_ [q [Hq Hsame]]].
    apply same_recheck_deps_eq in Hsame.
    destruct Hsame as [_ [[E1 [E2 [E3 E4]]] _]].
    destruct Hg as [_ Hg]. rewrite Forall_forall in Hg. specialize (Hg tm Hin).
    unfold recheck_ok in Hg. rewrite Hjob in Hg. destruct Hg as [Hm Hv].
    destruct Hs as [_ [Hs _]]. rewrite Forall_forall in Hs. specialize (Hs tm Hin p).
    rewrite Hjob in Hs. specialize (Hs eq_refl).
    exists q. split; [exact Hq|]. split; [congruence|].
    split; [rewrite <- E3; exact Hm|]. split; [rewrite <- E4; exact Hv | congruence].
  - intros tm tm' p p' Hin Hin' Hjob Hjob'.
    destruct (R3 tm p Hin Hjob) as [Hid _]. destruct (R3 tm' p' Hin' Hjob') as [Hid' _].
    apply (NoDup_map_inj _ _ InfiniteList.tm_id _ _ _ R2 Hin Hin'). congruence.
Qed.

Lemma recheck_is_never_stale_witness :
  let s := InfiniteList.run
             [(0%Z, InfiniteList.Layout sample_dom);
              (0%Z, InfiniteList.Render sample_validating_props);
              (1000%Z, InfiniteList.Render sample_server_props)] InfiniteList.init in
  exists q,
    InfiniteList.mounted s = Some q
    /\ InfiniteList.loadMore q = Some 9%nat
    /\ JS.truthy (InfiniteList.hasMore q) = true
    /\ JS.truthy (InfiniteList.isValidating q) = false
    /\ InfiniteList.enableInfiniteScrolling q = true.
Proof.
  apply (proj1 (recheck_is_never_stale
                  [(0%Z, InfiniteList.Layout sample_dom);
                   (0%Z, InfiniteList.Render sample_validating_props);
                   (1000%Z, InfiniteList.Render sample_server_props)])
               (InfiniteList.mkTimer 2 1300 (InfiniteList.ForceCheck sample_server_props))
               sample_server_props).
  - vm_compute. right. left. reflexivity.
  - reflexivity.
Defined.

(* ===================================================================== *)
(** ** The observer that watches the trigger *)
(* ===================================================================== *)

Lemma nth_error_update_at (A : Type) (f : A -> A) :
  forall (l : list A) (i j : nat),
    nth_error (InfiniteList.update_at f i l) j
    = if Nat.eqb i j then option_map f (nth_error l j) else nth_error l j.
Proof.
  induction l as [|x r IH]; intros i j.
  - destruct i; simpl; destruct j; simpl; try reflexivity; destruct (Nat.eqb _ _); reflexivity.
  - destruct i as [|i], j as [|j]; simpl; try reflexivity. apply IH.
Qed.

Lemma same_guard_deps_trans (a b c : InfiniteList.Props) :
  InfiniteList.same_guard_deps a b = true ->
  InfiniteList.same_guard_deps b c = true ->
  InfiniteList.same_guard_deps a c = true.
Proof.
  rewrite !same_guard_deps_eq.
  intros [A2 [A3 [A4 A5]]] [B2 [B3 [B4 B5]]]. repeat split; congruence.
Qed.

Lemma fire_watch (tm : InfiniteList.Timer) (s : InfiniteList.State) :
  InfiniteList.observers (InfiniteList.fire tm s) = InfiniteList.observers s
  /\ InfiniteList.observerRef (InfiniteList.fire tm s) = InfiniteList.observerRef s
  /\ InfiniteList.observerCleanup (InfiniteList.fire tm s) = InfiniteList.observerCleanup s.
Proof.
  unfold InfiniteList.fire, InfiniteList.call_loadMore.
  destruct (InfiniteList.tm_job tm) as [p n | p | inst p raw].
  - destruct (_ && _ && _); [destruct (InfiniteList.loadMore p)|]; repeat split.
  - destruct (InfiniteList.containerHeight _);
      [destruct (InfiniteList.shouldLoadMore _ _ _); [destruct (InfiniteList.loadMore p)|]|];
      repeat split.
  - destruct (InfiniteList.onSearch p); destruct (InfiniteList.alive _ _); repeat split.
Qed.

Section Watching.
Variable cur : option InfiniteList.Props.

Lemma watching_ext (s s' : InfiniteList.State) :
  InfiniteList.observers s' = InfiniteList.observers s ->
  InfiniteList.observerRef s' = InfiniteList.observerRef s ->
  InfiniteList.observerCleanup s' = InfiniteList.observerCleanup s ->
  watching cur s -> watching cur s'.
Proof. unfold watching. intros -> -> ->. auto. Qed.

Lemma watching_update_at (f : InfiniteList.Observer -> InfiniteList.Observer) (o : nat)
      (s : InfiniteList.State) :
  (forall ob, InfiniteList.obs_closure (f ob) = InfiniteList.obs_closure ob) ->
  InfiniteList.observerRef s = Some o ->
  watching cur s ->
  watching cur (InfiniteList.with_observers
                  (InfiniteList.update_at f o (InfiniteList.observers s)) s).
Proof.
  intros Hf Ho [H1 H2]. split; simpl.
  - intros j ob Hj Hne. rewrite nth_error_update_at in Hj.
    destruct (Nat.eqb o j) eqn:E.
    + apply Nat.eqb_eq in E. congruence.
    + eapply H1; eassumption.
  - intros j Hj. destruct (H2 j Hj) as [Hc [ob [q [Hn [Hq Hs]]]]].
    split; [exact Hc|]. rewrite Ho in Hj. injection Hj as <-.
    exists (f ob), q. rewrite nth_error_update_at, Nat.eqb_refl, Hn, Hf. auto.
Qed.

Lemma watching_fold_fire (ds : list InfiniteList.Timer) :
  forall s, watching cur s ->
            watching cur (fold_left (fun st tm => InfiniteList.fire tm st) ds s).
Proof.
  induction ds as [|tm ds IH]; intros s H; simpl; [exact H|].
  apply IH. destruct (fire_watch tm s) as [F1 [F2 F3]].
  apply (watching_ext s); assumption.
Qed.

Lemma watching_setLoadMoreRef (t : Z) (p : InfiniteList.Props) (node : option Node)
      (s : InfiniteList.State) :
  watching cur s -> watching cur (InfiniteList.setLoadMoreRef t p node s).
Proof.
  intros H. unfold InfiniteList.setLoadMoreRef.
  set (s1 := match InfiniteList.loadMoreRef s, InfiniteList.observerRef s with
             | Some old, Some o => InfiniteList.unobserve o old s
             | _, _ => s
             end).
  assert (H1 : watching cur s1).
  { unfold s1. destruct (InfiniteList.loadMoreRef s); [|exact H].
    destruct (InfiniteList.observerRef s) as [o|] eqn:Ho; [|exact H].
    apply watching_update_at; auto. }
  assert (H2 : watching cur (InfiniteList.with_loadMoreRef node s1)).
  { apply (watching_ext s1); auto. }
  destruct node as [n|]; [|exact H2].
  destruct (InfiniteList.observerRef (InfiniteList.with_loadMoreRef (Some n) s1))
    as [o|] eqn:Ho; [|exact H2].
  destruct (_ && _); [|exact H2].
  match goal with |- watching _ (InfiniteList.setTimeout _ _ _ ?x) =>
    apply (watching_ext x); try reflexivity end.
  apply watching_update_at; [|exact Ho|exact H2].
  intros ob. destruct (InfiniteList.mem _ _); reflexivity.
Qed.

Lemma watching_commit_refs (t : Z) (prev : option InfiniteList.Props)
      (p : InfiniteList.Props) (s : InfiniteList.State) :
  watching cur s -> watching cur (InfiniteList.commit_refs t prev p s).
Proof.
  intros H. unfold InfiniteList.commit_refs.
  destruct (InfiniteList.sentinel s), (InfiniteList.shows_sentinel p); try exact H.
  - destruct (InfiniteList.rebuilt prev p).
    + apply watching_setLoadMoreRef.
      match goal with
      |- watching _ (InfiniteList.with_fresh _ (InfiniteList.with_sentinel _ ?x)) =>
        apply (watching_ext x); try reflexivity end.
      apply watching_setLoadMoreRef, H.
    + destruct (match prev with Some q => _ | None => true end); [|exact H].
      apply watching_setLoadMoreRef, watching_setLoadMoreRef, H.
  - apply watching_setLoadMoreRef. apply (watching_ext s); auto.
  - apply watching_setLoadMoreRef. apply (watching_ext s); auto.
Qed.

(** The cleanup of the observer effect leaves no observer with a target. *)
Lemma watching_cleanup (s : InfiniteList.State) :
  watching cur s ->
  idle (InfiniteList.observer_cleanup s)
  /\ InfiniteList.loadMoreRef (InfiniteList.observer_cleanup s) = InfiniteList.loadMoreRef s.
Proof.
  intros [H1 H2]. unfold InfiniteList.observer_cleanup.
  assert (Hnone : InfiniteList.observerRef s = None -> idle s).
  { intros Hn o ob Hnth. destruct (InfiniteList.obs_targets ob) eqn:Et; [reflexivity|].
    assert (Hne : InfiniteList.obs_targets ob <> []) by (rewrite Et; discriminate).
    rewrite (H1 o ob Hnth Hne) in Hn. discriminate. }
  destruct (InfiniteList.observerRef s) as [o|] eqn:Ho.
  - destruct (H2 o eq_refl) as [Hc _]. rewrite Hc. split; [|reflexivity].
    intros j ob Hnth. simpl in Hnth. rewrite nth_error_update_at in Hnth.
    destruct (Nat.eqb o j) eqn:E.
    + destruct (nth_error (InfiniteList.observers s) j); simpl in Hnth; [|discriminate].
      injection Hnth as <-. reflexivity.
    + destruct (InfiniteList.obs_targets ob) eqn:Et; [reflexivity|].
      assert (Hne : InfiniteList.obs_targets ob <> []) by (rewrite Et; discriminate).
      specialize (H1 j ob Hnth Hne). injection H1 as ->.
      rewrite Nat.eqb_refl in E. discriminate.
  - destruct (InfiniteList.observerCleanup s); split; auto.
Qed.
End Watching.

(** Past its early return the observer effect makes the one observer
    that watches, with the props of the render. *)
Lemma watching_effect (p : InfiniteList.Props) (s : InfiniteList.State) :
  sets_observer p -> idle s -> watching (Some p) (InfiniteList.observer_effect p s).
Proof.
  intros [He Hl] Hidle. unfold InfiniteList.observer_effect.
  rewrite He. destruct (InfiniteList.loadMore p) as [f|] eqn:El; [|contradiction].
  simpl negb. cbn [orb is_defined].
  set (l := InfiniteList.observers s).
  set (s1 := InfiniteList.with_observerRef (Some (List.length l))
               (InfiniteList.with_observers (l ++ [InfiniteList.mkObserver p []]) s)).
  assert (Hlow : forall (g : InfiniteList.Observer -> InfiniteList.Observer) j ob,
             nth_error (InfiniteList.update_at g (List.length l)
                                               (l ++ [InfiniteList.mkObserver p []])) j = Some ob ->
             InfiniteList.obs_targets ob <> [] -> j = List.length l).
  { intros g j ob Hnth Hne. rewrite nth_error_update_at in Hnth.
    destruct (Nat.eqb (List.length l) j) eqn:E; [apply Nat.eqb_eq in E; auto|].
    apply Nat.eqb_neq in E.
    destruct (Nat.lt_ge_cases j (List.length l)) as [Hlt|Hge].
    - rewrite nth_error_app1 in Hnth by exact Hlt.
      exfalso. apply Hne. apply (Hidle j ob Hnth).
    - rewrite nth_error_app2 in Hnth by exact Hge.
      destruct (j - List.length l)%nat as [|k] eqn:Ek; [lia|].
      simpl in Hnth. destruct k; discriminate. }
  assert (Hat : nth_error (l ++ [InfiniteList.mkObserver p []]) (List.length l)
                = Some (InfiniteList.mkObserver p [])).
  { rewrite nth_error_app2 by lia. rewrite Nat.sub_diag. reflexivity. }
  destruct (InfiniteList.loadMoreRef s1) as [n|].
  - split; simpl.
    + intros j ob Hnth Hne. f_equal. symmetry. eapply Hlow; eassumption.
    + intros j Hj. injection Hj as <-. split; [reflexivity|].
      eexists. exists p. rewrite nth_error_update_at, Nat.eqb_refl.
      fold l. rewrite Hat. simpl. split; [reflexivity|]. split; [reflexivity|].
      apply same_guard_deps_eq. repeat split.
  - split; simpl.
    + intros j ob Hnth Hne. f_equal. symmetry.
      apply (Hlow (fun ob => ob) j ob); [|exact Hne].
      rewrite nth_error_update_at. destruct (Nat.eqb _ _); [|exact Hnth].
      rewrite Hnth. reflexivity.
    + intros j Hj. injection Hj as <-. split; [reflexivity|].
      exists (InfiniteList.mkObserver p []), p. fold l. rewrite Hat.
      split; [reflexivity|]. split; [reflexivity|].
      apply same_guard_deps_eq. repeat split.
Qed.

Lemma watching_render (t : Z) (p : InfiniteList.Props) (s : InfiniteList.State) :
  sets_observer p ->
  watching (InfiniteList.mounted s) s ->
  watching (Some p) (InfiniteList.render_commit t p s).
Proof.
  intros Hp H. unfold InfiniteList.render_commit.
  match goal with |- watching _ (InfiniteList.with_mounted _ ?x) =>
    apply (watching_ext (Some p) x); try reflexivity end.
  unfold InfiniteList.commit_effects.
  set (prev := InfiniteList.mounted s) in *.
  set (s0 := InfiniteList.memo_handleSearch prev p s).
  assert (H0 : watching prev s0).
  { unfold s0, InfiniteList.memo_handleSearch.
    destruct prev as [q|]; [destruct (InfiniteList.same_ref _ _)|];
      try exact H; apply (watching_ext _ s); auto. }
  set (s1 := InfiniteList.commit_refs t prev p s0).
  assert (H1 : watching prev s1) by apply watching_commit_refs, H0.
  set (s2 := if match prev with
                | Some q => negb (InfiniteList.same_guard_deps q p)
                | None => true
                end
             then InfiniteList.observer_effect p (InfiniteList.observer_cleanup s1)
             else s1).
  assert (H2 : watching (Some p) s2).
  { unfold s2.
    destruct (match prev with
              | Some q => negb (InfiniteList.same_guard_deps q p)
              | None => true
              end) eqn:Hch.
    - apply watching_effect; [exact Hp|]. apply (watching_cleanup prev s1 H1).
    - destruct prev as [q|]; [|discriminate]. apply negb_false_iff in Hch.
      destruct H1 as [G1 G2]. split; [exact G1|].
      intros o Ho. destruct (G2 o Ho) as [Hc [ob [q' [Hn [Hq Hs]]]]].
      injection Hq as <-. split; [exact Hc|]. exists ob, p.
      split; [exact Hn|]. split; [reflexivity|].
      eapply same_guard_deps_trans; eassumption. }
  destruct (match prev with
            | Some q => negb (InfiniteList.same_recheck_deps q p)
            | None => true
            end); [|exact H2].
  unfold InfiniteList.recheck_effect, InfiniteList.recheck_cleanup.
  destruct (_ && _ && _ && _); destruct (InfiniteList.recheckCleanup s2);
    apply (watching_ext _ s2); auto.
Qed.

Lemma watching_advance (now : Z) (s : InfiniteList.State) :
  watching (InfiniteList.mounted s) s ->
  watching (InfiniteList.mounted (InfiniteList.advance now s)) (InfiniteList.advance now s).
Proof.
  intros H. unfold InfiniteList.advance.
  match goal with |- context [fold_left _ ?ds ?st] =>
    destruct (fold_fire_frame ds st) as [_ [[F2 _] _]] end.
  simpl in F2. rewrite F2.
  apply watching_fold_fire. apply (watching_ext _ s); auto.
Qed.

Lemma watching_handle (t : Z) (e : InfiniteList.Event) (s : InfiniteList.State) :
  e <> InfiniteList.Unmount ->
  (forall p, e = InfiniteList.Render p -> sets_observer p) ->
  watching (InfiniteList.mounted s) s ->
  watching (InfiniteList.mounted (InfiniteList.handle t e s)) (InfiniteList.handle t e s).
Proof.
  intros Hu Hr H. destruct e as [p | | o first rest | d | raw]; simpl.
  - apply watching_render; [apply Hr; reflexivity | exact H].
  - contradiction.
  - destruct (nth_error _ o) as [ob|]; [|exact H].
    destruct (InfiniteList.mem _ _); [|exact H].
    unfold InfiniteList.observer_callback.
    destruct (_ && _ && _); [|exact H].
    unfold InfiniteList.call_loadMore.
    destruct (InfiniteList.loadMore _); [|exact H].
    apply (watching_ext _ s); auto.
  - apply (watching_ext _ s); auto.
  - unfold InfiniteList.table_input.
    destruct (InfiniteList.mounted s) as [p|] eqn:Hm; [|rewrite Hm; exact H].
    destruct (InfiniteList.shows_table p); [|rewrite Hm; exact H].
    destruct (InfiniteList.table_handler p) as [w|f];
      simpl; rewrite Hm; apply (watching_ext _ s); auto.
Qed.

Lemma watching_run (evs : list (Z * InfiniteList.Event)) :
  (forall t e, In (t, e) evs -> e <> InfiniteList.Unmount) ->
  (forall t p, In (t, InfiniteList.Render p) evs -> sets_observer p) ->
  forall s, watching (InfiniteList.mounted s) s ->
            watching (InfiniteList.mounted (InfiniteList.run evs s)) (InfiniteList.run evs s).
Proof.
  induction evs as [|[t e] evs IH]; intros Hu Hr s H; simpl; [exact H|].
  apply IH.
  - intros t' e' Hin. apply (Hu t' e'). right. exact Hin.
  - intros t' p Hin. apply (Hr t' p). right. exact Hin.
  - apply watching_handle.
    + apply (Hu t e). left. reflexivity.
    + intros p ->. apply (Hr t p). left. reflexivity.
    + apply watching_advance, H.
Qed.

Lemma watching_unmount (t : Z) (s : InfiniteList.State) :
  watching (InfiniteList.mounted s) s -> idle (InfiniteList.unmount t s).
Proof.
  intros H. unfold InfiniteList.unmount.
  destruct (InfiniteList.mounted s) as [q|] eqn:Hm.
  - set (s1 := match InfiniteList.sentinel s with
               | Some _ => InfiniteList.setLoadMoreRef t q None (InfiniteList.with_sentinel None s)
               | None => s
               end).
    assert (H1 : watching (Some q) s1).
    { unfold s1. destruct (InfiniteList.sentinel s); [|exact H].
      apply watching_setLoadMoreRef. apply (watching_ext _ s); auto. }
    destruct (watching_cleanup (Some q) s1 H1) as [Hidle _].
    intros o ob Hnth. apply (Hidle o ob).
    unfold InfiniteList.recheck_cleanup in Hnth.
    destruct (InfiniteList.recheckCleanup _); exact Hnth.
  - destruct H as [H1 H2]. intros o ob Hnth.
    destruct (InfiniteList.obs_targets ob) eqn:Et; [reflexivity|].
    assert (Hne : InfiniteList.obs_targets ob <> []) by (rewrite Et; discriminate).
    destruct (H2 o (H1 o ob Hnth Hne)) as [_ [_ [q [_ [Hq _]]]]]. discriminate.
Qed.

(** X11. While every render has infinite scrolling on and a [loadMore],
    and the list is not torn down, no observer is left behind: an observer
    that watches an element is the one of [observerRef], and the values
    its callback closed over, [loadMore], [hasMore] and [isValidating],
    are those of the props of the last render. Once the list is torn down
    no observer watches anything. *)
Theorem one_observer_with_the_current_guard :
  forall (evs : list (Z * InfiniteList.Event)),
    (forall t e, In (t, e) evs -> e <> InfiniteList.Unmount) ->
    (forall t p, In (t, InfiniteList.Render p) evs -> sets_observer p) ->
    let s := InfiniteList.run evs InfiniteList.init in
    (forall o ob,
        nth_error (InfiniteList.observers s) o = Some ob ->
        InfiniteList.obs_targets ob <> [] ->
        InfiniteList.observerRef s = Some o
        /\ exists q,
            InfiniteList.mounted s = Some q
            /\ InfiniteList.loadMore (InfiniteList.obs_closure ob) = InfiniteList.loadMore q
            /\ InfiniteList.hasMore (InfiniteList.obs_closure ob) = InfiniteList.hasMore q
            /\ InfiniteList.isValidating (InfiniteList.obs_closure ob)
               = InfiniteList.isValidating q)
    /\ (forall t, idle (InfiniteList.handle t InfiniteList.Unmount (InfiniteList.advance t s))).
Proof.
  intros evs Hu Hr s.
  assert (H : watching (InfiniteList.mounted s) s).
  { apply watching_run; try assumption. split.
    - intros o ob Hnth. destruct o; discriminate.
    - intros o Ho. discriminate. }
  split.
  - intros o ob Hnth Hne. destruct H as [H1 H2].
    pose proof (H1 o ob Hnth Hne) as Ho. split; [exact Ho|].
    destruct (H2 o Ho) as [_ [ob' [q [Hn [Hq Hs]]]]].
    rewrite Hnth in Hn. injection Hn as <-.
    apply same_guard_deps_eq in Hs. destruct Hs as [_ [E2 [E3 E4]]].
    exists q. auto.
  - intros t. simpl. apply watching_unmount, watching_advance, H.
Qed.

Lemma one_observer_with_the_current_guard_witness :
  let s := InfiniteList.run
             [(0%Z, InfiniteList.Layout sample_dom);
              (0%Z, InfiniteList.Render sample_validating_props);
              (1000%Z, InfiniteList.Render sample_server_props)] InfiniteList.init in
  (InfiniteList.observerRef s = Some 1%nat
   /\ exists q,
       InfiniteList.mounted s = Some q
       /\ InfiniteList.loadMore sample_server_props = InfiniteList.loadMore q
       /\ InfiniteList.hasMore sample_server_props = InfiniteList.hasMore q
       /\ InfiniteList.isValidating sample_server_props = InfiniteList.isValidating q)
  /\ idle (InfiniteList.handle 2000 InfiniteList.Unmount (InfiniteList.advance 2000 s)).
Proof.
  assert (Hu : forall (t : Z) (e : InfiniteList.Event),
             In (t, e) [(0%Z, InfiniteList.Layout sample_dom);
                        (0%Z, InfiniteList.Render sample_validating_props);
                        (1000%Z, InfiniteList.Render sample_server_props)] ->
             e <> InfiniteList.Unmount).
  { intros t e [H|[H|[H|[]]]]; injection H as _ <-; discriminate. }
  assert (Hr : forall (t : Z) (p : InfiniteList.Props),
             In (t, InfiniteList.Render p)
                [(0%Z, InfiniteList.Layout sample_dom);
                 (0%Z, InfiniteList.Render sample_validating_props);
                 (1000%Z, InfiniteList.Render sample_server_props)] ->
             sets_observer p).
  { intros t p [H|[H|[H|[]]]]; try discriminate; injection H as _ <-;
      split; [reflexivity | discriminate | reflexivity | discriminate]. }
  split.
  - apply (proj1 (one_observer_with_the_current_guard _ Hu Hr) 1%nat
                 (InfiniteList.mkObserver sample_server_props [0%nat])).
    + reflexivity.
    + discriminate.
  - apply (proj2 (one_observer_with_the_current_guard _ Hu Hr) 2000%Z).
Defined.

(* ===================================================================== *)
(** ** Infinite scrolling switched off and on again *)
(* ===================================================================== *)

Lemma fire_wiring (tm : InfiniteList.Timer) (s : InfiniteList.State) :
  wiring (InfiniteList.fire tm s) = wiring s.
Proof.
  unfold InfiniteList.fire, InfiniteList.call_loadMore.
  destruct (InfiniteList.tm_job tm) as [p n | p | inst p raw].
  - destruct (_ && _ && _); [destruct (InfiniteList.loadMore p)|]; reflexivity.
  - destruct (InfiniteList.containerHeight _);
      [destruct (InfiniteList.shouldLoadMore _ _ _); [destruct (InfiniteList.loadMore p)|]|];
      reflexivity.
  - destruct (InfiniteList.onSearch p); destruct (InfiniteList.alive _ _); reflexivity.
Qed.

Lemma advance_wiring (now : Z) (s : InfiniteList.State) :
  wiring (InfiniteList.advance now s) = wiring s.
Proof.
  unfold InfiniteList.advance.
  set (ds := due_now InfiniteList.tm_due now (InfiniteList.timers s)).
  set (s0 := InfiniteList.with_timers _ s).
  change (wiring s) with (wiring s0). clearbody s0. clearbody ds.
  revert s0. induction ds as [|tm ds IH]; intros s0; simpl; [reflexivity|].
  rewrite IH. apply fire_wiring.
Qed.

Lemma render_commit_wiring (t : Z) (p : InfiniteList.Props) (s : InfiniteList.State) :
  wiring (InfiniteList.render_commit t p s)
  = let prev := InfiniteList.mounted s in
    let s1 := InfiniteList.commit_refs t prev p (InfiniteList.memo_handleSearch prev p s) in
    let x := if match prev with
                | Some q => negb (InfiniteList.same_guard_deps q p)
                | None => true
                end
             then InfiniteList.observer_effect p (InfiniteList.observer_cleanup s1)
             else s1 in
    (InfiniteList.observers x, InfiniteList.observerRef x, InfiniteList.loadMoreRef x,
     InfiniteList.sentinel x, InfiniteList.observerCleanup x, Some p).
Proof.
  unfold InfiniteList.render_commit, InfiniteList.commit_effects.
  destruct (match InfiniteList.mounted s with
            | Some q => negb (InfiniteList.same_recheck_deps q p)
            | None => true
            end); [|reflexivity].
  unfold InfiniteList.recheck_effect, InfiniteList.recheck_cleanup.
  destruct (_ && _ && _ && _);
    match goal with |- context [InfiniteList.recheckCleanup ?x] =>
      destruct (InfiniteList.recheckCleanup x) end; reflexivity.
Qed.

Lemma render_wiring_third (t : Z) (p1 p2 p3 : InfiniteList.Props) (s : InfiniteList.State) :
  InfiniteList.enableInfiniteScrolling p2 = false ->
  sets_observer p3 ->
  InfiniteList.shows_sentinel p3 = true ->
  wiring s = ([InfiniteList.mkObserver p1 []], Some 0%nat, None, None, false, Some p2) ->
  wiring (InfiniteList.render_commit t p3 s)
  = ([InfiniteList.mkObserver p1 [InfiniteList.fresh s];
      InfiniteList.mkObserver p3 [InfiniteList.fresh s]],
     Some 1%nat, Some (InfiniteList.fresh s), Some (InfiniteList.fresh s), true, Some p3).
Proof.
  intros H2 [He Hl] Hshow Hw.
  assert (Hg : InfiniteList.same_guard_deps p2 p3 = false).
  { unfold InfiniteList.same_guard_deps. rewrite H2, He. reflexivity. }
  assert (Hh : JS.truthy (InfiniteList.hasMore p3) = true).
  { unfold InfiniteList.shows_sentinel in Hshow. apply andb_true_iff in Hshow. tauto. }
  rewrite render_commit_wiring.
  destruct s as [m st db obs oref lref sen ocl rcl tms fr dm lg].
  unfold wiring in Hw. simpl in Hw. injection Hw as -> -> -> -> -> ->.
  cbn [InfiniteList.mounted]. cbv zeta. rewrite Hg. cbn [negb].
  unfold InfiniteList.observer_effect. rewrite He.
  destruct (InfiniteList.loadMore p3) as [f|]; [|contradiction].
  cbn [negb orb is_defined].
  unfold InfiniteList.commit_refs, InfiniteList.memo_handleSearch.
  rewrite Hshow.
  destruct (InfiniteList.same_ref _ _); cbn; rewrite Hh, He; cbn; reflexivity.
Qed.

Lemma render_wiring_first (t : Z) (p1 : InfiniteList.Props) (s : InfiniteList.State) :
  sets_observer p1 ->
  wiring s = ([], None, None, None, false, None) ->
  exists r tg,
    wiring (InfiniteList.render_commit t p1 s)
    = ([InfiniteList.mkObserver p1 tg], Some 0%nat, r, r, true, Some p1).
Proof.
  intros [He Hl] Hw.
  rewrite render_commit_wiring.
  destruct s as [m st db obs oref lref sen ocl rcl tms fr dm lg].
  unfold wiring in Hw. simpl in Hw. injection Hw as -> -> -> -> -> ->.
  cbn [InfiniteList.mounted]. cbv zeta.
  unfold InfiniteList.observer_effect. rewrite He.
  destruct (InfiniteList.loadMore p1) as [f|]; [|contradiction].
  cbn [negb orb is_defined].
  unfold InfiniteList.commit_refs, InfiniteList.memo_handleSearch.
  cbn [InfiniteList.sentinel InfiniteList.with_debounced].
  destruct (InfiniteList.shows_sentinel p1); cbn; eexists; eexists; reflexivity.
Qed.

Lemma render_wiring_second (t : Z) (p1 p2 : InfiniteList.Props) (s : InfiniteList.State)
      (r : option Node) (tg : list Node) :
  InfiniteList.enableInfiniteScrolling p1 = true ->
  InfiniteList.enableInfiniteScrolling p2 = false ->
  wiring s = ([InfiniteList.mkObserver p1 tg], Some 0%nat, r, r, true, Some p1) ->
  wiring (InfiniteList.render_commit t p2 s)
  = ([InfiniteList.mkObserver p1 []], Some 0%nat, None, None, false, Some p2).
Proof.
  intros H1 H2 Hw.
  assert (Hg : InfiniteList.same_guard_deps p1 p2 = false).
  { unfold InfiniteList.same_guard_deps. rewrite H1, H2. reflexivity. }
  assert (Hshow : InfiniteList.shows_sentinel p2 = false).
  { unfold InfiniteList.shows_sentinel. rewrite H2. apply andb_false_iff. left.
    apply andb_false_r. }
  rewrite render_commit_wiring.
  destruct s as [m st db obs oref lref sen ocl rcl tms fr dm lg].
  unfold wiring in Hw. simpl in Hw. injection Hw as -> -> -> -> -> ->.
  cbn [InfiniteList.mounted]. cbv zeta. rewrite Hg. cbn [negb].
  unfold InfiniteList.observer_effect. rewrite H2. cbn [negb orb].
  unfold InfiniteList.commit_refs, InfiniteList.memo_handleSearch.
  rewrite Hshow.
  destruct (InfiniteList.same_ref _ _); destruct r as [n|]; cbn; reflexivity.
Qed.

(** X12. Switching infinite scrolling off and on again leaves an
    observer behind. After a render that sets up the observer, a render
    with infinite scrolling off and a render that shows the trigger again,
    the observer of the first render watches the new trigger beside the
    new observer: the callback ref of the third render observes with the
    disconnected observer that [observerRef] still holds, the cleanup of
    the second render returned nothing to disconnect it, and the effect
    then replaces [observerRef]. An intersection reported to it calls the
    [loadMore] of the first render under the guard values of the first
    render. *)
Theorem switching_off_and_on_leaves_an_observer :
  forall (p1 p2 p3 : InfiniteList.Props) (t1 t2 t3 : Z),
    sets_observer p1 ->
    InfiniteList.enableInfiniteScrolling p2 = false ->
    sets_observer p3 ->
    InfiniteList.shows_sentinel p3 = true ->
    let s := InfiniteList.run [(t1, InfiniteList.Render p1);
                               (t2, InfiniteList.Render p2);
                               (t3, InfiniteList.Render p3)] InfiniteList.init in
    exists n,
      InfiniteList.sentinel s = Some n
      /\ InfiniteList.observers s
         = [InfiniteList.mkObserver p1 [n]; InfiniteList.mkObserver p3 [n]]
      /\ InfiniteList.observerRef s = Some 1%nat
      /\ forall (t : Z) (first : InfiniteList.IntersectionObserverEntry)
                (rest : list InfiniteList.IntersectionObserverEntry) (f : JS.Ref),
          InfiniteList.target first = n ->
          InfiniteList.isIntersecting first = true ->
          JS.truthy (InfiniteList.hasMore p1) = true ->
          JS.truthy (InfiniteList.isValidating p1) = false ->
          InfiniteList.loadMore p1 = Some f ->
          InfiniteList.loadMore_calls
            (InfiniteList.handle t (InfiniteList.Intersect 0 first rest)
                                 (InfiniteList.advance t s))
          = InfiniteList.loadMore_calls (InfiniteList.advance t s) ++ [(t, f)].
Proof.
  intros p1 p2 p3 t1 t2 t3 Hp1 Hp2 Hp3 Hshow s.
  unfold s. cbn [InfiniteList.run InfiniteList.handle].
  set (a1 := InfiniteList.advance t1 InfiniteList.init).
  destruct (render_wiring_first t1 p1 a1 Hp1) as [r [tg Hw1]].
  { unfold a1. rewrite advance_wiring. reflexivity. }
  set (s1 := InfiniteList.render_commit t1 p1 a1) in *.
  set (a2 := InfiniteList.advance t2 s1).
  assert (Hw2 : wiring (InfiniteList.render_commit t2 p2 a2)
                = ([InfiniteList.mkObserver p1 []], Some 0%nat, None, None, false, Some p2)).
  { apply (render_wiring_second t2 p1 p2 a2 r tg); [apply Hp1 | exact Hp2 |].
    unfold a2. rewrite advance_wiring. exact Hw1. }
  set (s2 := InfiniteList.render_commit t2 p2 a2) in *.
  set (a3 := InfiniteList.advance t3 s2).
  assert (Hw3 : wiring a3
                = ([InfiniteList.mkObserver p1 []], Some 0%nat, None, None, false, Some p2)).
  { unfold a3. rewrite advance_wiring. exact Hw2. }
  pose proof (render_wiring_third t3 p1 p2 p3 a3 Hp2 Hp3 Hshow Hw3) as Hw.
  set (s3 := InfiniteList.render_commit t3 p3 a3) in *.
  unfold wiring in Hw. injection Hw as Hobs Href _ Hsen _.
  exists (InfiniteList.fresh a3). split; [exact Hsen|]. split; [exact Hobs|].
  split; [exact Href|].
  intros t first rest f Ht Hi Hm Hv Hf.
  pose proof (advance_wiring t s3) as Ha. unfold wiring in Ha.
  injection Ha as Ha _ _ _ _ _. rewrite Ha, Hobs. cbn [nth_error].
  cbn [InfiniteList.obs_targets InfiniteList.obs_closure].
  rewrite Ht. unfold InfiniteList.mem. cbn [existsb]. rewrite Nat.eqb_refl. cbn [orb].
  unfold InfiniteList.observer_callback, InfiniteList.call_loadMore.
  rewrite Hi, Hm, Hv, Hf. cbn [andb negb].
  unfold InfiniteList.loadMore_calls, InfiniteList.emit. cbn [InfiniteList.log InfiniteList.with_log].
  rewrite flat_map_app. reflexivity.
Qed.

Lemma switching_off_and_on_leaves_an_observer_witness :
  let s := InfiniteList.run [(0%Z, InfiniteList.Render sample_server_props);
                             (5000%Z, InfiniteList.Render sample_eager_props);
                             (9000%Z, InfiniteList.Render sample_validating_props)]
                            InfiniteList.init in
  exists n,
    InfiniteList.sentinel s = Some n
    /\ InfiniteList.observers s
       = [InfiniteList.mkObserver sample_server_props [n];
          InfiniteList.mkObserver sample_validating_props [n]]
    /\ InfiniteList.observerRef s = Some 1%nat
    /\ forall (t : Z) (first : InfiniteList.IntersectionObserverEntry)
              (rest : list InfiniteList.IntersectionObserverEntry) (f : JS.Ref),
        InfiniteList.target first = n ->
        InfiniteList.isIntersecting first = true ->
        JS.truthy (InfiniteList.hasMore sample_server_props) = true ->
        JS.truthy (InfiniteList.isValidating sample_server_props) = false ->
        InfiniteList.loadMore sample_server_props = Some f ->
        InfiniteList.loadMore_calls
          (InfiniteList.handle t (InfiniteList.Intersect 0 first rest)
                               (InfiniteList.advance t s))
        = InfiniteList.loadMore_calls (InfiniteList.advance t s) ++ [(t, f)].
Proof.
  apply (switching_off_and_on_leaves_an_observer
           sample_server_props sample_eager_props sample_validating_props 0 5000 9000).
  - split; [reflexivity | discriminate].
  - reflexivity.
  - split; [reflexivity | discriminate].
  - reflexivity.
Defined.

(* ===================================================================== *)
(** ** The guard of the continuation, at the call *)
(* ===================================================================== *)

Lemma setLoadMoreRef_log (t : Z) (p : InfiniteList.Props) (node : option Node)
      (s : InfiniteList.State) :
  InfiniteList.log (InfiniteList.setLoadMoreRef t p node s) = InfiniteList.log s.
Proof.
  unfold InfiniteList.setLoadMoreRef.
  set (s1 := match InfiniteList.loadMoreRef s, InfiniteList.observerRef s with
             | Some old, Some o => InfiniteList.unobserve o old s
             | _, _ => s
             end).
  assert (H1 : InfiniteList.log s1 = InfiniteList.log s).
  { unfold s1. destruct (InfiniteList.loadMoreRef s), (InfiniteList.observerRef s);
      reflexivity. }
  destruct node as [n|]; [|exact H1].
  destruct (InfiniteList.observerRef (InfiniteList.with_loadMoreRef (Some n) s1));
    [|exact H1].
  destruct (_ && _); exact H1.
Qed.

Lemma commit_refs_log (t : Z) (prev : option InfiniteList.Props) (p : InfiniteList.Props)
      (s : InfiniteList.State) :
  InfiniteList.log (InfiniteList.commit_refs t prev p s) = InfiniteList.log s.
Proof.
  unfold InfiniteList.commit_refs.
  destruct (InfiniteList.sentinel s), (InfiniteList.shows_sentinel p); try reflexivity.
  - destruct (InfiniteList.rebuilt prev p).
    + rewrite setLoadMoreRef_log.
      cbn [InfiniteList.log InfiniteList.with_fresh InfiniteList.with_sentinel].
      apply setLoadMoreRef_log.
    + destruct (match prev with Some q => _ | None => true end); [|reflexivity].
      rewrite !setLoadMoreRef_log. reflexivity.
  - rewrite setLoadMoreRef_log. reflexivity.
  - rewrite setLoadMoreRef_log. reflexivity.
Qed.

Lemma observer_cleanup_log (s : InfiniteList.State) :
  InfiniteList.log (InfiniteList.observer_cleanup s) = InfiniteList.log s.
Proof.
  unfold InfiniteList.observer_cleanup.
  destruct (InfiniteList.observerCleanup s), (InfiniteList.observerRef s); reflexivity.
Qed.

Lemma observer_effect_log (p : InfiniteList.Props) (s : InfiniteList.State) :
  InfiniteList.log (InfiniteList.observer_effect p s) = InfiniteList.log s.
Proof.
  unfold InfiniteList.observer_effect.
  destruct (_ || _); [reflexivity|]. simpl.
  destruct (InfiniteList.loadMoreRef s); reflexivity.
Qed.

Lemma recheck_cleanup_log (s : InfiniteList.State) :
  InfiniteList.log (InfiniteList.recheck_cleanup s) = InfiniteList.log s.
Proof.
  unfold InfiniteList.recheck_cleanup.
  destruct (InfiniteList.recheckCleanup s); reflexivity.
Qed.

Lemma recheck_effect_log (t : Z) (p : InfiniteList.Props) (s : InfiniteList.State) :
  InfiniteList.log (InfiniteList.recheck_effect t p s) = InfiniteList.log s.
Proof.
  unfold InfiniteList.recheck_effect. destruct (_ && _ && _ && _); reflexivity.
Qed.

Lemma render_commit_log (t : Z) (p : InfiniteList.Props) (s : InfiniteList.State) :
  InfiniteList.log (InfiniteList.render_commit t p s) = InfiniteList.log s.
Proof.
  unfold InfiniteList.render_commit, InfiniteList.commit_effects.
  cbn [InfiniteList.log InfiniteList.with_mounted].
  assert (H0 : InfiniteList.log (InfiniteList.memo_handleSearch (InfiniteList.mounted s) p s)
               = InfiniteList.log s).
  { unfold InfiniteList.memo_handleSearch.
    destruct (InfiniteList.mounted s); [destruct (InfiniteList.same_ref _ _)|]; reflexivity. }
  destruct (match InfiniteList.mounted s with
            | Some q => negb (InfiniteList.same_recheck_deps q p)
            | None => true
            end);
    destruct (match InfiniteList.mounted s with
              | Some q => negb (InfiniteList.same_guard_deps q p)
              | None => true
              end);
    rewrite ?recheck_effect_log, ?recheck_cleanup_log, ?observer_effect_log,
      ?observer_cleanup_log, ?commit_refs_log; exact H0.
Qed.

Lemma unmount_log (t : Z) (s : InfiniteList.State) :
  InfiniteList.log (InfiniteList.unmount t s) = InfiniteList.log s.
Proof.
  unfold InfiniteList.unmount.
  destruct (InfiniteList.mounted s); [|reflexivity].
  cbn [InfiniteList.log InfiniteList.with_mounted InfiniteList.with_searchTerm
       InfiniteList.with_observerRef InfiniteList.with_loadMoreRef
       InfiniteList.with_recheckCleanup].
  rewrite recheck_cleanup_log.
  cbn [InfiniteList.log InfiniteList.with_observerCleanup].
  rewrite observer_cleanup_log.
  destruct (InfiniteList.sentinel s); [|reflexivity].
  rewrite setLoadMoreRef_log. reflexivity.
Qed.

Lemma calls_in_app (a b : list (Z * Action InfiniteList.Props)) :
  calls_in (a ++ b) = calls_in a ++ calls_in b.
Proof. unfold calls_in. apply flat_map_app. Qed.

(** What a step that only adds to the log is audited as. *)
Lemma admitted_app (trigger : Trigger) (s s' : InfiniteList.State)
      (new : list (Z * Action InfiniteList.Props)) :
  InfiniteList.log s' = InfiniteList.log s ++ new ->
  admitted trigger s s'
  = map (fun call => mkAdmission trigger (fst call) (snd call) (InfiniteList.mounted s))
        (calls_in new).
Proof.
  intros H. unfold admitted. rewrite H, skipn_app, skipn_all, Nat.sub_diag. reflexivity.
Qed.

Lemma admitted_calls (trigger : Trigger) (s s' : InfiniteList.State)
      (new : list (Z * Action InfiniteList.Props)) :
  InfiniteList.log s' = InfiniteList.log s ++ new ->
  map call_of (admitted trigger s s') = calls_in new.
Proof.
  intros H. rewrite (admitted_app trigger s s' new H), map_map.
  rewrite <- (map_id (calls_in new)) at 2. apply map_ext. intros [t f]. reflexivity.
Qed.

(** What a timer logs when it fires: the two checks log one call of the
    [loadMore] of their closure or nothing, the trailing call of the
    debounced function logs no call of [loadMore]. *)
Lemma fire_log (tm : InfiniteList.Timer) (s : InfiniteList.State) :
  exists new,
    InfiniteList.log (InfiniteList.fire tm s) = InfiniteList.log s ++ new
    /\ match InfiniteList.tm_job tm with
       | InfiniteList.RefCheck p _ | InfiniteList.ForceCheck p =>
           new = []
           \/ exists f, InfiniteList.loadMore p = Some f
                        /\ new = [(InfiniteList.tm_due tm, LoadMore f p)]
       | InfiniteList.Trailing _ _ _ => calls_in new = []
       end.
Proof.
  unfold InfiniteList.fire, InfiniteList.call_loadMore.
  destruct (InfiniteList.tm_job tm) as [p n | p | inst p raw].
  - destruct (_ && _ && _); [|exists []; rewrite app_nil_r; auto].
    destruct (InfiniteList.loadMore p) as [f|]; [|exists []; rewrite app_nil_r; auto].
    eexists. split; [reflexivity|]. right. exists f. auto.
  - destruct (InfiniteList.containerHeight _); [|exists []; rewrite app_nil_r; auto].
    destruct (InfiniteList.shouldLoadMore _ _ _); [|exists []; rewrite app_nil_r; auto].
    destruct (InfiniteList.loadMore p) as [f|]; [|exists []; rewrite app_nil_r; auto].
    eexists. split; [reflexivity|]. right. exists f. auto.
  - destruct (InfiniteList.onSearch p) as [f|], (InfiniteList.alive inst s); simpl;
      rewrite <- ?app_assoc; eexists; split; reflexivity.
Qed.

Lemma fire_mounted (tm : InfiniteList.Timer) (s : InfiniteList.State) :
  InfiniteList.mounted (InfiniteList.fire tm s) = InfiniteList.mounted s.
Proof. destruct (fire_frame tm s) as [_ [[H _] _]]. exact H. Qed.

(** Every call the timers make is audited. *)
Lemma audit_timers_calls (ds : list InfiniteList.Timer) :
  forall s,
    calls_in (InfiniteList.log (fold_left (fun st tm => InfiniteList.fire tm st) ds s))
    = calls_in (InfiniteList.log s) ++ map call_of (audit_timers ds s).
Proof.
  induction ds as [|tm ds IH]; intros s; simpl; [rewrite app_nil_r; reflexivity|].
  rewrite IH, map_app, app_assoc. f_equal.
  destruct (fire_log tm s) as [new [Hlog Hnew]]. rewrite Hlog, calls_in_app. f_equal.
  destruct (InfiniteList.tm_job tm) as [p n | p | inst p raw]; simpl.
  - symmetry. apply admitted_calls, Hlog.
  - symmetry. apply admitted_calls, Hlog.
  - exact Hnew.
Qed.

Lemma audit_advance_calls (now : Z) (s : InfiniteList.State) :
  calls_in (InfiniteList.log (InfiniteList.advance now s))
  = calls_in (InfiniteList.log s) ++ map call_of (audit_advance now s).
Proof. unfold InfiniteList.advance, audit_advance. rewrite audit_timers_calls. reflexivity. Qed.

Lemma audit_handle_calls (t : Z) (e : InfiniteList.Event) (s : InfiniteList.State) :
  calls_in (InfiniteList.log (InfiniteList.handle t e s))
  = calls_in (InfiniteList.log s) ++ map call_of (audit_handle t e s).
Proof.
  destruct e as [p | | o first rest | d | raw]; cbn [audit_handle map].
  - cbn [InfiniteList.handle]. rewrite render_commit_log, app_nil_r. reflexivity.
  - cbn [InfiniteList.handle]. rewrite unmount_log, app_nil_r. reflexivity.
  - assert (H : exists new, InfiniteList.log (InfiniteList.handle t (InfiniteList.Intersect o first rest) s)
                            = InfiniteList.log s ++ new).
    { simpl. destruct (nth_error _ o) as [ob|]; [|exists []; rewrite app_nil_r; reflexivity].
      destruct (InfiniteList.mem _ _); [|exists []; rewrite app_nil_r; reflexivity].
      unfold InfiniteList.observer_callback, InfiniteList.call_loadMore.
      destruct (_ && _ && _); [|exists []; rewrite app_nil_r; reflexivity].
      destruct (InfiniteList.loadMore _); [|exists []; rewrite app_nil_r; reflexivity].
      eexists. reflexivity. }
    destruct H as [new H]. rewrite (admitted_calls _ _ _ _ H), H. apply calls_in_app.
  - simpl. rewrite app_nil_r. reflexivity.
  - simpl. rewrite app_nil_r. unfold InfiniteList.table_input.
    destruct (InfiniteList.mounted s) as [p|]; [|reflexivity].
    destruct (InfiniteList.shows_table p); [|reflexivity].
    destruct (InfiniteList.table_handler p) as [w|f]; simpl; [reflexivity|].
    rewrite calls_in_app. simpl. apply app_nil_r.
Qed.

Lemma audit_calls (evs : list (Z * InfiniteList.Event)) :
  forall s,
    calls_in (InfiniteList.log (InfiniteList.run evs s))
    = calls_in (InfiniteList.log s) ++ map call_of (audit evs s).
Proof.
  induction evs as [|[t e] evs IH]; intros s; simpl; [rewrite app_nil_r; reflexivity|].
  rewrite IH, audit_handle_calls, audit_advance_calls, !map_app, !app_assoc. reflexivity.
Qed.

(** *** The re-check is made under the guard of the last render *)

(** The timer, if it is one of the re-check effect, was set under the
    guard and under dependencies equal to those of the props [cur]. *)
Lemma recheck_timer_current (s : InfiniteList.State) (tm : InfiniteList.Timer)
      (p : InfiniteList.Props) :
  recheck_current (InfiniteList.mounted s) s -> guarded s ->
  In tm (InfiniteList.timers s) ->
  InfiniteList.tm_job tm = InfiniteList.ForceCheck p ->
  exists q, InfiniteList.mounted s = Some q
            /\ JS.truthy (InfiniteList.hasMore q) = true
            /\ JS.truthy (InfiniteList.isValidating q) = false
            /\ InfiniteList.loadMore q = InfiniteList.loadMore p.
Proof.
  intros [_ [_ R3]] [_ Hg] Hin Hjob.
  destruct (R3 tm p Hin Hjob) as [_ [q [Hq Hsame]]].
  apply same_recheck_deps_eq in Hsame. destruct Hsame as [_ [[E1 [E2 [E3 E4]]] _]].
  rewrite Forall_forall in Hg. specialize (Hg tm Hin).
  unfold recheck_ok in Hg. rewrite Hjob in Hg. destruct Hg as [Hm Hv].
  exists q. split; [exact Hq|]. split; [rewrite <- E3; exact Hm|].
  split; [rewrite <- E4; exact Hv | congruence].
Qed.

Lemma audit_timers_recheck (cur : option InfiniteList.Props) (ds : list InfiniteList.Timer) :
  (forall tm p, In tm ds -> InfiniteList.tm_job tm = InfiniteList.ForceCheck p ->
                exists q, cur = Some q
                          /\ JS.truthy (InfiniteList.hasMore q) = true
                          /\ JS.truthy (InfiniteList.isValidating q) = false
                          /\ InfiniteList.loadMore q = InfiniteList.loadMore p) ->
  forall s a,
    InfiniteList.mounted s = cur ->
    In a (audit_timers ds s) -> adm_trigger a = ByRecheck -> under_current_guard a.
Proof.
  intros Hds. induction ds as [|tm ds IH]; intros s a Hm Hin Htr; simpl in Hin; [contradiction|].
  apply in_app_or in Hin. destruct Hin as [Hin|Hin].
  - destruct (fire_log tm s) as [new [Hlog Hnew]].
    destruct (InfiniteList.tm_job tm) as [p n | p | inst p raw] eqn:Hjob; simpl in Hin.
    + rewrite (admitted_app _ _ _ _ Hlog) in Hin. apply in_map_iff in Hin.
      destruct Hin as [c [<- _]]. discriminate.
    + rewrite (admitted_app _ _ _ _ Hlog) in Hin. apply in_map_iff in Hin.
      destruct Hin as [c [<- Hc]].
      destruct Hnew as [->|[f [Hf ->]]]; [contradiction|].
      destruct Hc as [<-|[]]. simpl.
      destruct (Hds tm p (or_introl eq_refl) Hjob) as [q [Hq [H1 [H2 H3]]]].
      exists q. simpl. rewrite Hm. repeat split; try assumption. congruence.
    + contradiction.
  - apply (IH (fun tm' p' H' => Hds tm' p' (or_intror H')) (InfiniteList.fire tm s) a);
      try assumption.
    rewrite fire_mounted. exact Hm.
Qed.

Lemma audit_advance_recheck (now : Z) (s : InfiniteList.State) (a : Admission) :
  recheck_current (InfiniteList.mounted s) s -> guarded s ->
  In a (audit_advance now s) -> adm_trigger a = ByRecheck -> under_current_guard a.
Proof.
  intros Hr Hg. unfold audit_advance.
  apply (audit_timers_recheck (InfiniteList.mounted s)); [|reflexivity].
  intros tm p Hin Hjob. apply (recheck_timer_current s tm p Hr Hg); [|exact Hjob].
  unfold due_now in Hin.
  apply (Permutation_in _ (sort_perm _ _)) in Hin. apply filter_In in Hin. apply Hin.
Qed.

Lemma audit_recheck (evs : list (Z * InfiniteList.Event)) :
  forall s a,
    recheck_current (InfiniteList.mounted s) s -> guarded s ->
    In a (audit evs s) -> adm_trigger a = ByRecheck -> under_current_guard a.
Proof.
  induction evs as [|[t e] evs IH]; intros s a Hr Hg Hin Htr; simpl in Hin; [contradiction|].
  apply in_app_or in Hin. destruct Hin as [Hin|Hin];
    [apply (audit_advance_recheck t s a); assumption|].
  apply in_app_or in Hin. destruct Hin as [Hin|Hin].
  - destruct e as [p | | o first rest | d | raw]; simpl in Hin; try contradiction.
    unfold admitted in Hin. apply in_map_iff in Hin. destruct Hin as [c [<- _]].
    discriminate.
  - apply (IH (InfiniteList.handle t e (InfiniteList.advance t s)) a); try assumption.
    + apply recheck_handle, recheck_advance, Hr.
    + apply handle_guarded, advance_guarded, Hg.
Qed.

(** *** The observer calls under the guard of the last render *)

Lemma watching_teardown (t : Z) (s : InfiniteList.State) :
  watching (InfiniteList.mounted s) s ->
  watching (InfiniteList.mounted (InfiniteList.unmount t s)) (InfiniteList.unmount t s).
Proof.
  intros H. pose proof (watching_unmount t s H) as Hidle.
  destruct (InfiniteList.mounted s) as [q|] eqn:Hm.
  - split.
    + intros o ob Hnth Hne. exfalso. apply Hne. apply (Hidle o ob Hnth).
    + intros o Ho. exfalso. revert Ho. unfold InfiniteList.unmount. rewrite Hm.
      cbn. discriminate.
  - unfold InfiniteList.unmount. rewrite Hm. rewrite Hm. exact H.
Qed.

Lemma watching_step (t : Z) (e : InfiniteList.Event) (s : InfiniteList.State) :
  (forall p, e = InfiniteList.Render p -> sets_observer p) ->
  watching (InfiniteList.mounted s) s ->
  watching (InfiniteList.mounted (InfiniteList.handle t e s)) (InfiniteList.handle t e s).
Proof.
  intros Hr H. destruct e as [p | | o first rest | d | raw];
    try (apply watching_handle; [discriminate | exact Hr | exact H]).
  apply watching_teardown, H.
Qed.

Lemma audit_timers_trigger (ds : list InfiniteList.Timer) :
  forall s a, In a (audit_timers ds s) -> adm_trigger a <> ByIntersection.
Proof.
  induction ds as [|tm ds IH]; intros s a Hin; simpl in Hin; [contradiction|].
  apply in_app_or in Hin. destruct Hin as [Hin|Hin]; [|apply (IH _ _ Hin)].
  destruct (InfiniteList.tm_job tm); simpl in Hin; try contradiction;
    unfold admitted in Hin; apply in_map_iff in Hin; destruct Hin as [c [<- _]];
    discriminate.
Qed.

(** The callback of an observer that watches the element of the entry
    decides as the guard of the last render would. *)
Lemma intersection_under_current_guard (t : Z) (o : nat)
      (first : InfiniteList.IntersectionObserverEntry)
      (rest : list InfiniteList.IntersectionObserverEntry)
      (s : InfiniteList.State) (a : Admission) :
  watching (InfiniteList.mounted s) s ->
  In a (audit_handle t (InfiniteList.Intersect o first rest) s) ->
  under_current_guard a.
Proof.
  intros [W1 W2] Hin. cbn [audit_handle] in Hin.
  assert (Hlog : exists new,
             InfiniteList.log (InfiniteList.handle t (InfiniteList.Intersect o first rest) s)
             = InfiniteList.log s ++ new
             /\ (new = []
                 \/ exists ob f q,
                     new = [(t, LoadMore f (InfiniteList.obs_closure ob))]
                     /\ InfiniteList.mounted s = Some q
                     /\ JS.truthy (InfiniteList.hasMore q) = true
                     /\ JS.truthy (InfiniteList.isValidating q) = false
                     /\ InfiniteList.loadMore q = Some f)).
  { cbn [InfiniteList.handle].
    destruct (nth_error (InfiniteList.observers s) o) as [ob|] eqn:Hnth;
      [|exists []; rewrite app_nil_r; auto].
    destruct (InfiniteList.mem _ _) eqn:Hmem; [|exists []; rewrite app_nil_r; auto].
    unfold InfiniteList.observer_callback, InfiniteList.call_loadMore.
    destruct (InfiniteList.isIntersecting first); cbn [andb];
      [|exists []; rewrite app_nil_r; auto].
    destruct (JS.truthy (InfiniteList.hasMore _)) eqn:Hm; cbn [andb];
      [|exists []; rewrite app_nil_r; auto].
    destruct (JS.truthy (InfiniteList.isValidating _)) eqn:Hv; cbn [negb];
      [exists []; rewrite app_nil_r; auto|].
    destruct (InfiniteList.loadMore _) as [f|] eqn:Hf; [|exists []; rewrite app_nil_r; auto].
    eexists. split; [reflexivity|]. right.
    assert (Hne : InfiniteList.obs_targets ob <> []).
    { intros E. rewrite E in Hmem. discriminate. }
    pose proof (W1 o ob Hnth Hne) as Ho.
    destruct (W2 o Ho) as [_ [ob' [q [Hn [Hq Hs]]]]].
    rewrite Hnth in Hn. injection Hn as <-.
    apply same_guard_deps_eq in Hs. destruct Hs as [_ [E2 [E3 E4]]].
    exists ob, f, q. split; [reflexivity|]. split; [exact Hq|].
    split; [rewrite <- E3; exact Hm|]. split; [rewrite <- E4; exact Hv | congruence]. }
  destruct Hlog as [new [Hlog Hnew]].
  rewrite (admitted_app _ _ _ _ Hlog) in Hin. apply in_map_iff in Hin.
  destruct Hin as [c [<- Hc]].
  destruct Hnew as [->|[ob [f [q [-> [Hq [Hm [Hv Hf]]]]]]]]; [contradiction|].
  destruct Hc as [<-|[]]. exists q. simpl. auto.
Qed.

Lemma audit_intersection (evs : list (Z * InfiniteList.Event)) :
  (forall t p, In (t, InfiniteList.Render p) evs -> sets_observer p) ->
  forall s a,
    watching (InfiniteList.mounted s) s ->
    In a (audit evs s) -> adm_trigger a = ByIntersection -> under_current_guard a.
Proof.
  induction evs as [|[t e] evs IH]; intros Hr s a Hw Hin Htr; simpl in Hin; [contradiction|].
  apply in_app_or in Hin. destruct Hin as [Hin|Hin];
    [exfalso; apply (audit_timers_trigger _ _ _ Hin Htr)|].
  apply in_app_or in Hin. destruct Hin as [Hin|Hin].
  - destruct e as [p | | o first rest | d | raw]; try contradiction.
    apply (intersection_under_current_guard t o first rest (InfiniteList.advance t s) a);
      [apply watching_advance, Hw | exact Hin].
  - apply (IH (fun t' p H => Hr t' p (or_intror H))
              (InfiniteList.handle t e (InfiniteList.advance t s)) a); try assumption.
    apply watching_step; [|apply watching_advance, Hw].
    intros p ->. apply (Hr t p). left. reflexivity.
Qed.

Lemma watching_trace (evs : list (Z * InfiniteList.Event)) :
  (forall t p, In (t, InfiniteList.Render p) evs -> sets_observer p) ->
  forall s, watching (InfiniteList.mounted s) s ->
            watching (InfiniteList.mounted (InfiniteList.run evs s)) (InfiniteList.run evs s).
Proof.
  induction evs as [|[t e] evs IH]; intros Hr s H; simpl; [exact H|].
  apply (IH (fun t' p Hin => Hr t' p (or_intror Hin))).
  apply watching_step; [|apply watching_advance, H].
  intros p ->. apply (Hr t p). left. reflexivity.
Qed.

(** C2, amended. The three triggers make every call of [loadMore] that
    is logged. A call made by the re-check effect is made while the props
    of the last render have [hasMore] set and [isValidating] not set, on
    their [loadMore]; so is a call made by the callback of the observer,
    as long as every render has infinite scrolling on and a [loadMore].
    And then the callback of an observer that is told that an element it
    watches intersects does call while the props of the last render have
    [hasMore] set and [isValidating] not set, whatever their [isLoading]
    is. What the check scheduled by [setLoadMoreRef] does is left open
    here. *)
Theorem continuation_guard :
  forall (evs : list (Z * InfiniteList.Event)) (horizon : Z),
    let made := audit_until horizon evs InfiniteList.init in
    InfiniteList.loadMore_calls (InfiniteList.run_until horizon evs InfiniteList.init)
    = map call_of made
    /\ (forall a, In a made -> adm_trigger a = ByRecheck -> under_current_guard a)
    /\ ((forall t p, In (t, InfiniteList.Render p) evs -> sets_observer p) ->
        (forall a, In a made -> adm_trigger a = ByIntersection -> under_current_guard a)
        /\ (forall (t : Z) (o : nat) (ob : InfiniteList.Observer)
                   (first : InfiniteList.IntersectionObserverEntry)
                   (rest : list InfiniteList.IntersectionObserverEntry)
                   (q : InfiniteList.Props),
               let s := InfiniteList.advance t (InfiniteList.run evs InfiniteList.init) in
               nth_error (InfiniteList.observers s) o = Some ob ->
               InfiniteList.mem (InfiniteList.target first) (InfiniteList.obs_targets ob)
               = true ->
               InfiniteList.isIntersecting first = true ->
               InfiniteList.mounted s = Some q ->
               JS.truthy (InfiniteList.hasMore q) = true ->
               JS.truthy (InfiniteList.isValidating q) = false ->
               exists f,
                 InfiniteList.loadMore q = Some f
                 /\ audit_handle t (InfiniteList.Intersect o first rest) s
                    = [mkAdmission ByIntersection t f (Some q)])).
Proof.
  intros evs horizon made. unfold made, audit_until.
  assert (Hr0 : recheck_current (InfiniteList.mounted InfiniteList.init) InfiniteList.init).
  { split; [constructor|]. split; [constructor|]. intros tm p []. }
  assert (Hg0 : guarded InfiniteList.init) by (split; constructor).
  assert (Hw0 : watching (InfiniteList.mounted InfiniteList.init) InfiniteList.init).
  { split.
    - intros o ob Hnth. destruct o; discriminate.
    - intros o Ho. discriminate. }
  split; [|split].
  - unfold InfiniteList.run_until, InfiniteList.loadMore_calls.
    change (calls_in (InfiniteList.log
                        (InfiniteList.advance horizon (InfiniteList.run evs InfiniteList.init)))
            = map call_of (audit evs InfiniteList.init
                           ++ audit_advance horizon (InfiniteList.run evs InfiniteList.init))).
    rewrite audit_advance_calls, audit_calls, map_app. reflexivity.
  - intros a Hin Htr. apply in_app_or in Hin. destruct Hin as [Hin|Hin].
    + apply (audit_recheck evs InfiniteList.init a); assumption.
    + apply (audit_advance_recheck horizon (InfiniteList.run evs InfiniteList.init) a);
        try assumption.
      * apply recheck_run, Hr0.
      * apply run_guarded, Hg0.
  - intros Hr. split.
    + intros a Hin Htr. apply in_app_or in Hin. destruct Hin as [Hin|Hin].
      * apply (audit_intersection evs Hr InfiniteList.init a); assumption.
      * exfalso. apply (audit_timers_trigger _ _ _ Hin Htr).
    + intros t o ob first rest q. cbv zeta.
      set (s := InfiniteList.advance t (InfiniteList.run evs InfiniteList.init)).
      intros Hnth Hmem Hint Hq Hmore Hval.
      assert (Hw : watching (InfiniteList.mounted s) s).
      { apply watching_advance, watching_trace; assumption. }
      assert (Hc : closures_in (rendered_in evs) s).
      { apply advance_closures, run_closures.
        - intros t' p Hp. exists t'. exact Hp.
        - repeat split; try constructor. intros p Hp. discriminate. }
      destruct (proj1 Hc q Hq) as [t' Hrendered].
      destruct (Hr t' q Hrendered) as [_ Hload].
      destruct (InfiniteList.loadMore q) as [f|] eqn:Hf; [|contradiction].
      exists f. split; [reflexivity|].
      destruct Hw as [W1 W2].
      assert (Hne : InfiniteList.obs_targets ob <> []).
      { intros E. rewrite E in Hmem. discriminate. }
      destruct (W2 o (W1 o ob Hnth Hne)) as [_ [ob' [q' [Hn [Hq' Hs]]]]].
      rewrite Hnth in Hn. injection Hn as <-.
      rewrite Hq in Hq'. injection Hq' as <-.
      apply same_guard_deps_eq in Hs. destruct Hs as [_ [E2 [E3 E4]]].
      assert (Hlog : InfiniteList.log
                       (InfiniteList.handle t (InfiniteList.Intersect o first rest) s)
                     = InfiniteList.log s ++ [(t, LoadMore f (InfiniteList.obs_closure ob))]).
      { cbn [InfiniteList.handle]. rewrite Hnth, Hmem.
        unfold InfiniteList.observer_callback, InfiniteList.call_loadMore.
        rewrite Hint, E3, E4, Hmore, Hval, E2, Hf. reflexivity. }
      cbn [audit_handle]. rewrite (admitted_app _ _ _ _ Hlog), Hq. reflexivity.
Qed.

Lemma continuation_guard_witness :
  under_current_guard (mkAdmission ByIntersection 10 9%nat (Some sample_server_props))
  /\ under_current_guard (mkAdmission ByRecheck 300 9%nat (Some sample_server_props)).
Proof.
  destruct (continuation_guard
              [(0%Z, InfiniteList.Layout sample_dom);
               (0%Z, InfiniteList.Render sample_server_props);
               (10%Z, InfiniteList.Intersect 0 sample_entry [])] 1000%Z)
    as [_ [Hrecheck Hintersection]].
  assert (Hr : forall (t : Z) (p : InfiniteList.Props),
             In (t, InfiniteList.Render p)
                [(0%Z, InfiniteList.Layout sample_dom);
                 (0%Z, InfiniteList.Render sample_server_props);
                 (10%Z, InfiniteList.Intersect 0 sample_entry [])] ->
             sets_observer p).
  { intros t p [H|[H|[H|[]]]]; try discriminate. injection H as _ <-.
    split; [reflexivity | discriminate]. }
  destruct (Hintersection Hr) as [Hguard _].
  split.
  - apply Hguard.
    + vm_compute. left. reflexivity.
    + reflexivity.
  - apply Hrecheck.
    + vm_compute. right. left. reflexivity.
    + reflexivity.
Defined.

(* ===================================================================== *)
(** ** A commit in client mode *)
(* ===================================================================== *)





